(** * File-watcher channel and process liveness check

    A shallow embedding of the out-of-process channel of the agent
    (package [channel], type [fileWatcherChannel]) and of the process
    lookup of package [proc] ([find_process]), with the properties of the
    specification stated and proved over the embedded code.

    Go strings are byte strings: they are modelled as [string] (one [ascii]
    per byte).  Go [int] is the 64-bit signed integer of the supported
    platforms: it is modelled as [Z] with the wrap-around written out. *)

From Stdlib Require Import ZArith NArith Ascii String List Bool Lia.
From Stdlib Require Import DecimalString DecimalPos DecimalN.
From stdpp Require Import base option list strings sorting gmap.

Local Open Scope Z_scope.

(** ** Go integers *)

Definition min_int64 : Z := - 2 ^ 63.
Definition max_int64 : Z := 2 ^ 63 - 1.

(** Two's-complement wrap-around of a 64-bit signed integer. *)
Definition wrap_int (z : Z) : Z := (z + 2 ^ 63) mod 2 ^ 64 - 2 ^ 63.

(** ** The Go library functions used by the code *)

(** Errors are values of interface type [error]; the model keeps the
    concrete shapes that occur. *)
Inductive error : Type :=
  | errorString (s : string)                 (* errors.New *)
  | NumError (Func Num Err : string)         (* strconv *)
  | PathError (Op Path Err : string)         (* os, io/ioutil *)
  | LinkError (Op Old New Err : string)      (* os.Rename *)
  | ExitError (msg : string).                (* os/exec *)

(** The line feed that Go writes as a backslash followed by n. *)
Definition LF : string := String "010"%char EmptyString.

Module strings.

(** [strings.Contains(s, substr)]: [substr] occurs somewhere in [s]. *)
Fixpoint Contains (s substr : string) : bool :=
  String.prefix substr s ||
  match s with
  | EmptyString => false
  | String _ s' => Contains s' substr
  end.

(** [strings.Split(s, sep)] for a one-byte separator, which is what both
    call sites pass.  The result is never empty: a string without
    separator yields itself. *)
Fixpoint Split (s : string) (sep : ascii) : list string :=
  match s with
  | EmptyString => [EmptyString]
  | String c s' =>
      if Ascii.eqb c sep then EmptyString :: Split s' sep
      else match Split s' sep with
           | x :: xs => String c x :: xs
           | [] => [String c EmptyString]
           end
  end.

(** [strings.Fields(s)]: the maximal runs of non-space bytes.  The space
    bytes are the six ASCII ones (tab, newline, vertical tab, form feed,
    carriage return, blank), those of [Ascii.is_space]. *)
Definition Fields (s : string) : list string := String.words s.

End strings.

Module path.

(** [path.Split(p)]: splits immediately after the final slash; without a
    slash the directory is empty and the file is [p]. *)
Definition Split (p : string) : string * string :=
  let file := List.last (strings.Split p "/"%char) EmptyString in
  (String.substring 0 (String.length p - String.length file) p, file).

(** One step of [path.Clean] on the stack of components kept so far
    (innermost first). *)
Definition clean_step (rooted : bool) (stack : list string) (c : string)
  : list string :=
  if String.eqb c "" || String.eqb c "." then stack
  else if String.eqb c ".." then
    match stack with
    | top :: rest =>
        if String.eqb top ".." then c :: stack else rest
    | [] => if rooted then [] else [c]
    end
  else c :: stack.

(** [path.Clean(p)]: the shortest equivalent path, by purely lexical
    processing. *)
Definition Clean (p : string) : string :=
  let rooted := String.prefix "/" p in
  let comps :=
    List.rev (List.fold_left (clean_step rooted)
                             (strings.Split p "/"%char) []) in
  let body := String.concat "/" comps in
  if rooted then "/" +:+ body
  else if String.eqb body "" then "." else body.

(** [path.Join(a, b)]: empty elements are ignored, the rest is joined
    with slashes and cleaned; all elements empty gives the empty path. *)
Definition Join (a b : string) : string :=
  if String.eqb a "" then
    if String.eqb b "" then "" else Clean b
  else if String.eqb b "" then Clean a
  else Clean (a +:+ "/" +:+ b).

End path.

Module strconv.

Definition is_digit (c : ascii) : bool :=
  (("0"%char <=? c) && (c <=? "9"%char))%char.

Definition digit_val (c : ascii) : Z :=
  Z.of_N (N_of_ascii c) - 48.

(** Value of a non-empty string of decimal digits; [None] on any other
    byte (underscores are only accepted for base 0). *)
Fixpoint parse_digits (acc : Z) (s : string) : option Z :=
  match s with
  | EmptyString => Some acc
  | String c s' =>
      if is_digit c then parse_digits (10 * acc + digit_val c) s'
      else None
  end.

Definition syntaxError (s : string) : error :=
  NumError "ParseInt" s "invalid syntax".
Definition rangeError (s : string) : error :=
  NumError "ParseInt" s "value out of range".

(** [strconv.ParseInt(s, 10, 64)].  The value returned beside an error is
    never used by the callers, so only the error is kept there. *)
Definition ParseInt (s : string) : Z + error :=
  match s with
  | EmptyString => inr (syntaxError s)
  | String c rest =>
      let neg := Ascii.eqb c "-" in
      let body := if neg || Ascii.eqb c "+" then rest else s in
      match body with
      | EmptyString => inr (syntaxError s)
      | _ =>
          match parse_digits 0 body with
          | None => inr (syntaxError s)
          | Some un =>
              if neg then
                if 2 ^ 63 <? un then inr (rangeError s) else inl (- un)
              else
                if max_int64 <? un then inr (rangeError s) else inl un
          end
      end
  end.

End strconv.

Module fmt.

(** The decimal digits of a natural number, without padding. *)
Definition decimal (n : N) : string :=
  NilZero.string_of_uint (N.to_uint n).

Fixpoint zeros (k : nat) : string :=
  match k with
  | O => EmptyString
  | S k' => String "0" (zeros k')
  end.

(** Left padding with zeros up to [width] bytes. *)
Definition pad_zero (width : nat) (s : string) : string :=
  zeros (width - String.length s) +:+ s.

(** The verb [%03d] on an [int]: zero padding to a minimum width of
    three, the sign counting in the width; longer numbers are printed
    in full. *)
Definition Sprintf_03d (n : Z) : string :=
  if n <? 0 then "-" +:+ pad_zero 2 (decimal (Z.to_N (- n)))
  else pad_zero 3 (decimal (Z.to_N n)).

(** The verbs [%02d], [%04d] and the like: zero padding to a minimum
    width of [width], by the rule of [%03d]. *)
Definition Sprintf_0d (width : nat) (n : Z) : string :=
  if n <? 0 then "-" +:+ pad_zero (width - 1) (decimal (Z.to_N (- n)))
  else pad_zero width (decimal (Z.to_N n)).

End fmt.

Module regexp.

(** The fragment of regular-expression syntax the code uses. *)
Inductive regex : Type :=
  | Void
  | Eps
  | Class (p : ascii -> bool)
  | Cat (r1 r2 : regex)
  | Alt (r1 r2 : regex)
  | Star (r : regex).

Definition Plus (r : regex) : regex := Cat r (Star r).
Definition Chr (c : ascii) : regex := Class (Ascii.eqb c).

Fixpoint nullable (r : regex) : bool :=
  match r with
  | Void => false
  | Eps => true
  | Class _ => false
  | Cat r1 r2 => nullable r1 && nullable r2
  | Alt r1 r2 => nullable r1 || nullable r2
  | Star _ => true
  end.

(** Brzozowski derivative with respect to one byte. *)
Fixpoint deriv (c : ascii) (r : regex) : regex :=
  match r with
  | Void => Void
  | Eps => Void
  | Class p => if p c then Eps else Void
  | Cat r1 r2 =>
      if nullable r1 then Alt (Cat (deriv c r1) r2) (deriv c r2)
      else Cat (deriv c r1) r2
  | Alt r1 r2 => Alt (deriv c r1) (deriv c r2)
  | Star r1 => Cat (deriv c r1) (Star r1)
  end.

(** Some prefix of [s] matches [r]. *)
Fixpoint match_prefix (r : regex) (s : string) : bool :=
  nullable r ||
  match s with
  | EmptyString => false
  | String c s' => match_prefix (deriv c r) s'
  end.

(** Some substring of [s] matches [r]: the unanchored search of
    [regexp.MatchString]. *)
Fixpoint search (r : regex) (s : string) : bool :=
  match_prefix r s ||
  match s with
  | EmptyString => false
  | String _ s' => search r s'
  end.

(** [regexp.MatchString(pattern, s)] for a pattern that compiles: the
    error is nil. *)
Definition MatchString (pattern : regex) (s : string) : bool * option error :=
  (search pattern s, None).

End regexp.

(** ** The file system

    The file system is a finite map from clean paths to nodes.  A regular
    file carries its content and whether the other end still holds it
    open in exclusive mode, in which case reading it and removing it fail
    (the situation the comment in [consume] describes).  The removals
    that the system refuses for other reasons are a set of paths kept
    beside the map. *)

Inductive node : Type :=
  | File (content : string) (locked : bool)
  | Dir.

Module os.

(** The directory a clean path lives in. *)
Definition parent (k : string) : string := path.Clean (fst (path.Split k)).

(** The name under which key [k] appears in directory [d], if it is an
    entry of [d]. *)
Definition child_name (d k : string) : option string :=
  let name := snd (path.Split k) in
  if negb (String.eqb name "") && negb (String.eqb name ".")
     && negb (String.eqb name "..") && String.eqb (parent k) d
  then Some name else None.

Definition children (d : string) (fs : gmap string node) : list string :=
  omap (child_name d) (fst <$> map_to_list fs).

(** [k] is [d] or lies below it. *)
Definition under (d k : string) : bool :=
  String.eqb k d || String.prefix (if String.eqb d "/" then d else d +:+ "/") k.

(** Removal can be refused.  [protected] holds the clean paths that the
    system does not let the process remove (the permissions of the
    directory that holds them, an attribute of the file); a regular file
    that another process holds open in exclusive mode cannot be removed
    either. *)
Definition in_use (fs : gmap string node) (k : string) : bool :=
  match fs !! k with
  | Some (File _ true) => true
  | _ => false
  end.

Definition unremovable (protected : gset string) (fs : gmap string node)
    (k : string) : bool :=
  bool_decide (k ∈ protected) || in_use fs k.

(** [os.Remove(name)]: removes a file or an empty directory, or fails. *)
Definition Remove (protected : gset string) (name : string)
    (fs : gmap string node) : gmap string node * option error :=
  let k := path.Clean name in
  match fs !! k with
  | None => (fs, Some (PathError "remove" name "no such file or directory"))
  | Some x =>
      if bool_decide (k ∈ protected)
      then (fs, Some (PathError "remove" name "permission denied"))
      else
        match x with
        | Dir =>
            match children k fs with
            | [] => (delete k fs, None)
            | _ :: _ => (fs, Some (PathError "remove" name "directory not empty"))
            end
        | File _ true =>
            (fs, Some (PathError "remove" name
                         "the file is being used by another process"))
        | File _ false => (delete k fs, None)
        end
  end.

(** The entries at or below [k] that cannot be removed, in the order in
    which the removal of the tree meets them. *)
Definition stuck (protected : gset string) (k : string)
    (fs : gmap string node) : list string :=
  List.filter (fun p => under k p && unremovable protected fs p)
    (fst <$> map_to_list fs).

(** [os.RemoveAll(path)]: removes the path and everything below it that
    it can, and returns the first error it meets: an entry that cannot
    be removed stays, and with it the directories above it.  A path that
    does not exist is not an error. *)
Definition RemoveAll (protected : gset string) (name : string)
    (fs : gmap string node) : gmap string node * option error :=
  let k := path.Clean name in
  let kept := stuck protected k fs in
  (filter (fun kv => negb (under k (fst kv)) || existsb (under (fst kv)) kept = true) fs,
   match kept with
   | [] => None
   | p :: _ =>
       Some (PathError "unlinkat" p
               (if bool_decide (p ∈ protected) then "permission denied"
                else "the file is being used by another process"))
   end).

(** [os.Rename(oldpath, newpath)] of a regular file, the only use the
    channel makes of it: the destination directory must exist and the
    destination must not be a directory; an existing regular file is
    replaced.  Renaming a directory is not modelled and reported as an
    error. *)
Definition Rename (oldpath newpath : string) (fs : gmap string node)
  : gmap string node * option error :=
  let ko := path.Clean oldpath in
  let kn := path.Clean newpath in
  match fs !! ko with
  | None =>
      (fs, Some (LinkError "rename" oldpath newpath "no such file or directory"))
  | Some Dir =>
      (fs, Some (LinkError "rename" oldpath newpath "is a directory"))
  | Some (File c l) =>
      match fs !! parent kn with
      | Some Dir =>
          match fs !! kn with
          | Some Dir =>
              (fs, Some (LinkError "rename" oldpath newpath "file exists"))
          | _ => (<[kn := File c l]> (delete ko fs), None)
          end
      | Some (File _ _) =>
          (fs, Some (LinkError "rename" oldpath newpath "not a directory"))
      | None =>
          (fs, Some (LinkError "rename" oldpath newpath "no such file or directory"))
      end
  end.

(** The path itself and the directories above it, innermost first. *)
Fixpoint ancestors_from (fuel : nat) (k : string) : list string :=
  match fuel with
  | O => [k]
  | S fuel' =>
      if String.eqb (parent k) k then [k]
      else k :: ancestors_from fuel' (parent k)
  end.

Definition ancestors (k : string) : list string :=
  ancestors_from (String.length k) k.

Definition is_file (fs : gmap string node) (k : string) : bool :=
  match fs !! k with
  | Some (File _ _) => true
  | _ => false
  end.

Definition ErrNotExist : string := "no such file or directory".

(** [os.Stat(name)], of which the code only looks at the error: nil when
    the path exists. *)
Definition Stat (name : string) (fs : gmap string node) : option error :=
  let k := path.Clean name in
  if existsb (is_file fs) (List.tl (ancestors k))
  then Some (PathError "stat" name "not a directory")
  else match fs !! k with
       | Some _ => None
       | None => Some (PathError "stat" name ErrNotExist)
       end.

(** [os.IsNotExist(err)] *)
Definition IsNotExist (err : option error) : bool :=
  match err with
  | Some (PathError _ _ e) => String.eqb e ErrNotExist
  | Some (LinkError _ _ _ e) => String.eqb e ErrNotExist
  | _ => false
  end.

(** [os.MkdirAll(path, perm)]: creates the directory and the missing
    directories above it; a directory that exists already is not an
    error, a regular file on the way is.  The permission bits are not
    modelled. *)
Definition MkdirAll (name : string) (fs : gmap string node)
  : gmap string node * option error :=
  let k := path.Clean name in
  if existsb (is_file fs) (ancestors k)
  then (fs, Some (PathError "mkdir" name "not a directory"))
  else (fold_right (fun p m => match m !! p with
                               | None => <[p := Dir]> m
                               | Some _ => m
                               end) fs (ancestors k), None).

End os.

Module ioutil.

(** [ioutil.ReadFile(filename)]. *)
Definition ReadFile (filename : string) (fs : gmap string node)
  : string + error :=
  match fs !! path.Clean filename with
  | Some (File content false) => inl content
  | Some (File _ true) =>
      inr (PathError "open" filename "the file is being used by another process")
  | Some Dir => inr (PathError "read" filename "is a directory")
  | None => inr (PathError "open" filename "no such file or directory")
  end.

(** [ioutil.WriteFile(filename, data, perm)]: creates or truncates the
    file and writes [data]; the directory must exist.  The permission
    bits are not modelled. *)
Definition WriteFile (filename data : string) (fs : gmap string node)
  : gmap string node * option error :=
  let k := path.Clean filename in
  match fs !! os.parent k with
  | Some Dir =>
      match fs !! k with
      | Some Dir => (fs, Some (PathError "open" filename "is a directory"))
      | Some (File _ true) =>
          (fs, Some (PathError "open" filename
                       "the file is being used by another process"))
      | _ => (<[k := File data false]> fs, None)
      end
  | Some (File _ _) => (fs, Some (PathError "open" filename "not a directory"))
  | None => (fs, Some (PathError "open" filename "no such file or directory"))
  end.

(** [ioutil.ReadDir(dirname)]: the names of the directory entries,
    sorted by name; on failure the list is nil. *)
Definition ReadDir (dirname : string) (fs : gmap string node)
  : list string * option error :=
  let d := path.Clean dirname in
  match fs !! d with
  | Some Dir => (merge_sort String.le (os.children d fs), None)
  | Some (File _ _) => ([], Some (PathError "readdirent" dirname "not a directory"))
  | None => ([], Some (PathError "open" dirname "no such file or directory"))
  end.

End ioutil.

(** ** The clock *)

Module time.

(** What the code reads off [time.Now()]. *)
Record Time : Type := {
  Year : Z; Month : Z; Day : Z; Hour : Z; Minute : Z; Second : Z
}.

End time.

(** ** The fsnotify events *)

Module fsnotify.

(** [Op] is a bit mask. *)
Definition Op : Type := N.
Definition Create : Op := 1%N.
Definition Write : Op := 2%N.
Definition Remove : Op := 4%N.
Definition Rename : Op := 8%N.
Definition Chmod : Op := 16%N.

Record Event : Type := { Name : string; EvOp : Op }.

(** What [fsnotify.NewWatcher()] and then [watcher.Add(name)] return to
    the constructor of the channel: the errors, nil on success. *)
Record Setup : Type := { NewWatcher : option error; Add : option error }.

End fsnotify.

(** ** The logger

    The logger is an interface of the agent; the model records what is
    handed to it. *)

Inductive Level : Type := LDebug | LInfo | LError.

Inductive LogArg : Type :=
  | AStr (s : string)
  | AErr (e : error)
  | AEvent (e : fsnotify.Event).

Inductive LogEntry : Type :=
  | Logf (lvl : Level) (format : string) (args : list LogArg)
  | Logl (lvl : Level) (args : list LogArg).

(** ** Package channel: the file-watcher channel *)

Module channel.

(** [Mode] is a string type; its constants are declared in another file
    of the package. *)
Definition Mode : Type := string.

(** The fields of the struct that carry data.  [onMessageChan] holds the
    payloads pushed to the stream, oldest first; the bound of its buffer,
    on which a push waits for the reader, is not modelled.  The logger is
    part of the [World] below; the watcher handle and the lock carry no
    data of their own. *)
Record fileWatcherChannel : Type := {
  path : string;
  tmpPath : string;
  onMessageChan : list string;
  mode : Mode;
  counter : Z;
  recvCounter : Z;
  startTime : string;
  closed : bool
}.

(** Goroutines started by the channel.  [Close] starts one that removes
    the watch, closes the watcher and then the stream; it runs beside the
    caller and the model records that it was started. *)
Inductive Goroutine : Type :=
  | TeardownWatcher (dir : string).

(** What the channel shares with its environment: the file system, with
    the paths whose removal the system refuses, the log and the
    goroutines.  Nothing in the package changes [protected]. *)
Record World : Type := {
  files : gmap string node;
  log : list LogEntry;
  goroutines : list Goroutine;
  protected : gset string
}.

Definition State : Type := fileWatcherChannel * World.

Definition set_files (fs : gmap string node) (w : World) : World :=
  {| files := fs; log := log w; goroutines := goroutines w;
     protected := protected w |}.

Definition add_log (e : LogEntry) (w : World) : World :=
  {| files := files w; log := log w ++ [e]; goroutines := goroutines w;
     protected := protected w |}.

Definition spawn (g : Goroutine) (w : World) : World :=
  {| files := files w; log := log w; goroutines := goroutines w ++ [g];
     protected := protected w |}.

Definition set_counter (n : Z) (ch : fileWatcherChannel) : fileWatcherChannel :=
  {| path := path ch; tmpPath := tmpPath ch; onMessageChan := onMessageChan ch;
     mode := mode ch; counter := n; recvCounter := recvCounter ch;
     startTime := startTime ch; closed := closed ch |}.

Definition set_recvCounter (n : Z) (ch : fileWatcherChannel) : fileWatcherChannel :=
  {| path := path ch; tmpPath := tmpPath ch; onMessageChan := onMessageChan ch;
     mode := mode ch; counter := counter ch; recvCounter := n;
     startTime := startTime ch; closed := closed ch |}.

Definition set_closed (b : bool) (ch : fileWatcherChannel) : fileWatcherChannel :=
  {| path := path ch; tmpPath := tmpPath ch; onMessageChan := onMessageChan ch;
     mode := mode ch; counter := counter ch; recvCounter := recvCounter ch;
     startTime := startTime ch; closed := b |}.

(** [ch.onMessageChan <- msg] *)
Definition push (msg : string) (ch : fileWatcherChannel) : fileWatcherChannel :=
  {| path := path ch; tmpPath := tmpPath ch;
     onMessageChan := onMessageChan ch ++ [msg];
     mode := mode ch; counter := counter ch; recvCounter := recvCounter ch;
     startTime := startTime ch; closed := closed ch |}.

(** [fmt.Sprintf("%v-%s-%03d", ch.mode, ch.startTime, ch.counter)] *)
Definition sequenceID (m : Mode) (start : string) (n : Z) : string :=
  m +:+ "-" +:+ start +:+ "-" +:+ fmt.Sprintf_03d n.

Definition Send (rawJson : string) (st : State) : State * option error :=
  let '(ch, w) := st in
  if closed ch then (st, Some (errorString "channel already closed"))
  else
    let sequenceID := sequenceID (mode ch) (startTime ch) (counter ch) in
    let filepath := path.Join (path ch) sequenceID in
    let tmp_filepath := path.Join (tmpPath ch) sequenceID in
    match ioutil.WriteFile tmp_filepath rawJson (files w) with
    | (fs1, Some err) =>
        ((ch, add_log (Logf LError ("write file %v encountered error: %v " +:+ LF)
                         [AStr tmp_filepath; AErr err]) (set_files fs1 w)),
         Some err)
    | (fs1, None) =>
        match os.Rename tmp_filepath filepath fs1 with
        | (fs2, Some err) =>
            ((ch, add_log (Logf LError "send renaming file encountered error: %v"
                             [AErr err]) (set_files fs2 w)),
             Some err)
        | (fs2, None) =>
            ((set_counter (wrap_int (counter ch + 1)) ch, set_files fs2 w), None)
        end
    end.

Definition GetMessage (ch : fileWatcherChannel) : list string :=
  onMessageChan ch.

Definition parseSequenceCounter (filepath : string) : Z :=
  let name := snd (path.Split filepath) in
  let parts := strings.Split name "-"%char in
  match strconv.ParseInt (List.last parts EmptyString) with
  | inr _ => -1
  | inl counter => counter
  end.

Definition letter (c : ascii) : bool :=
  ((("a" <=? c) && (c <=? "z")) || (("A" <=? c) && (c <=? "Z")))%char.

(** The pattern [[a-zA-Z]+-[0-9]+-[0-9]+]. *)
Definition sequence_pattern : regexp.regex :=
  regexp.Cat (regexp.Plus (regexp.Class letter))
    (regexp.Cat (regexp.Chr "-")
       (regexp.Cat (regexp.Plus (regexp.Class strconv.is_digit))
          (regexp.Cat (regexp.Chr "-")
             (regexp.Plus (regexp.Class strconv.is_digit))))).

Definition isReadable (ch : fileWatcherChannel) (filename : string) : bool :=
  let '(matched, err) := regexp.MatchString sequence_pattern filename in
  if negb matched || bool_decide (err <> None) then false
  else negb (strings.Contains filename (mode ch))
       && negb (strings.Contains filename "tmp").

Definition consume (filepath : string) (st : State) : State :=
  let '(ch, w) := st in
  let w := add_log (Logf LDebug "consuming message under path: %v"
                      [AStr filepath]) w in
  match ioutil.ReadFile filepath (files w) with
  | inr err =>
      (ch, add_log (Logf LError ("message %v failed to read: %v " +:+ LF)
                      [AStr filepath; AErr err]) w)
  | inl buf =>
      let fs := fst (os.Remove (protected w) filepath (files w)) in
      let ch := set_recvCounter (wrap_int (parseSequenceCounter filepath + 1)) ch in
      (push buf ch, set_files fs w)
  end.

Definition consumeAll (st : State) : State :=
  let '(ch, w) := st in
  let w := add_log (Logl LDebug [AStr "consuming all the messages under: ";
                                 AStr (path ch)]) w in
  let fileInfos := fst (ioutil.ReadDir (path ch) (files w)) in
  fold_left
    (fun st name =>
       if isReadable (fst st) name
       then consume (path.Join (path (fst st)) name) st
       else st)
    fileInfos (ch, w).

Definition Close (st : State) : State :=
  let '(ch, w) := st in
  if closed ch then st
  else
    let w := add_log (Logf LInfo "channel %v requested close" [AStr (path ch)]) w in
    let ch := set_closed true ch in
    let '(ch, w) := consumeAll (ch, w) in
    (ch, spawn (TeardownWatcher (path ch)) w).

Section Modes.

(** The constant [ModeMaster] is declared in another file of the package. *)
Variable ModeMaster : Mode.

Definition Destroy (st : State) : State :=
  let '(ch, w) := Close st in
  if String.eqb (mode ch) ModeMaster then
    let w := add_log (Logl LDebug [AStr "master removing directory..."]) w in
    match os.RemoveAll (protected w) (path ch) (files w) with
    | (fs, Some err) =>
        (ch, add_log (Logf LError "failed to remove directory %v : %v"
                        [AStr (path ch); AErr err]) (set_files fs w))
    | (fs, None) => (ch, set_files fs w)
    end
  else (ch, w).

End Modes.

(** What the watch loop receives from the watcher in one iteration of
    its [select]. *)
Inductive WatchMsg : Type :=
  | EventMsg (event : fsnotify.Event)     (* event, ok == true *)
  | EventsClosed                           (* ok == false *)
  | ErrorMsg (err : option error).

(** One iteration of the loop; the boolean tells whether the loop goes
    on. *)
Definition watch_step (msg : WatchMsg) (st : State) : State * bool :=
  let '(ch, w) := st in
  match msg with
  | EventsClosed =>
      ((ch, add_log (Logl LDebug [AStr "fileWatcher already closed"]) w), false)
  | EventMsg event =>
      let w := add_log (Logl LDebug [AStr "received event: "; AEvent event]) w in
      if N.eqb (N.land (fsnotify.EvOp event) fsnotify.Create) fsnotify.Create
         && isReadable ch (fsnotify.Name event)
      then
        if parseSequenceCounter (fsnotify.Name event) =? recvCounter ch
        then (consume (fsnotify.Name event) (ch, w), true)
        else
          let w := add_log (Logl LDebug
                     [AStr "received out-of-order file update, polling the dir to reorder"]) w in
          (consumeAll (ch, w), true)
      else ((ch, w), true)
  | ErrorMsg (Some err) =>
      ((ch, add_log (Logf LError "file watcher error: %v" [AErr err]) w), true)
  | ErrorMsg None => (st, true)
  end.

Fixpoint watch_loop (msgs : list WatchMsg) (st : State) : State :=
  match msgs with
  | [] => st
  | msg :: rest =>
      let '(st', continue) := watch_step msg st in
      if continue then watch_loop rest st' else st'
  end.

(** The goroutine [watch] on the messages the watcher delivers. *)
Definition watch (msgs : list WatchMsg) (st : State) : State :=
  let '(ch, w) := st in
  let w := add_log (Logf LDebug "%v listener started on path: %v"
                      [AStr (mode ch); AStr (path ch)]) w in
  watch_loop msgs (consumeAll (ch, w)).

Definition createIfNotExist (dir : string) (fs : gmap string node)
  : gmap string node * option error :=
  let err := os.Stat dir fs in
  if os.IsNotExist err then os.MkdirAll dir fs else (fs, err).

(** The clean-up of the constructor on a failure: the error is logged,
    [os.RemoveAll] is called on the directory, its result dropped, and
    the error returned. *)
Definition abandon (format : string) (name : string) (err : error) (w : World)
  : option fileWatcherChannel * World * option error :=
  let w := add_log (Logf LError format [AErr err]) w in
  (None, set_files (fst (os.RemoveAll (protected w) name (files w))) w, Some err).

(** [NewFileWatcherChannel(logger, mode, name)], given the time
    [time.Now()] returns and what the watcher answers.  The goroutine it
    starts on success is [watch]. *)
Definition NewFileWatcherChannel (curTime : time.Time) (setup : fsnotify.Setup)
    (mode : Mode) (name : string) (w : World)
  : option fileWatcherChannel * World * option error :=
  let tmpPath := path.Join name "tmp" in
  match createIfNotExist name (files w) with
  | (fs1, Some err) =>
      abandon "failed to create directory: %v" name err (set_files fs1 w)
  | (fs1, None) =>
      match createIfNotExist tmpPath fs1 with
      | (fs2, Some err) =>
          abandon "failed to create directory: %v" name err (set_files fs2 w)
      | (fs2, None) =>
          let w := set_files fs2 w in
          match fsnotify.NewWatcher setup with
          | Some err =>
              abandon "filewatcher listener encountered error when start watcher: %v"
                name err w
          | None =>
              match fsnotify.Add setup with
              | Some err =>
                  abandon "filewatcher listener encountered error when add watch: %v"
                    name err w
              | None =>
                  (Some {| path := name;
                           tmpPath := tmpPath;
                           onMessageChan := [];
                           mode := mode;
                           counter := 0;
                           recvCounter := 0;
                           startTime :=
                             fmt.Sprintf_0d 4 (time.Year curTime) +:+
                             fmt.Sprintf_0d 2 (time.Month curTime) +:+
                             fmt.Sprintf_0d 2 (time.Day curTime) +:+
                             fmt.Sprintf_0d 2 (time.Hour curTime) +:+
                             fmt.Sprintf_0d 2 (time.Minute curTime) +:+
                             fmt.Sprintf_0d 2 (time.Second curTime);
                           closed := false |},
                   w, None)
              end
          end
      end
  end.

End channel.

(** ** Package proc: the process lookup *)

Module proc.

(** The body of the loop of [find_process] on the rows that remain. *)
Fixpoint scan (pid : Z) (startTime : string) (rows : list string)
  : bool * option error :=
  match rows with
  | [] => (false, None)
  | row :: rest =>
      let parts := strings.Fields row in
      if negb (Nat.eqb (List.length parts) 2) then scan pid startTime rest
      else
        match strconv.ParseInt (nth 0 parts EmptyString) with
        | inr err => (false, Some err)
        | inl _pid =>
            if (pid =? _pid) && String.eqb startTime (nth 1 parts EmptyString)
            then (true, None)
            else scan pid startTime rest
        end
  end.

(** [find_process], given what the variable [ps] returns when called. *)
Definition find_process (ps : string * option error) (pid : Z)
    (startTime : string) : bool * option error :=
  let '(output, err) := ps in
  match err with
  | Some e => (false, Some e)
  | None =>
      let proc_list := strings.Split output "010"%char in
      scan pid startTime (List.skipn 1 proc_list)
  end.

(** [get_current_time], given the time [time.Now()] returns. *)
Definition get_current_time (curtime : time.Time) : string :=
  fmt.Sprintf_0d 2 (time.Hour curtime) +:+ ":" +:+
  fmt.Sprintf_0d 2 (time.Minute curtime) +:+ ":" +:+
  fmt.Sprintf_0d 2 (time.Second curtime).

End proc.

(** ** Runs and sample states used in the statements *)

(** A run of consecutive calls to [Send], with the result of each. *)
Fixpoint Send_all (payloads : list string) (st : channel.State)
  : channel.State * list (option error) :=
  match payloads with
  | [] => (st, [])
  | rawJson :: rest =>
      let '(st1, r) := channel.Send rawJson st in
      let '(st2, rs) := Send_all rest st1 in
      (st2, r :: rs)
  end.

(** The number of calls that returned nil. *)
Definition successes (rs : list (option error)) : Z :=
  Z.of_nat (List.length (List.filter (fun r => negb (bool_decide (is_Some r))) rs)).

Module Sample.

Definition root : string := "/var/chan".

(** A channel directory with its staging directory, both empty. *)
Definition fs_empty : gmap string node :=
  <["/var/chan/tmp" := Dir]> (<["/var/chan" := Dir]>
    (<["/var" := Dir]> (<["/" := Dir]> ∅))).

Definition world (fs : gmap string node) : channel.World :=
  {| channel.files := fs; channel.log := []; channel.goroutines := [];
     channel.protected := ∅ |}.

(** The same, in a system that refuses to remove the paths [held]. *)
Definition world_protecting (held : list string) (fs : gmap string node)
  : channel.World :=
  {| channel.files := fs; channel.log := []; channel.goroutines := [];
     channel.protected := list_to_set held |}.

Definition chan (m : channel.Mode) (sent received : Z)
  : channel.fileWatcherChannel :=
  {| channel.path := root; channel.tmpPath := "/var/chan/tmp";
     channel.onMessageChan := []; channel.mode := m;
     channel.counter := sent; channel.recvCounter := received;
     channel.startTime := "20200101120000"; channel.closed := false |}.

(** A message of the master that the master still holds open. *)
Definition fs_locked : gmap string node :=
  <["/var/chan/master-20200101120000-000" := File "ping" true]> fs_empty.

(** A channel directory that has been removed. *)
Definition fs_gone : gmap string node :=
  <["/var" := Dir]> (<["/" := Dir]> ∅).

(** A directory sits where the next message of the master would go. *)
Definition fs_blocked : gmap string node :=
  <["/var/chan/master-20200101120000-000" := Dir]> fs_empty.

End Sample.

(** A call to [Send] whose staging write succeeds and whose relocation
    fails. *)
Definition relocation_fails (rawJson : string) (st : channel.State) : Prop :=
  let ch := fst st in
  let seq := channel.sequenceID (channel.mode ch) (channel.startTime ch)
               (channel.counter ch) in
  let tmp_filepath := path.Join (channel.tmpPath ch) seq in
  let filepath := path.Join (channel.path ch) seq in
  channel.closed ch = false /\
  exists fs1 fs2 err,
    ioutil.WriteFile tmp_filepath rawJson (channel.files (snd st)) = (fs1, None) /\
    os.Rename tmp_filepath filepath fs1 = (fs2, Some err).

Fixpoint all_relocations_fail (payloads : list string) (st : channel.State) : Prop :=
  match payloads with
  | [] => True
  | rawJson :: rest =>
      relocation_fails rawJson st /\
      all_relocations_fail rest (fst (channel.Send rawJson st))
  end.

(** The reading of the leftovers that the specification suggests: each
    call of a run of sends whose relocation fails leaves one more entry
    in the staging directory. *)
Definition leftovers_accumulate (payloads : list string) (st : channel.State) : Prop :=
  all_relocations_fail payloads st ->
  (List.length (os.children (path.Clean (channel.tmpPath (fst st)))
                  (channel.files (snd st)))
   + List.length payloads
   <= List.length (os.children (path.Clean (channel.tmpPath (fst st)))
                     (channel.files (snd (fst (Send_all payloads st))))))%nat.

(** What [Destroy] does to the files as the specification words it: a
    master leaves nothing at or below the channel directory, another
    instance leaves the files as [Close] left them. *)
Definition destroyed_as_specified (ModeMaster : channel.Mode) (st : channel.State)
  : Prop :=
  (channel.mode (fst st) = ModeMaster ->
   forall k, os.under (path.Clean (channel.path (fst st))) k = true ->
     channel.files (snd (channel.Destroy ModeMaster st)) !! k = None) /\
  (channel.mode (fst st) <> ModeMaster ->
   channel.files (snd (channel.Destroy ModeMaster st))
     = channel.files (snd (channel.Close st))).

Module Held.

(** A message of the master lies in the channel directory, and the
    system refuses to remove it. *)
Definition message : string := "/var/chan/master-20200101120000-000".

Definition fs : gmap string node := <[message := File "ping" false]> Sample.fs_empty.

Definition world : channel.World := Sample.world_protecting [message] fs.

End Held.

Module Pending.

(** The messages 2 to 5 of the master wait in the channel directory. *)
Definition fs : gmap string node :=
  <["/var/chan/master-20200101120000-002" := File "m2" false]>
    (<["/var/chan/master-20200101120000-003" := File "m3" false]>
       (<["/var/chan/master-20200101120000-004" := File "m4" false]>
          (<["/var/chan/master-20200101120000-005" := File "m5" false]>
             Sample.fs_empty))).

Definition created (n : string) : fsnotify.Event :=
  {| fsnotify.Name := "/var/chan/master-20200101120000-" +:+ n;
     fsnotify.EvOp := fsnotify.Create |}.

End Pending.

(** The operations of a channel instance: the calls of its owner and the
    activity of its watcher goroutine. *)
Inductive Operation : Type :=
  | OpSend (rawJson : string)
  | OpClose
  | OpDestroy (ModeMaster : channel.Mode)
  | OpWatchStart
  | OpWatchMsg (msg : channel.WatchMsg).

Definition run_op (op : Operation) (st : channel.State) : channel.State :=
  match op with
  | OpSend rawJson => fst (channel.Send rawJson st)
  | OpClose => channel.Close st
  | OpDestroy ModeMaster => channel.Destroy ModeMaster st
  | OpWatchStart => channel.watch [] st
  | OpWatchMsg msg => fst (channel.watch_step msg st)
  end.

(** The invariant as the specification words it: no operation lowers
    [recvCounter]. *)
Definition recvCounter_never_decreases (op : Operation) (st : channel.State) : Prop :=
  channel.recvCounter (fst st) <= channel.recvCounter (fst (run_op op st)).

Module Restart.

(** The worker has received messages 0 to 6 of a master that has since
    been restarted; the new master instance, with a later start time, has
    sent its first message. *)
Definition fs : gmap string node :=
  <["/var/chan/master-20200101130000-000" := File "hello again" false]>
    Sample.fs_empty.

Definition st : channel.State := (Sample.chan "worker" 0 7, Sample.world fs).

Definition created : fsnotify.Event :=
  {| fsnotify.Name := "/var/chan/master-20200101130000-000";
     fsnotify.EvOp := fsnotify.Create |}.

End Restart.

(** ** The process table as the specification reads it *)

Module Table.

(** The rows after the header line. *)
Definition rows (output : string) : list string :=
  List.skipn 1 (strings.Split output "010"%char).

(** A row of two fields whose pid parses and equals [pid] and whose
    start-time token equals [startTime]. *)
Definition row_matches (pid : Z) (startTime : string) (row : string) : bool :=
  match strings.Fields row with
  | [p; t] =>
      match strconv.ParseInt p with
      | inl n => (pid =? n) && String.eqb startTime t
      | inr _ => false
      end
  | _ => false
  end.

(** A row of two fields whose pid field fails to parse, with the error. *)
Definition row_unparsable (row : string) : option error :=
  match strings.Fields row with
  | [p; t] =>
      match strconv.ParseInt p with
      | inl _ => None
      | inr e => Some e
      end
  | _ => None
  end.

(** A row that neither matches nor stops the lookup. *)
Definition row_passed (pid : Z) (startTime : string) (row : string) : Prop :=
  row_matches pid startTime row = false /\ row_unparsable row = None.

(** The result of the lookup as the specification states it. *)
Definition as_specified (ps : string * option error) (pid : Z)
    (startTime : string) : Prop :=
  (fst (proc.find_process ps pid startTime) = true <->
   exists row, In row (rows (fst ps)) /\ row_matches pid startTime row = true) /\
  ((forall row, In row (rows (fst ps)) -> row_matches pid startTime row = false) ->
   proc.find_process ps pid startTime = (false, None)) /\
  (forall e, snd (proc.find_process ps pid startTime) = Some e ->
   snd ps = Some e \/ exists row, In row (rows (fst ps)) /\ row_unparsable row = Some e).

(** A table in which a line that is not a process precedes process 42. *)
Definition garbled : string :=
  "  PID  STARTED" +:+ LF +:+
  "    1 09:00:00" +:+ LF +:+
  "  n/a 09:30:00" +:+ LF +:+
  "   42 10:00:01" +:+ LF.

End Table.

Module Thousand.

(** The master has sent messages 999 and 1000, in that order. *)
Definition fs : gmap string node :=
  <["/var/chan/master-20200101120000-999" := File "m999" false]>
    (<["/var/chan/master-20200101120000-1000" := File "m1000" false]>
       Sample.fs_empty).

End Thousand.

(** ** The language of a regular expression and the shape of a name *)

(** [Matches r s]: the whole of [s] is in the language of [r]. *)
Inductive Matches : regexp.regex -> string -> Prop :=
  | MEps : Matches regexp.Eps ""
  | MClass p c : p c = true -> Matches (regexp.Class p) (String c "")
  | MCat r1 r2 s1 s2 :
      Matches r1 s1 -> Matches r2 s2 -> Matches (regexp.Cat r1 r2) (s1 +:+ s2)
  | MAltL r1 r2 s : Matches r1 s -> Matches (regexp.Alt r1 r2) s
  | MAltR r1 r2 s : Matches r2 s -> Matches (regexp.Alt r1 r2) s
  | MStarNil r : Matches (regexp.Star r) ""
  | MStarCons r s1 s2 :
      Matches r s1 -> Matches (regexp.Star r) s2 ->
      Matches (regexp.Star r) (s1 +:+ s2).

Fixpoint all_of (p : ascii -> bool) (s : string) : bool :=
  match s with
  | EmptyString => true
  | String c s' => p c && all_of p s'
  end.

(** A non-empty run of bytes of one class. *)
Definition run (p : ascii -> bool) (s : string) : Prop :=
  s <> "" /\ all_of p s = true.

(** Letters, a dash, digits, a dash, digits: the shape role-number-number. *)
Definition sequence_shape (s : string) : Prop :=
  exists role n1 n2,
    s = role +:+ "-" +:+ n1 +:+ "-" +:+ n2 /\
    run channel.letter role /\ run strconv.is_digit n1 /\ run strconv.is_digit n2.

(** [x] occurs in [s] as a substring. *)
Definition occurs (x s : string) : Prop :=
  exists pre post, s = pre +:+ x +:+ post.

(** The first of the dash-separated segments of the name of the file. *)
Definition role_segment (filename : string) : string :=
  List.hd "" (strings.Split (snd (path.Split filename)) "-"%char).

(** The filter as the specification words it: the name of the file does
    not have the shape, or its role segment is the mode of the instance,
    or the file lies under the staging directory. *)
Definition filtered_as_specified (ch : channel.fileWatcherChannel)
    (filename : string) : Prop :=
  ~ sequence_shape (snd (path.Split filename)) \/
  role_segment filename = channel.mode ch \/
  os.under (path.Clean (channel.tmpPath ch)) (path.Clean filename) = true.

Module Tmpfs.

(** A worker whose channel directory was created below [/var/tmpfs]. *)
Definition chan : channel.fileWatcherChannel :=
  {| channel.path := "/var/tmpfs/chan"; channel.tmpPath := "/var/tmpfs/chan/tmp";
     channel.onMessageChan := []; channel.mode := "worker";
     channel.counter := 0; channel.recvCounter := 0;
     channel.startTime := "20200101120000"; channel.closed := false |}.

(** The name the watcher reports for the first message of the master. *)
Definition event_name : string := "/var/tmpfs/chan/master-20200101120000-000".

Definition created : fsnotify.Event :=
  {| fsnotify.Name := event_name; fsnotify.EvOp := fsnotify.Create |}.

(** The channel directory with that message in it. *)
Definition fs : gmap string node :=
  <[event_name := File "m0" false]>
    (<["/var/tmpfs/chan/tmp" := Dir]> (<["/var/tmpfs/chan" := Dir]>
       (<["/var/tmpfs" := Dir]> (<["/var" := Dir]> (<["/" := Dir]> ∅))))).

End Tmpfs.

(** ** Notions used by the further properties *)

(** The operations that send; the others belong to the receive path and
    to the life cycle. *)
Definition sends (op : Operation) : bool :=
  match op with
  | OpSend _ => true
  | _ => false
  end.

(** A path that cannot be read: [ioutil.ReadFile] fails on it. *)
Definition unreadable (p : string) (fs : gmap string node) : Prop :=
  exists err, ioutil.ReadFile p fs = inr err.

(** The payload that reading [p] gives, if the read succeeds. *)
Definition payload_of (fs : gmap string node) (p : string) : option string :=
  match ioutil.ReadFile p fs with
  | inl buf => Some buf
  | inr _ => None
  end.

(** The messages of the watcher that make the watch loop do nothing but
    log: its errors, and the events that are not creations or whose name
    does not qualify. *)
Definition passes_by (ch : channel.fileWatcherChannel) (msg : channel.WatchMsg) : bool :=
  match msg with
  | channel.ErrorMsg _ => true
  | channel.EventsClosed => false
  | channel.EventMsg event =>
      negb (N.eqb (N.land (fsnotify.EvOp event) fsnotify.Create) fsnotify.Create
            && channel.isReadable ch (fsnotify.Name event))
  end.

(** Bytes that are not space, for the fields of a row. *)
Definition nonspace (c : ascii) : bool := negb (Ascii.is_space c).

(** * Properties *)

Import channel.

(** ** Fields that the receive path never touches *)

Lemma consume_fields filepath st :
  let st' := consume filepath st in
  path (fst st') = path (fst st) /\ tmpPath (fst st') = tmpPath (fst st) /\
  mode (fst st') = mode (fst st) /\ counter (fst st') = counter (fst st) /\
  startTime (fst st') = startTime (fst st) /\ closed (fst st') = closed (fst st) /\
  goroutines (snd st') = goroutines (snd st).
Proof.
  destruct st as [ch w]. unfold consume. cbn.
  destruct (ioutil.ReadFile filepath (files w)); cbn; auto 10.
Qed.

Lemma isReadable_mode ch1 ch2 name :
  mode ch1 = mode ch2 -> isReadable ch1 name = isReadable ch2 name.
Proof. unfold isReadable. intros ->. reflexivity. Qed.

(** The loop of [consumeAll], written on the names it selects. *)
Lemma consumeAll_loop names : forall ch st,
  mode (fst st) = mode ch -> path (fst st) = path ch ->
  fold_left
    (fun st name =>
       if isReadable (fst st) name
       then consume (path.Join (path (fst st)) name) st
       else st)
    names st
  = fold_left (fun st p => consume p st)
      (map (path.Join (path ch)) (List.filter (isReadable ch) names)) st.
Proof.
  induction names as [|name names IH]; intros ch st Hm Hp; [reflexivity|].
  cbn [fold_left List.filter map].
  rewrite (isReadable_mode (fst st) ch name Hm). rewrite Hp.
  destruct (isReadable ch name); cbn [fold_left map].
  - apply IH.
    + pose proof (consume_fields (path.Join (path ch) name) st) as H.
      cbn zeta in H. destruct H as (_ & _ & -> & _). exact Hm.
    + pose proof (consume_fields (path.Join (path ch) name) st) as H.
      cbn zeta in H. destruct H as (-> & _). exact Hp.
  - apply IH; assumption.
Qed.

Lemma consume_list_fields paths : forall st,
  let st' := fold_left (fun st p => consume p st) paths st in
  path (fst st') = path (fst st) /\ tmpPath (fst st') = tmpPath (fst st) /\
  mode (fst st') = mode (fst st) /\ counter (fst st') = counter (fst st) /\
  startTime (fst st') = startTime (fst st) /\ closed (fst st') = closed (fst st) /\
  goroutines (snd st') = goroutines (snd st).
Proof.
  induction paths as [|p paths IH]; intros st; cbn [fold_left]; [auto 10|].
  specialize (IH (consume p st)). cbn zeta in IH |- *.
  pose proof (consume_fields p st) as H. cbn zeta in H.
  destruct IH as (-> & -> & -> & -> & -> & -> & ->). exact H.
Qed.

Lemma consumeAll_unfold ch w :
  consumeAll (ch, w) =
  fold_left (fun st p => consume p st)
    (map (path.Join (path ch))
       (List.filter (isReadable ch) (fst (ioutil.ReadDir (path ch) (files w)))))
    (ch, add_log (Logl LDebug [AStr "consuming all the messages under: ";
                               AStr (path ch)]) w).
Proof. unfold consumeAll. cbn [files add_log]. apply consumeAll_loop; reflexivity. Qed.

Lemma consumeAll_fields st :
  let st' := consumeAll st in
  path (fst st') = path (fst st) /\ tmpPath (fst st') = tmpPath (fst st) /\
  mode (fst st') = mode (fst st) /\ counter (fst st') = counter (fst st) /\
  startTime (fst st') = startTime (fst st) /\ closed (fst st') = closed (fst st) /\
  goroutines (snd st') = goroutines (snd st).
Proof.
  destruct st as [ch w]. rewrite consumeAll_unfold.
  exact (consume_list_fields _ (ch, add_log _ w)).
Qed.

(** ** Consumption of one file *)

Lemma consume_read_error filepath ch w err :
  ioutil.ReadFile filepath (files w) = inr err ->
  consume filepath (ch, w) =
    (ch, add_log (Logf LError ("message %v failed to read: %v " +:+ LF)
                    [AStr filepath; AErr err])
           (add_log (Logf LDebug "consuming message under path: %v"
                       [AStr filepath]) w)).
Proof.
  intros Hread. unfold consume. cbn [files add_log]. rewrite Hread. reflexivity.
Qed.

(** C6: when the read of a file fails, [consume] leaves the channel (its
    [recvCounter] and its output stream included) and the file system as
    they are: the file is not removed and nothing is pushed; the failure
    is logged at error level and nothing else happens. *)
Theorem consume_read_failure filepath ch w err :
  ioutil.ReadFile filepath (files w) = inr err ->
  fst (consume filepath (ch, w)) = ch /\
  files (snd (consume filepath (ch, w))) = files w /\
  goroutines (snd (consume filepath (ch, w))) = goroutines w /\
  log (snd (consume filepath (ch, w))) =
    log w ++ [Logf LDebug "consuming message under path: %v" [AStr filepath];
              Logf LError ("message %v failed to read: %v " +:+ LF)
                [AStr filepath; AErr err]].
Proof.
  intros Hread. rewrite (consume_read_error _ _ _ _ Hread).
  cbn. rewrite <- app_assoc. auto.
Qed.

Lemma consume_read_failure_witness :
  let f := "/var/chan/master-20200101120000-000" in
  let ch := Sample.chan "worker" 0 0 in
  let w := Sample.world Sample.fs_locked in
  let err := PathError "open" f "the file is being used by another process" in
  ioutil.ReadFile f (files w) = inr err /\
  fst (consume f (ch, w)) = ch /\
  files (snd (consume f (ch, w))) = files w.
Proof.
  cbv zeta. split; [vm_compute; reflexivity|].
  pose proof (consume_read_failure "/var/chan/master-20200101120000-000"
                (Sample.chan "worker" 0 0) (Sample.world Sample.fs_locked)
                (PathError "open" "/var/chan/master-20200101120000-000"
                   "the file is being used by another process")
                ltac:(vm_compute; reflexivity)) as (H1 & H2 & _).
  split; assumption.
Defined.

(** ** The reconciliation pass *)

Lemma ReadDir_error dirname fs err :
  snd (ioutil.ReadDir dirname fs) = Some err -> fst (ioutil.ReadDir dirname fs) = [].
Proof.
  unfold ioutil.ReadDir. destruct (fs !! path.Clean dirname) as [[c l|]|]; cbn; congruence.
Qed.

(** C10: a reconciliation pass whose directory listing fails consumes
    nothing: the listing error is dropped, the channel and the files are
    unchanged, nothing reaches the output stream, and the only trace is
    the debug line written before the listing. *)
Theorem consumeAll_listing_failure ch w err :
  snd (ioutil.ReadDir (path ch) (files w)) = Some err ->
  consumeAll (ch, w) =
    (ch, add_log (Logl LDebug [AStr "consuming all the messages under: ";
                               AStr (path ch)]) w).
Proof.
  intros Herr. rewrite consumeAll_unfold.
  rewrite (ReadDir_error _ _ _ Herr). reflexivity.
Qed.

Lemma consumeAll_listing_failure_witness :
  let ch := Sample.chan "worker" 0 3 in
  let w := Sample.world Sample.fs_gone in
  snd (ioutil.ReadDir (path ch) (files w))
    = Some (PathError "open" "/var/chan" "no such file or directory") /\
  fst (consumeAll (ch, w)) = ch /\ files (snd (consumeAll (ch, w))) = Sample.fs_gone.
Proof.
  cbv zeta. split; [vm_compute; reflexivity|].
  rewrite (consumeAll_listing_failure (Sample.chan "worker" 0 3)
             (Sample.world Sample.fs_gone)
             (PathError "open" "/var/chan" "no such file or directory")
             ltac:(vm_compute; reflexivity)).
  split; reflexivity.
Defined.


(** ** The file-system operations *)

Lemma WriteFile_ok filename data fs fs1 :
  ioutil.WriteFile filename data fs = (fs1, None) ->
  fs1 = <[path.Clean filename := File data false]> fs.
Proof.
  unfold ioutil.WriteFile.
  destruct (fs !! os.parent (path.Clean filename)) as [[c l|]|]; [congruence| |congruence].
  destruct (fs !! path.Clean filename) as [[c [|]|]|]; congruence.
Qed.

Lemma WriteFile_error filename data fs fs1 err :
  ioutil.WriteFile filename data fs = (fs1, Some err) -> fs1 = fs.
Proof.
  unfold ioutil.WriteFile.
  destruct (fs !! os.parent (path.Clean filename)) as [[c l|]|]; [congruence| |congruence].
  destruct (fs !! path.Clean filename) as [[c [|]|]|]; congruence.
Qed.

Lemma Rename_error oldpath newpath fs fs2 err :
  os.Rename oldpath newpath fs = (fs2, Some err) -> fs2 = fs.
Proof.
  unfold os.Rename.
  destruct (fs !! path.Clean oldpath) as [[c l|]|]; [|congruence..].
  destruct (fs !! os.parent (path.Clean newpath)) as [[c' l'|]|]; [congruence| |congruence].
  destruct (fs !! path.Clean newpath) as [[c' l'|]|]; congruence.
Qed.

Lemma Rename_ok oldpath newpath fs fs2 :
  os.Rename oldpath newpath fs = (fs2, None) ->
  exists c l, fs !! path.Clean oldpath = Some (File c l) /\
    fs2 = <[path.Clean newpath := File c l]> (delete (path.Clean oldpath) fs).
Proof.
  unfold os.Rename.
  destruct (fs !! path.Clean oldpath) as [[c l|]|]; [|congruence..].
  destruct (fs !! os.parent (path.Clean newpath)) as [[c' l'|]|]; [congruence| |congruence].
  destruct (fs !! path.Clean newpath) as [[c' l'|]|]; intros [= <-]; eauto.
Qed.

Lemma Remove_ok protected name fs :
  snd (os.Remove protected name fs) = None ->
  fst (os.Remove protected name fs) = delete (path.Clean name) fs.
Proof.
  unfold os.Remove. destruct (fs !! path.Clean name) as [x|]; [|discriminate].
  destruct (bool_decide _); [discriminate|].
  destruct x as [c [|]|]; [discriminate|reflexivity|].
  destruct (os.children _ _); [reflexivity|discriminate].
Qed.

Lemma Remove_error protected name fs err :
  snd (os.Remove protected name fs) = Some err ->
  fst (os.Remove protected name fs) = fs.
Proof.
  unfold os.Remove. destruct (fs !! path.Clean name) as [x|]; [|reflexivity].
  destruct (bool_decide _); [reflexivity|].
  destruct x as [c [|]|]; [reflexivity|discriminate|].
  destruct (os.children _ _); [discriminate|reflexivity].
Qed.

(** [os.Remove] leaves the files as they are or deletes the one path. *)
Lemma Remove_cases protected name fs :
  (exists err, os.Remove protected name fs = (fs, Some err)) \/
  os.Remove protected name fs = (delete (path.Clean name) fs, None).
Proof.
  destruct (os.Remove protected name fs) as [fs' [err|]] eqn:H.
  - left. exists err. pose proof (Remove_error protected name fs err) as E.
    rewrite H in E. cbn in E. rewrite E by reflexivity. reflexivity.
  - right. pose proof (Remove_ok protected name fs) as E.
    rewrite H in E. cbn in E. rewrite E by reflexivity. reflexivity.
Qed.

Lemma Remove_subseteq protected name fs : fst (os.Remove protected name fs) ⊆ fs.
Proof.
  destruct (Remove_cases protected name fs) as [(err & ->)| ->]; cbn [fst];
    [reflexivity|apply delete_subseteq].
Qed.

Lemma Remove_lookup_other protected name fs k :
  path.Clean name <> k -> fst (os.Remove protected name fs) !! k = fs !! k.
Proof.
  intros Hne. destruct (Remove_cases protected name fs) as [(err & ->)| ->]; cbn [fst];
    [reflexivity|apply lookup_delete_ne; assumption].
Qed.

(** A regular file that nobody holds open is removed unless the system
    refuses it. *)
Lemma Remove_file protected name fs c :
  fs !! path.Clean name = Some (File c false) ->
  os.Remove protected name fs =
    if bool_decide (path.Clean name ∈ protected)
    then (fs, Some (PathError "remove" name "permission denied"))
    else (delete (path.Clean name) fs, None).
Proof. intros H. unfold os.Remove. rewrite H. reflexivity. Qed.

Lemma RemoveAll_subseteq protected name fs :
  fst (os.RemoveAll protected name fs) ⊆ fs.
Proof. unfold os.RemoveAll. cbn [fst]. apply map_filter_subseteq. Qed.

(** What lies outside of the tree is untouched. *)
Lemma RemoveAll_outside protected name fs k :
  os.under (path.Clean name) k = false ->
  fst (os.RemoveAll protected name fs) !! k = fs !! k.
Proof.
  intros Hu. unfold os.RemoveAll. cbn [fst].
  destruct (fs !! k) as [x|] eqn:Hk.
  - apply map_lookup_filter_Some. split; [assumption|]. cbn. rewrite Hu. reflexivity.
  - apply map_lookup_filter_None. left. assumption.
Qed.

(** When the removal succeeds nothing is left of the tree. *)
Lemma RemoveAll_nil protected name fs k :
  snd (os.RemoveAll protected name fs) = None ->
  os.under (path.Clean name) k = true ->
  fst (os.RemoveAll protected name fs) !! k = None.
Proof.
  unfold os.RemoveAll. cbn [fst snd].
  destruct (os.stuck protected (path.Clean name) fs) as [|p kept]; [|discriminate].
  intros _ Hu. apply map_lookup_filter_None. right. intros x _. cbn.
  rewrite Hu. cbn. congruence.
Qed.

Lemma stuck_spec protected k fs p :
  In p (os.stuck protected k fs) <->
  is_Some (fs !! p) /\ os.under k p = true /\ os.unremovable protected fs p = true.
Proof.
  unfold os.stuck. rewrite filter_In, andb_true_iff, <- list_elem_of_In.
  rewrite list_elem_of_fmap. split.
  - intros [([p' x] & -> & Hx) [Hu Hr]]. apply elem_of_map_to_list in Hx.
    cbn in *. eauto.
  - intros ([x Hx] & Hu & Hr). split; [|auto]. exists (p, x).
    split; [reflexivity|]. apply elem_of_map_to_list. assumption.
Qed.

(** The removal succeeds when nothing in the tree refuses to go. *)
Lemma RemoveAll_free protected name fs :
  (forall k, is_Some (fs !! k) -> os.under (path.Clean name) k = true ->
     os.unremovable protected fs k = false) ->
  snd (os.RemoveAll protected name fs) = None.
Proof.
  intros Hfree. unfold os.RemoveAll. cbn [snd].
  destruct (os.stuck protected (path.Clean name) fs) as [|p kept] eqn:Hs; [reflexivity|].
  assert (Hp : In p (os.stuck protected (path.Clean name) fs))
    by (rewrite Hs; left; reflexivity).
  apply stuck_spec in Hp as (Hsome & Hu & Hr).
  rewrite (Hfree p Hsome Hu) in Hr. discriminate.
Qed.

Lemma under_refl d : os.under d d = true.
Proof. unfold os.under. rewrite String.eqb_refl. reflexivity. Qed.

(** When the removal fails, something in the tree that refuses to go is
    still there. *)
Lemma RemoveAll_error protected name fs err :
  snd (os.RemoveAll protected name fs) = Some err ->
  exists p x, os.under (path.Clean name) p = true /\
    os.unremovable protected fs p = true /\
    fs !! p = Some x /\
    fst (os.RemoveAll protected name fs) !! p = Some x.
Proof.
  unfold os.RemoveAll. cbn [fst snd].
  destruct (os.stuck protected (path.Clean name) fs) as [|p kept] eqn:Hs; [discriminate|].
  intros _.
  assert (Hp : In p (os.stuck protected (path.Clean name) fs))
    by (rewrite Hs; left; reflexivity).
  apply stuck_spec in Hp as ([x Hx] & Hu & Hr).
  exists p, x. split; [assumption|]. split; [assumption|]. split; [assumption|].
  apply map_lookup_filter_Some. split; [assumption|]. cbn.
  rewrite under_refl. cbn. rewrite orb_true_r. reflexivity.
Qed.

(** What is left of the tree is, or holds, an entry that refuses to go. *)
Lemma RemoveAll_left protected name fs k x :
  os.under (path.Clean name) k = true ->
  fst (os.RemoveAll protected name fs) !! k = Some x ->
  exists p, os.under (path.Clean name) p = true /\ os.under k p = true /\
    is_Some (fs !! p) /\ os.unremovable protected fs p = true.
Proof.
  unfold os.RemoveAll. cbn [fst]. intros Hu Hk.
  apply map_lookup_filter_Some in Hk as [_ Hkeep]. cbn in Hkeep.
  rewrite Hu in Hkeep. cbn in Hkeep. apply existsb_exists in Hkeep as (q & Hq & Hkq).
  apply stuck_spec in Hq as (Hsome & Hroot & Hr). eauto.
Qed.

Lemma wrap_int_id z : min_int64 <= z <= max_int64 -> wrap_int z = z.
Proof.
  unfold wrap_int, min_int64, max_int64. intros H.
  rewrite Z.mod_small; lia.
Qed.

(** ** Sending *)

(** The two outcomes of one call to [Send]. *)
Lemma Send_outcome rawJson ch w :
  (exists e, snd (Send rawJson (ch, w)) = Some e /\
             fst (fst (Send rawJson (ch, w))) = ch) \/
  (snd (Send rawJson (ch, w)) = None /\
   fst (fst (Send rawJson (ch, w))) = set_counter (wrap_int (counter ch + 1)) ch).
Proof.
  unfold Send. destruct (closed ch); [left; eauto|].
  destruct (ioutil.WriteFile _ _ _) as [fs1 [e|]]; [left; eauto|].
  destruct (os.Rename _ _ _) as [fs2 [e|]]; [left; eauto|].
  right. auto.
Qed.

Lemma Send_all_counter payloads : forall ch w,
  min_int64 <= counter ch ->
  counter ch + Z.of_nat (List.length payloads) <= max_int64 ->
  counter (fst (fst (Send_all payloads (ch, w)))) =
    counter ch + successes (snd (Send_all payloads (ch, w))) /\
  0 <= successes (snd (Send_all payloads (ch, w))) <= Z.of_nat (List.length payloads).
Proof.
  induction payloads as [|rawJson rest IH]; intros ch w Hlo Hhi.
  - cbn. unfold successes. cbn. lia.
  - cbn [Send_all]. cbn [List.length] in Hhi.
    destruct (Send rawJson (ch, w)) as [[ch1 w1] r] eqn:HS.
    pose proof (Send_outcome rawJson ch w) as Hout. rewrite HS in Hout. cbn in Hout.
    destruct (Send_all rest (ch1, w1)) as [st2 rs] eqn:HA.
    assert (Hrec : min_int64 <= counter ch1 /\
                   counter ch1 + Z.of_nat (List.length rest) <= max_int64 /\
                   counter ch1 = counter ch +
                     (if bool_decide (is_Some r) then 0 else 1)).
    { destruct Hout as [(e & -> & ->)|(-> & ->)].
      - rewrite bool_decide_eq_true_2 by eauto. lia.
      - rewrite bool_decide_eq_false_2 by (intros [? ?]; discriminate).
        cbn [counter set_counter]. rewrite wrap_int_id by lia. lia. }
    destruct Hrec as (Hlo1 & Hhi1 & Hc1).
    specialize (IH ch1 w1 Hlo1 Hhi1). rewrite HA in IH. cbn [fst snd] in IH |- *.
    destruct IH as [IH1 IH2]. rewrite IH1, Hc1.
    unfold successes in *. cbn [List.filter].
    destruct (bool_decide (is_Some r)); cbn [negb List.length]; lia.
Qed.

(** C5: a call to [Send] whose staging write or whose relocation fails
    returns that error; whenever [Send] returns an error the channel, and
    so its counter, is unchanged; a call that succeeds advances the counter
    by exactly one and changes no other field; hence after any run of
    calls the counter has advanced by the number of successful ones, the
    successful sends having used consecutive counters. *)
Theorem Send_counter rawJson ch w :
  let seq := sequenceID (mode ch) (startTime ch) (counter ch) in
  let tmp_filepath := path.Join (tmpPath ch) seq in
  let filepath := path.Join (path ch) seq in
  min_int64 <= counter ch < max_int64 ->
  (forall fs1 e, closed ch = false ->
     ioutil.WriteFile tmp_filepath rawJson (files w) = (fs1, Some e) ->
     snd (Send rawJson (ch, w)) = Some e) /\
  (forall fs1 fs2 e, closed ch = false ->
     ioutil.WriteFile tmp_filepath rawJson (files w) = (fs1, None) ->
     os.Rename tmp_filepath filepath fs1 = (fs2, Some e) ->
     snd (Send rawJson (ch, w)) = Some e) /\
  (forall e, snd (Send rawJson (ch, w)) = Some e ->
     fst (fst (Send rawJson (ch, w))) = ch) /\
  (snd (Send rawJson (ch, w)) = None ->
     fst (fst (Send rawJson (ch, w))) = set_counter (counter ch + 1) ch) /\
  (forall payloads,
     counter ch + Z.of_nat (List.length payloads) <= max_int64 ->
     counter (fst (fst (Send_all payloads (ch, w)))) =
       counter ch + successes (snd (Send_all payloads (ch, w)))).
Proof.
  intros seq tmp_filepath filepath Hrange. repeat split.
  - intros fs1 e Hopen Hw. unfold Send. rewrite Hopen.
    fold seq. fold tmp_filepath. rewrite Hw. reflexivity.
  - intros fs1 fs2 e Hopen Hw Hr. unfold Send. rewrite Hopen.
    fold seq. fold tmp_filepath. fold filepath. rewrite Hw, Hr. reflexivity.
  - intros e He. destruct (Send_outcome rawJson ch w) as [(e' & _ & H)|(H & _)];
      [assumption|congruence].
  - intros Hnil. destruct (Send_outcome rawJson ch w) as [(e' & H & _)|(_ & H)];
      [congruence|].
    rewrite H. rewrite wrap_int_id; [reflexivity|].
    unfold min_int64, max_int64 in *. lia.
  - intros payloads Hlen. apply Send_all_counter; lia.
Qed.

Lemma Send_counter_witness :
  let ch := Sample.chan "master" 0 0 in
  let w := Sample.world Sample.fs_empty in
  min_int64 <= counter ch < max_int64 /\
  snd (Send "ping" (ch, w)) = None /\
  counter (fst (fst (Send "ping" (ch, w)))) = 1 /\
  counter (fst (fst (Send_all ["a"; "b"; "c"] (ch, w)))) = 3.
Proof.
  cbv zeta.
  assert (Hrange : min_int64 <= counter (Sample.chan "master" 0 0) < max_int64)
    by (vm_compute; split; [discriminate|reflexivity]).
  split; [exact Hrange|].
  assert (Hnil : snd (Send "ping" (Sample.chan "master" 0 0,
                                   Sample.world Sample.fs_empty)) = None)
    by (vm_compute; reflexivity).
  split; [exact Hnil|].
  destruct (Send_counter "ping" (Sample.chan "master" 0 0)
              (Sample.world Sample.fs_empty) Hrange) as (_ & _ & _ & Hok & Hall).
  split.
  - rewrite (Hok Hnil). reflexivity.
  - rewrite (Hall ["a"; "b"; "c"]); [vm_compute; reflexivity|].
    vm_compute. discriminate.
Defined.

(** ** Closing and destroying *)

Lemma Close_fields st :
  path (fst (Close st)) = path (fst st) /\
  mode (fst (Close st)) = mode (fst st) /\
  counter (fst (Close st)) = counter (fst st) /\
  (closed (fst (Close st)) = true).
Proof.
  destruct st as [ch w]. unfold Close. destruct (closed ch) eqn:Hc; [cbn; auto|].
  pose proof (consumeAll_fields
                (set_closed true ch,
                 add_log (Logf LInfo "channel %v requested close" [AStr (path ch)]) w)) as H.
  cbn zeta in H. destruct (consumeAll _) as [ch1 w1]. cbn in H |- *.
  destruct H as (H1 & _ & H3 & H4 & _ & H6 & _). auto.
Qed.

Lemma Destroy_other ModeMaster st :
  mode (fst st) <> ModeMaster -> Destroy ModeMaster st = Close st.
Proof.
  intros Hm. unfold Destroy.
  pose proof (Close_fields st) as (_ & Hmode & _).
  destruct (Close st) as [ch1 w1]. cbn in Hmode.
  destruct (String.eqb_spec (mode ch1) ModeMaster); [congruence|reflexivity].
Qed.

(** The state that the [Destroy] of a master leaves, for either outcome
    of the removal. *)
Lemma Destroy_master ModeMaster st :
  mode (fst st) = ModeMaster ->
  let w1 := snd (Close st) in
  let removal := os.RemoveAll (protected w1) (path (fst st)) (files w1) in
  Destroy ModeMaster st =
    (fst (Close st),
     {| files := fst removal;
        log := log w1 ++ Logl LDebug [AStr "master removing directory..."]
               :: match snd removal with
                  | Some err => [Logf LError "failed to remove directory %v : %v"
                                   [AStr (path (fst st)); AErr err]]
                  | None => []
                  end;
        goroutines := goroutines w1;
        protected := protected w1 |}).
Proof.
  intros Hm. unfold Destroy.
  pose proof (Close_fields st) as (Hpath & Hmode & _).
  destruct (Close st) as [ch1 w1]. cbn [fst snd] in Hmode, Hpath |- *.
  destruct (String.eqb_spec (mode ch1) ModeMaster); [|congruence].
  rewrite Hpath. cbn [files protected add_log].
  destruct (os.RemoveAll (protected w1) (path (fst st)) (files w1)) as [fs [err|]];
    unfold add_log, set_files; cbn [fst snd files log goroutines protected];
    rewrite <- ?app_assoc; reflexivity.
Qed.

(** C8 as the specification words it fails: the master's [Destroy] calls
    the recursive removal of the channel directory, but a file that the
    system refuses to remove stays, with the directory that holds it;
    [Destroy] logs the error and returns. *)
Lemma Destroy_can_leave_files :
  ~ destroyed_as_specified "master" (Sample.chan "master" 0 0, Held.world).
Proof.
  intros [Hmaster _].
  specialize (Hmaster eq_refl Held.message ltac:(vm_compute; reflexivity)).
  vm_compute in Hmaster. discriminate.
Qed.

(** C8, amended: [Destroy] first does what [Close] does.  After that an
    instance whose mode is not the master's does nothing more, so the
    root directory and every file are as [Close] left them (and
    untouched altogether when the channel was closed already).  A master
    instance calls the recursive removal of the root directory and logs
    its error, if any; it starts no goroutine of its own and changes
    nothing outside of the root.  When the removal succeeds, as it does
    when nothing at or below the root refuses to go, nothing is left of
    the root; when it fails, an entry that could not be removed is still
    there. *)
Theorem Destroy_master_only ModeMaster st :
  let root := path.Clean (path (fst st)) in
  let w1 := snd (Close st) in
  let removal := os.RemoveAll (protected w1) (path (fst st)) (files w1) in
  fst (Destroy ModeMaster st) = fst (Close st) /\
  closed (fst (Destroy ModeMaster st)) = true /\
  (mode (fst st) <> ModeMaster -> Destroy ModeMaster st = Close st) /\
  (mode (fst st) <> ModeMaster -> closed (fst st) = true ->
   Destroy ModeMaster st = st) /\
  (mode (fst st) = ModeMaster ->
   snd (Destroy ModeMaster st) =
     {| files := fst removal;
        log := log w1 ++ Logl LDebug [AStr "master removing directory..."]
               :: match snd removal with
                  | Some err => [Logf LError "failed to remove directory %v : %v"
                                   [AStr (path (fst st)); AErr err]]
                  | None => []
                  end;
        goroutines := goroutines w1;
        protected := protected w1 |} /\
   files (snd (Destroy ModeMaster st)) ⊆ files w1 /\
   (forall k, os.under root k = false ->
      files (snd (Destroy ModeMaster st)) !! k = files w1 !! k) /\
   (snd removal = None ->
      forall k, os.under root k = true ->
        files (snd (Destroy ModeMaster st)) !! k = None) /\
   ((forall k, is_Some (files w1 !! k) -> os.under root k = true ->
       os.unremovable (protected w1) (files w1) k = false) ->
    snd removal = None) /\
   (forall err, snd removal = Some err ->
      exists p x, os.under root p = true /\
        os.unremovable (protected w1) (files w1) p = true /\
        files (snd (Destroy ModeMaster st)) !! p = Some x)).
Proof.
  intros root w1 removal.
  destruct (String.eqb_spec (mode (fst st)) ModeMaster) as [Hm|Hm].
  - pose proof (Destroy_master _ _ Hm) as HD. cbv zeta in HD.
    fold w1 in HD. fold removal in HD. rewrite HD. cbn [fst snd files].
    split; [reflexivity|]. split; [apply Close_fields|].
    split; [congruence|]. split; [congruence|]. intros _.
    split; [reflexivity|].
    split; [apply RemoveAll_subseteq|].
    split; [intros k Hk; apply RemoveAll_outside; exact Hk|].
    split; [intros Hnil k Hk; apply RemoveAll_nil; assumption|].
    split; [apply RemoveAll_free|].
    intros err Herr. destruct (RemoveAll_error _ _ _ _ Herr) as (q & x & H1 & H2 & _ & H4).
    exists q, x. auto.
  - rewrite (Destroy_other _ _ Hm).
    split; [reflexivity|]. split; [apply Close_fields|].
    split; [reflexivity|]. split; [|congruence].
    intros _ Hclosed. destruct st as [ch w]. unfold Close.
    cbn [fst] in Hclosed. rewrite Hclosed. reflexivity.
Qed.

Lemma Destroy_master_only_witness :
  let worker := (Sample.chan "worker" 0 0, Sample.world Sample.fs_locked) in
  let master := (Sample.chan "master" 0 0, Sample.world Pending.fs) in
  let held := (Sample.chan "master" 0 0, Held.world) in
  (mode (fst worker) <> "master" /\ Destroy "master" worker = Close worker /\
   files (snd (Destroy "master" worker)) !! "/var/chan" = Some Dir) /\
  (mode (fst master) = "master" /\
   files (snd (Destroy "master" master)) !! "/var/chan" = None /\
   files (snd (Destroy "master" master)) !! "/var/chan/master-20200101120000-002" = None /\
   files (snd (Destroy "master" master)) !! "/var" = Some Dir) /\
  (mode (fst held) = "master" /\
   exists p x, os.under "/var/chan" p = true /\
     files (snd (Destroy "master" held)) !! p = Some x).
Proof.
  cbv zeta. split; [|split].
  - assert (Hm : mode (fst (Sample.chan "worker" 0 0, Sample.world Sample.fs_locked))
                 <> "master") by (cbn; discriminate).
    split; [exact Hm|].
    pose proof (proj1 (proj2 (proj2 (Destroy_master_only "master"
                  (Sample.chan "worker" 0 0, Sample.world Sample.fs_locked)))) Hm) as H.
    split; [exact H|]. rewrite H. vm_compute. reflexivity.
  - split; [reflexivity|].
    destruct (proj2 (proj2 (proj2 (proj2 (Destroy_master_only "master"
                (Sample.chan "master" 0 0, Sample.world Pending.fs))))) eq_refl)
      as (_ & _ & Hout & Hnil & _).
    assert (Hok : snd (os.RemoveAll
                         (protected (snd (Close (Sample.chan "master" 0 0,
                                                 Sample.world Pending.fs))))
                         (path (fst (Sample.chan "master" 0 0, Sample.world Pending.fs)))
                         (files (snd (Close (Sample.chan "master" 0 0,
                                             Sample.world Pending.fs))))) = None)
      by (vm_compute; reflexivity).
    split; [apply (Hnil Hok); vm_compute; reflexivity|].
    split; [apply (Hnil Hok); vm_compute; reflexivity|].
    rewrite Hout by (vm_compute; reflexivity). vm_compute. reflexivity.
  - split; [reflexivity|].
    destruct (proj2 (proj2 (proj2 (proj2 (Destroy_master_only "master"
                (Sample.chan "master" 0 0, Held.world))))) eq_refl)
      as (_ & _ & _ & _ & _ & Herr).
    destruct (Herr (PathError "unlinkat" Held.message "permission denied")
                ltac:(vm_compute; reflexivity)) as (q & x & Hq & _ & Hx).
    exists q, x. split; assumption.
Defined.

(** ** A send whose relocation fails *)

(** A way to check on a given state that a relocation fails. *)
Lemma relocation_fails_check rawJson ch w :
  let seq := sequenceID (mode ch) (startTime ch) (counter ch) in
  let tmp_filepath := path.Join (tmpPath ch) seq in
  let filepath := path.Join (path ch) seq in
  closed ch = false ->
  snd (ioutil.WriteFile tmp_filepath rawJson (files w)) = None ->
  is_Some (snd (os.Rename tmp_filepath filepath
                  (fst (ioutil.WriteFile tmp_filepath rawJson (files w))))) ->
  relocation_fails rawJson (ch, w).
Proof.
  intros seq tmp_filepath filepath Hopen Hw [err Hr].
  split; [exact Hopen|]. cbn [fst snd]. fold seq. fold tmp_filepath. fold filepath.
  destruct (ioutil.WriteFile tmp_filepath rawJson (files w)) as [fs1 [e|]];
    [discriminate|].
  cbn [fst] in Hr.
  destruct (os.Rename tmp_filepath filepath fs1) as [fs2 r] eqn:HR.
  cbn [snd] in Hr. subst r. exists fs1, fs2, err. split; [reflexivity|exact HR].
Qed.

(** C9 as the specification words it fails: two sends in a row whose
    relocation fails leave a single entry in the staging directory, since
    the second stages under the name of the first. *)
Lemma leftovers_do_not_accumulate :
  ~ leftovers_accumulate ["first"; "second"]
      (Sample.chan "master" 0 0, Sample.world Sample.fs_blocked).
Proof.
  unfold leftovers_accumulate. intros H.
  assert (Hfail : all_relocations_fail ["first"; "second"]
            (Sample.chan "master" 0 0, Sample.world Sample.fs_blocked)).
  { cbn [all_relocations_fail]. split; [|split; [|exact I]].
    - apply relocation_fails_check; [reflexivity|vm_compute; reflexivity|].
      vm_compute. eauto.
    - destruct (Send "first" (Sample.chan "master" 0 0,
                              Sample.world Sample.fs_blocked)) as [[ch1 w1] r] eqn:HS.
      cbn [fst].
      assert (Hch : ch1 = Sample.chan "master" 0 0).
      { pose proof (Send_outcome "first" (Sample.chan "master" 0 0)
                      (Sample.world Sample.fs_blocked)) as [(e & _ & Hc)|(Hn & _)].
        - rewrite HS in Hc. exact Hc.
        - exfalso. revert Hn. vm_compute. discriminate. }
      subst ch1.
      assert (Hw1 : w1 = snd (fst (Send "first" (Sample.chan "master" 0 0,
                                                 Sample.world Sample.fs_blocked))))
        by (rewrite HS; reflexivity).
      apply relocation_fails_check; [reflexivity|rewrite Hw1; vm_compute; reflexivity|].
      rewrite Hw1. vm_compute. eauto. }
  specialize (H Hfail). vm_compute in H. lia.
Qed.

(** C9, amended: when the staging write of [Send] succeeds and the
    relocation fails, the error is returned, the channel is unchanged and
    the only change to the files is the staged file, which stays in the
    staging directory with the payload: nothing is deleted or cleaned.
    The counter not being advanced, the next [Send] of the instance
    stages under the same name, whatever has happened to the files in the
    meantime, and when it succeeds the staged file is moved out and the
    message holds the new payload.  A leftover is also removed with the
    whole tree by the [Destroy] of a master, when the recursive removal
    succeeds. *)
Theorem Send_relocation_failure rawJson ch w fs1 fs2 err :
  let seq := sequenceID (mode ch) (startTime ch) (counter ch) in
  let tmp_filepath := path.Join (tmpPath ch) seq in
  let filepath := path.Join (path ch) seq in
  closed ch = false ->
  ioutil.WriteFile tmp_filepath rawJson (files w) = (fs1, None) ->
  os.Rename tmp_filepath filepath fs1 = (fs2, Some err) ->
  let st' := fst (Send rawJson (ch, w)) in
  snd (Send rawJson (ch, w)) = Some err /\
  fst st' = ch /\
  files (snd st') = <[path.Clean tmp_filepath := File rawJson false]> (files w) /\
  ioutil.ReadFile tmp_filepath (files (snd st')) = inl rawJson /\
  (forall rawJson2 w2,
     snd (Send rawJson2 (fst st', w2)) = None ->
     path.Clean tmp_filepath <> path.Clean filepath ->
     files (snd (fst (Send rawJson2 (fst st', w2)))) !! path.Clean tmp_filepath = None /\
     ioutil.ReadFile filepath (files (snd (fst (Send rawJson2 (fst st', w2)))))
       = inl rawJson2) /\
  (forall ModeMaster,
     mode ch = ModeMaster ->
     os.under (path.Clean (path ch)) (path.Clean tmp_filepath) = true ->
     snd (os.RemoveAll (protected (snd (Close st'))) (path ch)
            (files (snd (Close st')))) = None ->
     files (snd (Destroy ModeMaster st')) !! path.Clean tmp_filepath = None).
Proof.
  intros seq tmp_filepath filepath Hopen Hw Hr st'.
  assert (Hsend : Send rawJson (ch, w) =
            ((ch, add_log (Logf LError "send renaming file encountered error: %v"
                             [AErr err])
                    (set_files (<[path.Clean tmp_filepath := File rawJson false]> (files w)) w)),
             Some err)).
  { unfold Send. rewrite Hopen. fold seq. fold tmp_filepath. fold filepath.
    rewrite Hw, Hr. rewrite (Rename_error _ _ _ _ _ Hr).
    rewrite (WriteFile_ok _ _ _ _ Hw). reflexivity. }
  subst st'. rewrite Hsend. cbn [fst snd files add_log set_files].
  split; [reflexivity|]. split; [reflexivity|]. split; [reflexivity|].
  split; [unfold ioutil.ReadFile; rewrite lookup_insert_eq; reflexivity|].
  split.
  - intros rawJson2 w2 Hnil Hne. revert Hnil. unfold Send. rewrite Hopen.
    fold seq. fold tmp_filepath. fold filepath.
    destruct (ioutil.WriteFile tmp_filepath rawJson2 (files w2)) as [fs3 [e|]] eqn:Hw2;
      [intros H; cbn in H; discriminate|].
    destruct (os.Rename tmp_filepath filepath fs3) as [fs4 [e|]] eqn:Hr2;
      [intros H; cbn in H; discriminate|].
    intros _. cbn [fst snd files set_files].
    destruct (Rename_ok _ _ _ _ Hr2) as (c & l & Hsrc & ->).
    rewrite (WriteFile_ok _ _ _ _ Hw2), lookup_insert_eq in Hsrc.
    injection Hsrc as <- <-. split.
    + rewrite lookup_insert_ne by congruence. apply lookup_delete_eq.
    + unfold ioutil.ReadFile. rewrite lookup_insert_eq. reflexivity.
  - intros ModeMaster Hm Hu Hnil.
    set (st1 := (ch, add_log (Logf LError "send renaming file encountered error: %v"
                                [AErr err])
                       (set_files (<[path.Clean tmp_filepath := File rawJson false]>
                                     (files w)) w))) in *.
    pose proof (Destroy_master ModeMaster st1 Hm) as HD. cbv zeta in HD.
    rewrite HD. cbn [fst snd files].
    apply RemoveAll_nil; assumption.
Qed.

Lemma Send_relocation_failure_witness :
  let ch := Sample.chan "master" 0 0 in
  let w := Sample.world Sample.fs_blocked in
  let tmp_filepath := "/var/chan/tmp/master-20200101120000-000" in
  let filepath := "/var/chan/master-20200101120000-000" in
  let err := LinkError "rename" tmp_filepath filepath "file exists" in
  let st' := fst (Send "ping" (ch, w)) in
  let unblocked := Sample.world (delete filepath (files (snd st'))) in
  closed ch = false /\
  snd (Send "ping" (ch, w)) = Some err /\
  ioutil.ReadFile tmp_filepath (files (snd st')) = inl "ping" /\
  (snd (Send "pong" (fst st', unblocked)) = None /\
   files (snd (fst (Send "pong" (fst st', unblocked)))) !! tmp_filepath = None /\
   ioutil.ReadFile filepath (files (snd (fst (Send "pong" (fst st', unblocked)))))
     = inl "pong") /\
  files (snd (Destroy "master" st')) !! tmp_filepath = None.
Proof.
  cbv zeta. split; [reflexivity|].
  destruct (ioutil.WriteFile
              (path.Join (tmpPath (Sample.chan "master" 0 0))
                 (sequenceID "master" "20200101120000" 0))
              "ping" (files (Sample.world Sample.fs_blocked))) as [fs1 r1] eqn:Hw.
  assert (Hr1 : r1 = None).
  { change r1 with (snd (fs1, r1)). rewrite <- Hw. vm_compute. reflexivity. }
  subst r1.
  destruct (os.Rename
              (path.Join (tmpPath (Sample.chan "master" 0 0))
                 (sequenceID "master" "20200101120000" 0))
              (path.Join (path (Sample.chan "master" 0 0))
                 (sequenceID "master" "20200101120000" 0))
              fs1) as [fs2 r2] eqn:Hr.
  assert (Hr2 : r2 = Some (LinkError "rename" "/var/chan/tmp/master-20200101120000-000"
                             "/var/chan/master-20200101120000-000" "file exists")).
  { change r2 with (snd (fs2, r2)). rewrite <- Hr.
    rewrite (WriteFile_ok _ _ _ _ Hw). vm_compute. reflexivity. }
  subst r2.
  destruct (Send_relocation_failure "ping" (Sample.chan "master" 0 0)
              (Sample.world Sample.fs_blocked) fs1 fs2 _ eq_refl Hw Hr)
    as (H1 & _ & _ & H4 & H5 & H6).
  split; [exact H1|]. split; [exact H4|]. split.
  - match goal with
    | |- snd (Send "pong" ?st2) = None /\ _ =>
        assert (Hnil : snd (Send "pong" st2) = None) by (vm_compute; reflexivity)
    end.
    split; [exact Hnil|].
    exact (H5 "pong" _ Hnil ltac:(vm_compute; discriminate)).
  - exact (H6 "master" eq_refl ltac:(vm_compute; reflexivity)
             ltac:(vm_compute; reflexivity)).
Defined.

(** ** The watch loop *)

Lemma ReadDir_sorted dirname fs :
  StronglySorted String.le (fst (ioutil.ReadDir dirname fs)).
Proof.
  unfold ioutil.ReadDir.
  destruct (fs !! path.Clean dirname) as [[c l|]|]; cbn [fst]; try constructor.
  apply StronglySorted_merge_sort; apply _.
Qed.

Lemma ReadDir_entries dirname fs name :
  fs !! path.Clean dirname = Some Dir ->
  name ∈ fst (ioutil.ReadDir dirname fs) <->
  exists k x, fs !! k = Some x /\ os.child_name (path.Clean dirname) k = Some name.
Proof.
  intros Hdir. unfold ioutil.ReadDir. rewrite Hdir. cbn [fst].
  rewrite merge_sort_Permutation. unfold os.children.
  rewrite list_elem_of_omap. split.
  - intros (k & Hk & Hc). apply list_elem_of_fmap in Hk as ([k' x] & -> & Hkx).
    apply elem_of_map_to_list in Hkx. eauto.
  - intros (k & x & Hk & Hc). exists k. split; [|assumption].
    apply list_elem_of_fmap. exists (k, x). split; [reflexivity|].
    apply elem_of_map_to_list. assumption.
Qed.

(** The loop goes on after every message but the closing of the event
    stream. *)
Lemma watch_step_continues msg st :
  msg <> EventsClosed -> snd (watch_step msg st) = true.
Proof.
  intros Hmsg. destruct st as [ch w]. destruct msg as [event| |[err|]];
    [|contradiction|reflexivity..].
  unfold watch_step.
  destruct (N.eqb _ _ && isReadable ch (fsnotify.Name event)); [|reflexivity].
  destruct (parseSequenceCounter (fsnotify.Name event) =? recvCounter ch); reflexivity.
Qed.

Lemma watch_loop_cons msg msgs st :
  msg <> EventsClosed ->
  watch_loop (msg :: msgs) st = watch_loop msgs (fst (watch_step msg st)).
Proof.
  intros Hmsg. cbn [watch_loop]. pose proof (watch_step_continues msg st Hmsg) as H.
  destruct (watch_step msg st) as [st' c]. cbn in H |- *. rewrite H. reflexivity.
Qed.

Lemma watch_loop_app pre : forall rest st,
  Forall (fun msg => msg <> EventsClosed) pre ->
  watch_loop (pre ++ rest) st = watch_loop rest (watch_loop pre st).
Proof.
  induction pre as [|msg pre IH]; intros rest st Hpre; [reflexivity|].
  inversion Hpre as [|? ? Hmsg Hrest]; subst.
  rewrite <- app_comm_cons, !(watch_loop_cons _ _ _ Hmsg). apply IH, Hrest.
Qed.

(** C1: when a creation event whose name qualifies reaches the watch
    loop, the loop consumes exactly that file if the counter parsed from
    the name equals [recvCounter], runs the reconciliation pass
    otherwise, and goes on with the next message.  The pass lists the
    channel directory, the listing being sorted by name and holding
    exactly the entries of the directory, keeps the names that qualify
    and consumes them in that order.  The same pass is the first thing
    the watcher does when it starts, before it enters the loop, and
    [Close] on an open channel runs it right after marking the channel
    closed, before it returns. *)
Theorem watch_reconciliation :
  (forall pre event post st,
     Forall (fun msg => msg <> EventsClosed) pre ->
     N.land (fsnotify.EvOp event) fsnotify.Create = fsnotify.Create ->
     let ch := fst (watch_loop pre st) in
     let w1 := add_log (Logl LDebug [AStr "received event: "; AEvent event])
                 (snd (watch_loop pre st)) in
     isReadable ch (fsnotify.Name event) = true ->
     watch_loop (pre ++ EventMsg event :: post) st =
       watch_loop post
         (if parseSequenceCounter (fsnotify.Name event) =? recvCounter ch
          then consume (fsnotify.Name event) (ch, w1)
          else consumeAll
                 (ch, add_log (Logl LDebug
                        [AStr "received out-of-order file update, polling the dir to reorder"])
                        w1))) /\
  (forall ch w,
     let names := fst (ioutil.ReadDir (path ch) (files w)) in
     StronglySorted String.le names /\
     (files w !! path.Clean (path ch) = Some Dir ->
      forall name, name ∈ names <->
        exists k x, files w !! k = Some x /\
                    os.child_name (path.Clean (path ch)) k = Some name) /\
     consumeAll (ch, w) =
       fold_left (fun st p => consume p st)
         (map (path.Join (path ch)) (List.filter (isReadable ch) names))
         (ch, add_log (Logl LDebug [AStr "consuming all the messages under: ";
                                    AStr (path ch)]) w)) /\
  (forall msgs ch w,
     watch [] (ch, w) =
       consumeAll (ch, add_log (Logf LDebug "%v listener started on path: %v"
                                  [AStr (mode ch); AStr (path ch)]) w) /\
     watch msgs (ch, w) = watch_loop msgs (watch [] (ch, w))) /\
  (forall ch w,
     closed ch = false ->
     let drained :=
       consumeAll (set_closed true ch,
                   add_log (Logf LInfo "channel %v requested close" [AStr (path ch)]) w) in
     Close (ch, w) =
       (fst drained, spawn (TeardownWatcher (path (fst drained))) (snd drained))).
Proof.
  split; [|split; [|split]].
  - intros pre event post st Hpre Hcreate ch w1 Hread.
    rewrite (watch_loop_app pre _ st Hpre).
    rewrite watch_loop_cons by discriminate. f_equal.
    subst ch w1. destruct (watch_loop pre st) as [ch w]. cbn [fst snd] in *.
    unfold watch_step. rewrite Hcreate, N.eqb_refl, Hread. cbn [andb].
    destruct (parseSequenceCounter (fsnotify.Name event) =? recvCounter ch); reflexivity.
  - intros ch w names. split; [apply ReadDir_sorted|]. split.
    + intros Hdir name. apply ReadDir_entries. assumption.
    + apply consumeAll_unfold.
  - intros msgs ch w. split; reflexivity.
  - intros ch w Hopen drained. unfold Close. rewrite Hopen. fold drained.
    destruct drained as [ch1 w1]. reflexivity.
Qed.

Lemma watch_reconciliation_witness :
  let ch := Sample.chan "worker" 0 2 in
  let w := Sample.world Pending.fs in
  let first := EventMsg (Pending.created "002") in
  (N.land (fsnotify.EvOp (Pending.created "005")) fsnotify.Create = fsnotify.Create /\
   isReadable ch (fsnotify.Name (Pending.created "005")) = true /\
   Forall (fun msg => msg <> EventsClosed) [first]) /\
  (onMessageChan (fst (watch_loop [EventMsg (Pending.created "005")] (ch, w)))
     = ["m2"; "m3"; "m4"; "m5"] /\
   onMessageChan (fst (watch_loop [first; EventMsg (Pending.created "003")] (ch, w)))
     = ["m2"; "m3"] /\
   files (snd (watch_loop [first; EventMsg (Pending.created "003")] (ch, w)))
     !! "/var/chan/master-20200101120000-004" = Some (File "m4" false)) /\
  (closed ch = false /\
   onMessageChan (fst (Close (ch, w))) = ["m2"; "m3"; "m4"; "m5"]).
Proof.
  cbv zeta.
  destruct watch_reconciliation as (Hevent & _ & _ & Hclose).
  assert (Hpre : Forall (fun msg => msg <> EventsClosed)
                   [EventMsg (Pending.created "002")])
    by (repeat constructor; discriminate).
  split; [split; [reflexivity|split; [reflexivity|exact Hpre]]|]. split; [split; [|split]|].
  - pose proof (Hevent [] (Pending.created "005") []
                  (Sample.chan "worker" 0 2, Sample.world Pending.fs)
                  (List.Forall_nil _) eq_refl eq_refl) as H.
    cbn [app] in H. rewrite H. vm_compute. reflexivity.
  - pose proof (Hevent [EventMsg (Pending.created "002")] (Pending.created "003") []
                  (Sample.chan "worker" 0 2, Sample.world Pending.fs)
                  Hpre eq_refl ltac:(vm_compute; reflexivity)) as H.
    cbn [app] in H. rewrite H. vm_compute. reflexivity.
  - pose proof (Hevent [EventMsg (Pending.created "002")] (Pending.created "003") []
                  (Sample.chan "worker" 0 2, Sample.world Pending.fs)
                  Hpre eq_refl ltac:(vm_compute; reflexivity)) as H.
    cbn [app] in H. rewrite H. vm_compute. reflexivity.
  - split; [reflexivity|].
    rewrite (Hclose (Sample.chan "worker" 0 2) (Sample.world Pending.fs) eq_refl).
    vm_compute. reflexivity.
Defined.

(** ** The receive cursor *)

Lemma digit_val_range c : strconv.is_digit c = true -> 0 <= strconv.digit_val c <= 9.
Proof.
  destruct c as [[] [] [] [] [] [] [] []]; vm_compute; intros H;
    first [discriminate H | split; discriminate].
Qed.

Lemma parse_digits_nonneg s : forall acc un,
  0 <= acc -> strconv.parse_digits acc s = Some un -> 0 <= un.
Proof.
  induction s as [|c s IH]; cbn [strconv.parse_digits]; intros acc un Hacc Hp.
  - injection Hp as <-. assumption.
  - destruct (strconv.is_digit c) eqn:Hd; [|discriminate].
    pose proof (digit_val_range c Hd). eapply IH; [|exact Hp]. lia.
Qed.

Lemma ParseInt_range s z :
  strconv.ParseInt s = inl z -> min_int64 <= z <= max_int64.
Proof.
  unfold strconv.ParseInt. destruct s as [|c rest]; [discriminate|]. cbv zeta.
  match goal with
  | |- context [match ?b with EmptyString => _ | String _ _ => _ end] =>
      destruct b as [|c' body']; [discriminate|]
  end.
  destruct (strconv.parse_digits 0 (String c' body')) as [un|] eqn:Hd; [|discriminate].
  assert (Hun : 0 <= un) by (eapply parse_digits_nonneg; [|exact Hd]; lia).
  unfold min_int64, max_int64.
  destruct (Ascii.eqb c "-").
  - destruct (2 ^ 63 <? un) eqn:Hlt; [discriminate|]. intros [= <-].
    apply Z.ltb_ge in Hlt. lia.
  - destruct (2 ^ 63 - 1 <? un) eqn:Hlt; [discriminate|]. intros [= <-].
    apply Z.ltb_ge in Hlt. lia.
Qed.

Lemma parseSequenceCounter_range filepath :
  min_int64 <= parseSequenceCounter filepath <= max_int64.
Proof.
  unfold parseSequenceCounter.
  destruct (strconv.ParseInt _) as [z|e] eqn:Hp.
  - exact (ParseInt_range _ _ Hp).
  - unfold min_int64, max_int64. lia.
Qed.

Lemma ReadFile_ok filename fs buf :
  ioutil.ReadFile filename fs = inl buf ->
  fs !! path.Clean filename = Some (File buf false).
Proof.
  unfold ioutil.ReadFile.
  destruct (fs !! path.Clean filename) as [[c [|]|]|]; try discriminate.
  intros [= <-]. reflexivity.
Qed.

(** The removal of a file that has just been read. *)
Lemma Remove_read protected filename fs buf :
  ioutil.ReadFile filename fs = inl buf ->
  os.Remove protected filename fs =
    if bool_decide (path.Clean filename ∈ protected)
    then (fs, Some (PathError "remove" filename "permission denied"))
    else (delete (path.Clean filename) fs, None).
Proof. intros Hread. apply (Remove_file _ _ _ buf), ReadFile_ok, Hread. Qed.

Lemma consume_read_ok filepath ch w buf :
  ioutil.ReadFile filepath (files w) = inl buf ->
  consume filepath (ch, w) =
    (push buf (set_recvCounter (wrap_int (parseSequenceCounter filepath + 1)) ch),
     set_files (fst (os.Remove (protected w) filepath (files w)))
       (add_log (Logf LDebug "consuming message under path: %v" [AStr filepath]) w)).
Proof.
  intros Hread. unfold consume. cbn [files protected add_log]. rewrite Hread.
  reflexivity.
Qed.

(** The files after a read that succeeded: the file is gone unless the
    system refused to remove it. *)
Lemma consume_read_files filepath ch w buf :
  ioutil.ReadFile filepath (files w) = inl buf ->
  files (snd (consume filepath (ch, w))) =
    if bool_decide (path.Clean filepath ∈ protected w) then files w
    else delete (path.Clean filepath) (files w).
Proof.
  intros Hread. rewrite (consume_read_ok _ _ _ _ Hread).
  cbn [snd files set_files]. rewrite (Remove_read _ _ _ _ Hread).
  destruct (bool_decide _); reflexivity.
Qed.

(** After a run of [consume] the cursor is the old one or comes from one
    of the files that were read. *)
Lemma consume_list_recvCounter paths : forall st,
  let st' := fold_left (fun st p => consume p st) paths st in
  recvCounter (fst st') = recvCounter (fst st) \/
  exists p, In p paths /\
    recvCounter (fst st') = wrap_int (parseSequenceCounter p + 1).
Proof.
  induction paths as [|p paths IH]; intros st; cbn [fold_left]; [left; reflexivity|].
  cbn zeta. destruct (IH (consume p st)) as [H|(q & Hq & H)].
  - rewrite H. destruct st as [ch w].
    destruct (ioutil.ReadFile p (files w)) as [buf|err] eqn:Hread.
    + right. exists p. split; [left; reflexivity|].
      rewrite (consume_read_ok _ _ _ _ Hread). reflexivity.
    + left. rewrite (consume_read_error p ch w err Hread). reflexivity.
  - right. exists q. split; [right; assumption|assumption].
Qed.

(** C4 as the specification words it fails: when the first message of a
    restarted peer arrives, its counter 0 differs from the cursor 7, the
    watcher runs the reconciliation pass, consumes the message, and the
    cursor goes back from 7 to 1. *)
Lemma recvCounter_can_decrease :
  ~ recvCounter_never_decreases (OpWatchMsg (EventMsg Restart.created)) Restart.st.
Proof.
  unfold recvCounter_never_decreases.
  assert (H : recvCounter (fst (run_op (OpWatchMsg (EventMsg Restart.created))
                                  Restart.st)) = 1) by (vm_compute; reflexivity).
  rewrite H. cbn. lia.
Qed.

(** C4, amended: [recvCounter] changes only when [consume] has read a
    file: a failed read leaves the channel as it is, and after a
    successful read the payload has been pushed and [recvCounter] is the
    counter parsed from the name plus one, whether or not the file could
    be removed: the error of the removal is dropped, so the file is gone
    when the removal succeeded and still there when it failed.  The new
    cursor is an increase whenever the parsed counter is not below the
    old [recvCounter]; [Send] never changes [recvCounter], and after a
    reconciliation pass it is the old value or the parsed counter plus
    one of a file of the listing. *)
Theorem recvCounter_updates filepath ch w :
  (forall err, ioutil.ReadFile filepath (files w) = inr err ->
     fst (consume filepath (ch, w)) = ch) /\
  (forall buf, ioutil.ReadFile filepath (files w) = inl buf ->
     recvCounter (fst (consume filepath (ch, w)))
       = wrap_int (parseSequenceCounter filepath + 1) /\
     onMessageChan (fst (consume filepath (ch, w))) = onMessageChan ch ++ [buf] /\
     files (snd (consume filepath (ch, w)))
       = fst (os.Remove (protected w) filepath (files w)) /\
     (snd (os.Remove (protected w) filepath (files w)) = None ->
      files (snd (consume filepath (ch, w))) = delete (path.Clean filepath) (files w)) /\
     (forall err, snd (os.Remove (protected w) filepath (files w)) = Some err ->
      files (snd (consume filepath (ch, w))) = files w) /\
     (recvCounter ch <= parseSequenceCounter filepath < max_int64 ->
      recvCounter ch < recvCounter (fst (consume filepath (ch, w))))) /\
  (forall rawJson,
     recvCounter (fst (fst (Send rawJson (ch, w)))) = recvCounter ch) /\
  (recvCounter (fst (consumeAll (ch, w))) = recvCounter ch \/
   exists name, In name (fst (ioutil.ReadDir (path ch) (files w))) /\
     recvCounter (fst (consumeAll (ch, w)))
       = wrap_int (parseSequenceCounter (path.Join (path ch) name) + 1)).
Proof.
  split; [|split; [|split]].
  - intros err Hread. rewrite (consume_read_error _ _ _ _ Hread). reflexivity.
  - intros buf Hread. rewrite (consume_read_ok _ _ _ _ Hread).
    cbn [fst snd recvCounter push set_recvCounter files set_files add_log onMessageChan].
    split; [reflexivity|]. split; [reflexivity|]. split; [reflexivity|].
    split; [apply Remove_ok|]. split; [apply Remove_error|]. intros Hle.
    pose proof (parseSequenceCounter_range filepath) as Hparse.
    rewrite wrap_int_id; unfold min_int64, max_int64 in *; lia.
  - intros rawJson.
    destruct (Send_outcome rawJson ch w) as [(e & _ & ->)|(_ & ->)]; reflexivity.
  - rewrite consumeAll_unfold.
    destruct (consume_list_recvCounter
                (map (path.Join (path ch))
                   (List.filter (isReadable ch) (fst (ioutil.ReadDir (path ch) (files w)))))
                (ch, add_log (Logl LDebug [AStr "consuming all the messages under: ";
                                           AStr (path ch)]) w)) as [H|(p & Hp & H)].
    + left. exact H.
    + right. apply in_map_iff in Hp as (name & <- & Hin).
      apply filter_In in Hin as [Hin _]. exists name. split; assumption.
Qed.

Lemma recvCounter_updates_witness :
  let f := "/var/chan/master-20200101120000-002" in
  let ch := Sample.chan "worker" 0 2 in
  let w := Sample.world Pending.fs in
  let ch0 := Sample.chan "worker" 0 0 in
  (ioutil.ReadFile f (files w) = inl "m2" /\
   snd (os.Remove (protected w) f (files w)) = None /\
   recvCounter ch <= parseSequenceCounter f < max_int64 /\
   recvCounter (fst (consume f (ch, w))) = 3 /\
   files (snd (consume f (ch, w))) !! f = None /\
   recvCounter ch < recvCounter (fst (consume f (ch, w)))) /\
  (ioutil.ReadFile Held.message (files Held.world) = inl "ping" /\
   snd (os.Remove (protected Held.world) Held.message (files Held.world))
     = Some (PathError "remove" Held.message "permission denied") /\
   recvCounter (fst (consume Held.message (ch0, Held.world))) = 1 /\
   files (snd (consume Held.message (ch0, Held.world))) = files Held.world).
Proof.
  cbv zeta. split.
  - assert (Hread : ioutil.ReadFile "/var/chan/master-20200101120000-002"
                      (files (Sample.world Pending.fs)) = inl "m2")
      by (vm_compute; reflexivity).
    assert (Hrm : snd (os.Remove (protected (Sample.world Pending.fs))
                         "/var/chan/master-20200101120000-002"
                         (files (Sample.world Pending.fs))) = None)
      by (vm_compute; reflexivity).
    assert (Hle : recvCounter (Sample.chan "worker" 0 2)
                  <= parseSequenceCounter "/var/chan/master-20200101120000-002"
                  < max_int64)
      by (vm_compute; split; [discriminate|reflexivity]).
    destruct (recvCounter_updates "/var/chan/master-20200101120000-002"
                (Sample.chan "worker" 0 2) (Sample.world Pending.fs))
      as (_ & Hok & _).
    destruct (Hok "m2" Hread) as (H1 & _ & _ & H4 & _ & H6).
    split; [exact Hread|]. split; [exact Hrm|]. split; [exact Hle|].
    split; [rewrite H1; vm_compute; reflexivity|].
    split; [rewrite (H4 Hrm); apply lookup_delete_eq|].
    exact (H6 Hle).
  - assert (Hread : ioutil.ReadFile Held.message (files Held.world) = inl "ping")
      by (vm_compute; reflexivity).
    assert (Hrm : snd (os.Remove (protected Held.world) Held.message (files Held.world))
                  = Some (PathError "remove" Held.message "permission denied"))
      by (vm_compute; reflexivity).
    destruct (recvCounter_updates Held.message (Sample.chan "worker" 0 0) Held.world)
      as (_ & Hok & _).
    destruct (Hok "ping" Hread) as (H1 & _ & _ & _ & H5 & _).
    split; [exact Hread|]. split; [exact Hrm|].
    split; [rewrite H1; vm_compute; reflexivity|].
    exact (H5 _ Hrm).
Defined.

(** ** The process lookup *)

Lemma scan_cons pid startTime row rest :
  proc.scan pid startTime (row :: rest) =
  if Table.row_matches pid startTime row then (true, None)
  else match Table.row_unparsable row with
       | Some e => (false, Some e)
       | None => proc.scan pid startTime rest
       end.
Proof.
  cbn [proc.scan]. unfold Table.row_matches, Table.row_unparsable.
  destruct (strings.Fields row) as [|p [|t [|x parts]]]; cbn [List.length Nat.eqb negb nth];
    try reflexivity.
  destruct (strconv.ParseInt p) as [n|e]; [|reflexivity].
  destruct ((pid =? n) && String.eqb startTime t); reflexivity.
Qed.

Lemma scan_skips pid startTime row rest :
  List.length (strings.Fields row) <> 2%nat ->
  proc.scan pid startTime (row :: rest) = proc.scan pid startTime rest.
Proof.
  intros Hlen. cbn [proc.scan].
  destruct (Nat.eqb_spec (List.length (strings.Fields row)) 2); [contradiction|reflexivity].
Qed.

(** Case analysis on where the distinguished row of [pre ++ row :: post]
    sits in [r :: rows]. *)
Ltac first_row H pre :=
  destruct pre as [|? pre]; cbn in H; injection H as <- ->.

Lemma scan_found pid startTime rows :
  proc.scan pid startTime rows = (true, None) <->
  exists pre row post, rows = pre ++ row :: post /\
    Table.row_matches pid startTime row = true /\
    Forall (fun r => Table.row_unparsable r = None) pre.
Proof.
  induction rows as [|r rows IH].
  - cbn. split; [discriminate|]. intros (pre & row & post & H & _).
    destruct pre; discriminate.
  - rewrite scan_cons. destruct (Table.row_matches pid startTime r) eqn:Hm.
    + split; [|reflexivity]. intros _. exists [], r, rows. auto.
    + destruct (Table.row_unparsable r) as [e|] eqn:Hb.
      * split; [discriminate|]. intros (pre & row & post & H & Hrow & Hpre).
        first_row H pre.
        -- congruence.
        -- inversion Hpre; congruence.
      * rewrite IH. split.
        -- intros (pre & row & post & -> & Hrow & Hpre).
           exists (r :: pre), row, post. auto.
        -- intros (pre & row & post & H & Hrow & Hpre).
           first_row H pre.
           ++ congruence.
           ++ inversion Hpre; subst. eauto 6.
Qed.

Lemma scan_error pid startTime rows e :
  proc.scan pid startTime rows = (false, Some e) <->
  exists pre row post, rows = pre ++ row :: post /\
    Table.row_unparsable row = Some e /\
    Forall (Table.row_passed pid startTime) pre.
Proof.
  induction rows as [|r rows IH].
  - cbn. split; [discriminate|]. intros (pre & row & post & H & _).
    destruct pre; discriminate.
  - rewrite scan_cons. destruct (Table.row_matches pid startTime r) eqn:Hm.
    + split; [discriminate|]. intros (pre & row & post & H & Hrow & Hpre).
      first_row H pre.
      * unfold Table.row_matches in Hm. unfold Table.row_unparsable in Hrow.
        destruct (strings.Fields r) as [|p [|t [|x parts]]]; try discriminate.
        destruct (strconv.ParseInt p); discriminate.
      * inversion Hpre as [|? ? [Hx _] ?]; subst. congruence.
    + destruct (Table.row_unparsable r) as [e'|] eqn:Hb.
      * split.
        -- intros [= ->]. exists [], r, rows. auto.
        -- intros (pre & row & post & H & Hrow & Hpre).
           first_row H pre.
           ++ congruence.
           ++ inversion Hpre as [|? ? [_ Hx] ?]; subst. congruence.
      * rewrite IH. split.
        -- intros (pre & row & post & -> & Hrow & Hpre).
           exists (r :: pre), row, post. repeat split; auto.
           constructor; [split; assumption|assumption].
        -- intros (pre & row & post & H & Hrow & Hpre).
           first_row H pre.
           ++ congruence.
           ++ inversion Hpre; subst. eauto 6.
Qed.

Lemma scan_absent pid startTime rows :
  proc.scan pid startTime rows = (false, None) <->
  Forall (Table.row_passed pid startTime) rows.
Proof.
  induction rows as [|r rows IH].
  - cbn. split; [constructor|reflexivity].
  - rewrite scan_cons. destruct (Table.row_matches pid startTime r) eqn:Hm.
    + split; [discriminate|]. intros H. inversion H as [|? ? [Hx _] ?]; subst. congruence.
    + destruct (Table.row_unparsable r) as [e'|] eqn:Hb.
      * split; [discriminate|]. intros H.
        inversion H as [|? ? [_ Hx] ?]; subst. congruence.
      * rewrite IH. split.
        -- intros H. constructor; [split; assumption|assumption].
        -- intros H. inversion H; assumption.
Qed.

(** C7 as the specification words it fails: process 42 is in the table
    with the expected start time, but a two-field line whose first field
    is not a number comes first, and the lookup answers false with the
    parse error. *)
Lemma find_process_not_as_specified :
  ~ Table.as_specified (Table.garbled, None) 42 "10:00:01".
Proof.
  intros (Hiff & _). 
  assert (Hfalse : fst (proc.find_process (Table.garbled, None) 42 "10:00:01") = false)
    by (vm_compute; reflexivity).
  rewrite Hfalse in Hiff. destruct Hiff as [_ Hback].
  enough (false = true) by discriminate. apply Hback.
  exists "   42 10:00:01". split; [|vm_compute; reflexivity].
  vm_compute. auto.
Qed.

(** C7, amended: when the listing fails the lookup returns false with
    that error.  Otherwise the rows after the header are examined in
    order, rows whose field count is not two being skipped: the lookup
    returns true exactly when some row has a pid equal to the queried one
    and a start-time token string-equal to the expected one and no row
    before it has a pid field that fails to parse; it returns false with
    an error exactly when the first row that matches or fails to parse is
    one that fails to parse, the error being that parse error; it returns
    false without error exactly when no row matches and none fails to
    parse. *)
Theorem find_process_lookup pid startTime output :
  (forall e, proc.find_process (output, Some e) pid startTime = (false, Some e)) /\
  (proc.find_process (output, None) pid startTime = (true, None) <->
   exists pre row post, Table.rows output = pre ++ row :: post /\
     Table.row_matches pid startTime row = true /\
     Forall (fun r => Table.row_unparsable r = None) pre) /\
  (forall e, proc.find_process (output, None) pid startTime = (false, Some e) <->
   exists pre row post, Table.rows output = pre ++ row :: post /\
     Table.row_unparsable row = Some e /\
     Forall (Table.row_passed pid startTime) pre) /\
  (proc.find_process (output, None) pid startTime = (false, None) <->
   Forall (Table.row_passed pid startTime) (Table.rows output)) /\
  (forall row rest, List.length (strings.Fields row) <> 2%nat ->
     proc.scan pid startTime (row :: rest) = proc.scan pid startTime rest) /\
  (forall ps e, proc.find_process ps pid startTime <> (true, Some e)).
Proof.
  split; [reflexivity|]. split; [apply scan_found|]. split; [intros e; apply scan_error|].
  split; [apply scan_absent|]. split; [intros row rest; apply scan_skips|].
  intros [out [e'|]] e; cbn [proc.find_process]; [discriminate|].
  fold (Table.rows out).
  induction (Table.rows out) as [|r rows IH]; [discriminate|].
  rewrite scan_cons. destruct (Table.row_matches pid startTime r); [discriminate|].
  destruct (Table.row_unparsable r); [discriminate|exact IH].
Qed.

Lemma find_process_lookup_witness :
  proc.find_process ("  PID  STARTED" +:+ LF +:+ "    1 09:00:00" +:+ LF +:+
                     "malformed row here" +:+ LF +:+ "   42 10:00:01" +:+ LF, None)
    42 "10:00:01" = (true, None) /\
  proc.find_process (Table.garbled, None) 7 "10:00:01"
    = (false, Some (strconv.syntaxError "n/a")).
Proof.
  split.
  - apply (proj1 (proj2 (find_process_lookup 42 "10:00:01" _))).
    exists ["    1 09:00:00"; "malformed row here"], "   42 10:00:01", [""].
    split; [vm_compute; reflexivity|]. split; [vm_compute; reflexivity|].
    repeat constructor.
  - apply (proj1 (proj2 (proj2 (find_process_lookup 7 "10:00:01" _)))).
    exists ["    1 09:00:00"], "  n/a 09:30:00", ["   42 10:00:01"; ""].
    split; [vm_compute; reflexivity|]. split; [vm_compute; reflexivity|].
    repeat constructor.
Defined.

(** ** The order of the sequence names *)

Lemma append_cons x (a b : string) : String x a +:+ b = String x (a +:+ b).
Proof. reflexivity. Qed.

Lemma append_empty_l (a : string) : "" +:+ a = a.
Proof. reflexivity. Qed.

Lemma ascii_compare_refl c : Ascii.compare c c = Eq.
Proof. unfold Ascii.compare. apply N.compare_refl. Qed.

Lemma compare_common_prefix p a b :
  String.compare (p +:+ a) (p +:+ b) = String.compare a b.
Proof.
  induction p as [|c p IH]; [reflexivity|].
  rewrite !append_cons. cbn [String.compare].
  rewrite ascii_compare_refl. exact IH.
Qed.

Lemma sequenceID_compare m start a b :
  String.compare (sequenceID m start a) (sequenceID m start b) =
  String.compare (fmt.Sprintf_03d a) (fmt.Sprintf_03d b).
Proof.
  unfold sequenceID.
  rewrite !compare_common_prefix. reflexivity.
Qed.

Lemma string_lt_trans a b c :
  String.compare a b = Lt -> String.compare b c = Lt -> String.compare a c = Lt.
Proof.
  intros Hab Hbc.
  assert (Hle : String.le a c).
  { transitivity b; unfold String.le, String.leb; [rewrite Hab|rewrite Hbc]; exact I. }
  unfold String.le, String.leb in Hle.
  destruct (String.compare a c) eqn:Hac; [|reflexivity|contradiction].
  apply String.compare_eq_iff in Hac. subst c.
  rewrite String.compare_antisym in Hbc. rewrite Hab in Hbc. discriminate.
Qed.

Lemma Sprintf_03d_next n :
  0 <= n < 999 ->
  String.compare (fmt.Sprintf_03d n) (fmt.Sprintf_03d (n + 1)) = Lt.
Proof.
  intros Hn.
  assert (Hall : forallb
            (fun k => match String.compare (fmt.Sprintf_03d (Z.of_nat k))
                              (fmt.Sprintf_03d (Z.of_nat k + 1)) with
                      | Lt => true
                      | _ => false
                      end) (seq 0 999) = true) by (vm_compute; reflexivity).
  rewrite forallb_forall in Hall.
  specialize (Hall (Z.to_nat n)). rewrite Z2Nat.id in Hall by lia.
  destruct (String.compare _ _); try reflexivity;
    (enough (false = true) by discriminate; apply Hall; apply in_seq; lia).
Qed.

(** Up to counter 999 the names of one instance are in the order of the
    counters. *)
Lemma sequenceID_ordered_below_1000 m start a b :
  0 <= a -> a < b -> b <= 999 ->
  String.compare (sequenceID m start a) (sequenceID m start b) = Lt.
Proof.
  intros Ha Hab Hb. rewrite sequenceID_compare.
  replace b with (a + 1 + Z.of_nat (Z.to_nat (b - a - 1))) in * by lia.
  induction (Z.to_nat (b - a - 1)) as [|k IH].
  - rewrite Z.add_0_r. apply Sprintf_03d_next. lia.
  - apply string_lt_trans with (fmt.Sprintf_03d (a + 1 + Z.of_nat k)).
    + apply IH; lia.
    + replace (a + 1 + Z.of_nat (S k)) with (a + 1 + Z.of_nat k + 1) by lia.
      apply Sprintf_03d_next. lia.
Qed.

(** C2 fails on the code at counter 1000: the counter is padded to three
    digits at least, not to a fixed width, so for every mode and start
    time the name of message 1000 sorts before the name of message 999,
    the listing of the directory returns them in that order, and the
    reconciliation pass delivers message 1000 first. *)
Theorem sequenceID_order_breaks_at_1000 :
  (forall m start,
     String.compare (sequenceID m start 1000) (sequenceID m start 999) = Lt) /\
  sequenceID "master" "20200101120000" 999 = "master-20200101120000-999" /\
  sequenceID "master" "20200101120000" 1000 = "master-20200101120000-1000" /\
  List.filter (isReadable (Sample.chan "worker" 0 999))
    (fst (ioutil.ReadDir Sample.root Thousand.fs))
    = ["master-20200101120000-1000"; "master-20200101120000-999"] /\
  onMessageChan (fst (consumeAll (Sample.chan "worker" 0 999,
                                  Sample.world Thousand.fs)))
    = ["m1000"; "m999"].
Proof.
  split; [|vm_compute; auto].
  intros m start. rewrite sequenceID_compare. vm_compute. reflexivity.
Qed.

(** ** The regular-expression matcher *)

Lemma append_eq_empty (a b : string) : a +:+ b = "" -> a = "" /\ b = "".
Proof. destruct a; [auto|discriminate]. Qed.

Lemma append_eq_cons (a b : string) c s :
  a +:+ b = String c s ->
  (a = "" /\ b = String c s) \/ (exists a', a = String c a' /\ s = a' +:+ b).
Proof.
  destruct a as [|x a]; [left; auto|].
  rewrite append_cons. intros [= -> <-]. right. eauto.
Qed.

Lemma Matches_void_inv s : ~ Matches regexp.Void s.
Proof. intros H; inversion H. Qed.

Lemma Matches_eps_inv s : Matches regexp.Eps s -> s = "".
Proof. intros H; inversion H; reflexivity. Qed.

Lemma Matches_class_inv p s :
  Matches (regexp.Class p) s -> exists c, s = String c "" /\ p c = true.
Proof. intros H; inversion H; subst; eauto. Qed.

Lemma Matches_cat_inv r1 r2 s :
  Matches (regexp.Cat r1 r2) s ->
  exists s1 s2, s = s1 +:+ s2 /\ Matches r1 s1 /\ Matches r2 s2.
Proof. intros H; inversion H; subst; eauto. Qed.

Lemma Matches_alt_inv r1 r2 s :
  Matches (regexp.Alt r1 r2) s -> Matches r1 s \/ Matches r2 s.
Proof. intros H; inversion H; subst; auto. Qed.

Lemma nullable_spec r : regexp.nullable r = true <-> Matches r "".
Proof.
  induction r as [| |p|r1 IH1 r2 IH2|r1 IH1 r2 IH2|r IH]; cbn [regexp.nullable].
  - split; [discriminate|]. intros H. destruct (Matches_void_inv _ H).
  - split; [constructor|reflexivity].
  - split; [discriminate|]. intros H.
    apply Matches_class_inv in H as (c & Hc & _). discriminate.
  - rewrite andb_true_iff, IH1, IH2. split.
    + intros [H1 H2]. exact (MCat _ _ "" "" H1 H2).
    + intros H. apply Matches_cat_inv in H as (s1 & s2 & Hs & H1 & H2).
      symmetry in Hs. apply append_eq_empty in Hs as [-> ->]. auto.
  - rewrite orb_true_iff, IH1, IH2. split.
    + intros [H|H]; [apply MAltL|apply MAltR]; assumption.
    + apply Matches_alt_inv.
  - split; [constructor|reflexivity].
Qed.

Lemma deriv_sound c r : forall s, Matches (regexp.deriv c r) s -> Matches r (String c s).
Proof.
  induction r as [| |p|r1 IH1 r2 IH2|r1 IH1 r2 IH2|r IH]; cbn [regexp.deriv]; intros s H.
  - destruct (Matches_void_inv _ H).
  - destruct (Matches_void_inv _ H).
  - destruct (p c) eqn:Hp; [|destruct (Matches_void_inv _ H)].
    apply Matches_eps_inv in H as ->. constructor. assumption.
  - assert (Hcat : forall s, Matches (regexp.Cat (regexp.deriv c r1) r2) s ->
                             Matches (regexp.Cat r1 r2) (String c s)).
    { intros s' H'. apply Matches_cat_inv in H' as (s1 & s2 & -> & Ha & Hb).
      rewrite <- append_cons. constructor; auto. }
    destruct (regexp.nullable r1) eqn:Hn; [|auto].
    apply Matches_alt_inv in H as [H|H]; [auto|].
    rewrite <- (append_empty_l (String c s)).
    constructor; [apply nullable_spec; assumption|auto].
  - apply Matches_alt_inv in H as [H|H]; [apply MAltL|apply MAltR]; auto.
  - apply Matches_cat_inv in H as (s1 & s2 & -> & Ha & Hb).
    rewrite <- append_cons. constructor; auto.
Qed.

Lemma deriv_complete r s0 :
  Matches r s0 -> forall c s, s0 = String c s -> Matches (regexp.deriv c r) s.
Proof.
  induction 1 as [|p x Hp|r1 r2 s1 s2 H1 IH1 H2 IH2|r1 r2 s1 H1 IH1|r1 r2 s1 H1 IH1
                 |r|r s1 s2 H1 IH1 H2 IH2]; intros c s Hs; cbn [regexp.deriv].
  - discriminate.
  - injection Hs as -> <-. rewrite Hp. constructor.
  - apply append_eq_cons in Hs as [[-> ->]|(a' & -> & ->)].
    + assert (Hn : regexp.nullable r1 = true) by (apply nullable_spec; assumption).
      rewrite Hn. apply MAltR. apply IH2. reflexivity.
    + destruct (regexp.nullable r1).
      * apply MAltL. constructor; [apply IH1; reflexivity|assumption].
      * constructor; [apply IH1; reflexivity|assumption].
  - apply MAltL. apply IH1. assumption.
  - apply MAltR. apply IH1. assumption.
  - discriminate.
  - apply append_eq_cons in Hs as [[-> ->]|(a' & -> & ->)].
    + apply (IH2 c s eq_refl).
    + constructor; [apply IH1; reflexivity|assumption].
Qed.

Lemma deriv_spec c r s : Matches (regexp.deriv c r) s <-> Matches r (String c s).
Proof.
  split; [apply deriv_sound|]. intros H. exact (deriv_complete _ _ H c s eq_refl).
Qed.

Lemma match_prefix_spec s : forall r,
  regexp.match_prefix r s = true <-> exists x post, s = x +:+ post /\ Matches r x.
Proof.
  induction s as [|c s IH]; intros r; cbn [regexp.match_prefix].
  - rewrite orb_false_r, nullable_spec. split.
    + intros H. exists "", "". auto.
    + intros (x & post & Hs & H). symmetry in Hs.
      apply append_eq_empty in Hs as [-> _]. assumption.
  - rewrite orb_true_iff, nullable_spec, IH. split.
    + intros [H|(x & post & -> & H)].
      * exists "", (String c s). auto.
      * exists (String c x), post. split; [reflexivity|]. apply deriv_spec. assumption.
    + intros (x & post & Hs & H). symmetry in Hs.
      apply append_eq_cons in Hs as [[-> _]|(x' & -> & ->)]; [left; assumption|].
      right. exists x', post. split; [reflexivity|]. apply deriv_spec. assumption.
Qed.

Lemma search_spec r s :
  regexp.search r s = true <-> exists x, Matches r x /\ occurs x s.
Proof.
  unfold occurs. induction s as [|c s IH]; cbn [regexp.search].
  - rewrite orb_false_r, match_prefix_spec. split.
    + intros (x & post & Hs & H). exists x. split; [assumption|]. exists "", post. assumption.
    + intros (x & H & pre & post & Hs). symmetry in Hs.
      apply append_eq_empty in Hs as [-> Hs]. apply append_eq_empty in Hs as [-> ->].
      exists "", "". auto.
  - rewrite orb_true_iff, match_prefix_spec, IH. split.
    + intros [(x & post & Hs & H)|(x & H & pre & post & ->)].
      * exists x. split; [assumption|]. exists "", post. assumption.
      * exists x. split; [assumption|]. exists (String c pre), post. reflexivity.
    + intros (x & H & pre & post & Hs).
      destruct pre as [|c' pre].
      * left. exists x, post. auto.
      * rewrite append_cons in Hs. injection Hs as <- ->. right.
        exists x. split; [assumption|]. exists pre, post. reflexivity.
Qed.

(** ** The filter of the receive path *)

Lemma Matches_star_class p s :
  Matches (regexp.Star (regexp.Class p)) s <-> all_of p s = true.
Proof.
  split.
  - intros H. remember (regexp.Star (regexp.Class p)) as r eqn:Hr.
    induction H as [| | | | | |r0 s1 s2 H1 _ H2 IH2]; try discriminate; [reflexivity|].
    injection Hr as ->.
    apply Matches_class_inv in H1 as (c & -> & Hc).
    rewrite append_cons, append_empty_l. cbn [all_of]. rewrite Hc. auto.
  - induction s as [|c s IH]; cbn [all_of]; [constructor|].
    rewrite andb_true_iff. intros [Hc Hs].
    change (String c s) with (String c "" +:+ s).
    constructor; [constructor; assumption|auto].
Qed.

Lemma Matches_plus_class p s :
  Matches (regexp.Plus (regexp.Class p)) s <-> run p s.
Proof.
  unfold regexp.Plus, run. split.
  - intros H. apply Matches_cat_inv in H as (s1 & s2 & -> & H1 & H2).
    apply Matches_class_inv in H1 as (c & -> & Hc).
    apply Matches_star_class in H2.
    rewrite append_cons, append_empty_l. split; [discriminate|].
    cbn [all_of]. rewrite Hc. assumption.
  - intros [Hne Hall]. destruct s as [|c s]; [contradiction|].
    cbn [all_of] in Hall. apply andb_true_iff in Hall as [Hc Hs].
    change (String c s) with (String c "" +:+ s).
    constructor; [constructor; assumption|apply Matches_star_class; assumption].
Qed.

Lemma Matches_chr c s : Matches (regexp.Chr c) s <-> s = String c "".
Proof.
  unfold regexp.Chr. split.
  - intros H. apply Matches_class_inv in H as (x & -> & Hx).
    apply Ascii.eqb_eq in Hx. subst. reflexivity.
  - intros ->. constructor. apply Ascii.eqb_refl.
Qed.

Lemma sequence_pattern_spec s :
  Matches sequence_pattern s <-> sequence_shape s.
Proof.
  unfold sequence_pattern, sequence_shape. split.
  - intros H.
    apply Matches_cat_inv in H as (role & s1 & -> & Hrole & H).
    apply Matches_cat_inv in H as (d1 & s2 & -> & Hd1 & H).
    apply Matches_cat_inv in H as (n1 & s3 & -> & Hn1 & H).
    apply Matches_cat_inv in H as (d2 & n2 & -> & Hd2 & Hn2).
    apply Matches_chr in Hd1 as ->. apply Matches_chr in Hd2 as ->.
    apply Matches_plus_class in Hrole, Hn1, Hn2.
    exists role, n1, n2. auto.
  - intros (role & n1 & n2 & -> & Hrole & Hn1 & Hn2).
    apply Matches_plus_class in Hrole, Hn1, Hn2.
    repeat (constructor; [first [assumption | apply Matches_chr; reflexivity]|]).
    assumption.
Qed.

Lemma prefix_spec x s :
  String.prefix x s = true <-> exists post, s = x +:+ post.
Proof.
  revert s. induction x as [|c x IH]; intros s.
  - destruct s; cbn; split; eauto.
  - destruct s as [|c' s]; cbn [String.prefix].
    + split; [discriminate|]. intros (post & H). discriminate.
    + destruct (ascii_dec c c') as [->|Hne].
      * rewrite IH. split; intros (post & H); exists post.
        -- rewrite append_cons. congruence.
        -- rewrite append_cons in H. congruence.
      * split; [discriminate|]. intros (post & H).
        rewrite append_cons in H. congruence.
Qed.

Lemma Contains_spec s x : strings.Contains s x = true <-> occurs x s.
Proof.
  unfold occurs. induction s as [|c s IH]; cbn [strings.Contains].
  - rewrite orb_false_r, prefix_spec. split.
    + intros (post & H). exists "", post. assumption.
    + intros (pre & post & H). symmetry in H.
      apply append_eq_empty in H as [-> H]. exists post. auto.
  - rewrite orb_true_iff, prefix_spec, IH. split.
    + intros [(post & H)|(pre & post & ->)].
      * exists "", post. assumption.
      * exists (String c pre), post. reflexivity.
    + intros (pre & post & H). destruct pre as [|c' pre].
      * left. exists post. assumption.
      * rewrite append_cons in H. injection H as <- ->. right. eauto.
Qed.

Lemma isReadable_spec ch filename :
  isReadable ch filename = true <->
  (exists x, sequence_shape x /\ occurs x filename) /\
  ~ occurs (mode ch) filename /\ ~ occurs "tmp" filename.
Proof.
  unfold isReadable, regexp.MatchString.
  rewrite bool_decide_eq_false_2 by (intros H; apply H; reflexivity).
  rewrite orb_false_r.
  destruct (regexp.search sequence_pattern filename) eqn:Hs; cbn [negb].
  - apply search_spec in Hs as (x & Hx & Hocc). apply sequence_pattern_spec in Hx.
    rewrite andb_true_iff, !negb_true_iff, <- !not_true_iff_false, !Contains_spec.
    split; [intros [H1 H2]; eauto|intros (_ & H1 & H2); auto].
  - split; [discriminate|]. intros ((x & Hx & Hocc) & _).
    apply sequence_pattern_spec in Hx.
    assert (regexp.search sequence_pattern filename = true)
      by (apply search_spec; eauto).
    congruence.
Qed.

(** The filter on the text it is handed: a text is filtered out if and
    only if no part of it has the shape role-number-number, or the mode
    of the instance occurs somewhere in it, or the text [tmp] occurs
    somewhere in it. *)
Lemma isReadable_filter ch filename :
  isReadable ch filename = false <->
  (~ exists x, sequence_shape x /\ occurs x filename) \/
  occurs (mode ch) filename \/
  occurs "tmp" filename.
Proof.
  rewrite <- not_true_iff_false, isReadable_spec.
  rewrite <- !Contains_spec.
  assert (Hdec : (exists x, sequence_shape x /\ occurs x filename) \/
                 ~ (exists x, sequence_shape x /\ occurs x filename)).
  { destruct (regexp.search sequence_pattern filename) eqn:Hs.
    - left. apply search_spec in Hs as (x & Hx & Ho).
      apply sequence_pattern_spec in Hx. eauto.
    - right. intros (x & Hx & Ho). apply sequence_pattern_spec in Hx.
      assert (regexp.search sequence_pattern filename = true)
        by (apply search_spec; eauto).
      congruence. }
  destruct (strings.Contains filename (mode ch));
    destruct (strings.Contains filename "tmp"); destruct Hdec as [Hyes|Hno];
    split; intros H; auto; try tauto;
    try (destruct H as [H|[H|H]]; try discriminate; tauto).
  exfalso. apply H. split; [assumption|]. split; discriminate.
Qed.

(** A message whose name fails the filter is passed over by the watch
    loop, which goes on with the next message. *)
Lemma watch_loop_filtered event msgs ch w :
  isReadable ch (fsnotify.Name event) = false ->
  watch_loop (EventMsg event :: msgs) (ch, w) =
    watch_loop msgs
      (ch, add_log (Logl LDebug [AStr "received event: "; AEvent event]) w).
Proof.
  intros Hread. cbn [watch_loop]. unfold watch_step. rewrite Hread, andb_false_r.
  reflexivity.
Qed.

(** C3 fails on the code: the filter tests the text it is handed, and its
    two callers hand it different texts, the reconciliation pass the bare
    name of the entry and the watch loop the path that the watcher
    reports, directory included.  So an event is passed over whenever
    [tmp] or the mode of the instance occurs anywhere in the reported
    path, whatever the file.  For a worker whose channel directory lies
    below [/var/tmpfs], the first message of the master has the shape,
    carries the role of the peer and is not under the staging directory,
    and the reconciliation pass consumes it; yet the watch loop passes
    over its creation event and leaves the file where it is. *)
Theorem isReadable_depends_on_directory :
  (forall ch event msgs w,
     occurs "tmp" (fsnotify.Name event) \/ occurs (mode ch) (fsnotify.Name event) ->
     isReadable ch (fsnotify.Name event) = false /\
     watch_loop (EventMsg event :: msgs) (ch, w) =
       watch_loop msgs
         (ch, add_log (Logl LDebug [AStr "received event: "; AEvent event]) w)) /\
  ~ filtered_as_specified Tmpfs.chan Tmpfs.event_name /\
  snd (path.Split Tmpfs.event_name) = "master-20200101120000-000" /\
  isReadable Tmpfs.chan "master-20200101120000-000" = true /\
  isReadable Tmpfs.chan Tmpfs.event_name = false /\
  onMessageChan (fst (consumeAll (Tmpfs.chan, Sample.world Tmpfs.fs))) = ["m0"] /\
  onMessageChan (fst (watch_loop [EventMsg Tmpfs.created]
                        (Tmpfs.chan, Sample.world Tmpfs.fs))) = [] /\
  files (snd (watch_loop [EventMsg Tmpfs.created]
                (Tmpfs.chan, Sample.world Tmpfs.fs))) !! Tmpfs.event_name
    = Some (File "m0" false).
Proof.
  split; [|split].
  - intros ch event msgs w Hocc.
    assert (Hread : isReadable ch (fsnotify.Name event) = false).
    { apply isReadable_filter. right. tauto. }
    split; [exact Hread|]. apply watch_loop_filtered, Hread.
  - intros [Hshape|[Hrole|Hunder]].
    + apply Hshape. exists "master", "20200101120000", "000".
      split; [vm_compute; reflexivity|].
      repeat split; first [discriminate | vm_compute; reflexivity].
    + vm_compute in Hrole. discriminate.
    + vm_compute in Hunder. discriminate.
  - vm_compute. repeat split.
Qed.

Example Split_ex : strings.Split "a-b--c" "-"%char = ["a"; "b"; ""; "c"].
Proof. reflexivity. Qed.
Example Split_ex0 : strings.Split "" "-"%char = [""].
Proof. reflexivity. Qed.
Example pSplit_ex : path.Split "/a/b/c-1" = ("/a/b/", "c-1").
Proof. reflexivity. Qed.
Example pSplit_ex1 : path.Split "c-1" = ("", "c-1").
Proof. reflexivity. Qed.
Example pSplit_ex2 : path.Split "/a/" = ("/a/", "").
Proof. reflexivity. Qed.
Example Clean_ex : map path.Clean ["a//b/./c/.."; "/../a"; ""; "../../x"; "/"; "a/.."; "a/b/"]
  = ["a/b"; "/a"; "."; "../../x"; "/"; "."; "a/b"].
Proof. reflexivity. Qed.
Example Join_ex : path.Join "/var/chan" "tmp" = "/var/chan/tmp".
Proof. reflexivity. Qed.
Example ParseInt_ex : map strconv.ParseInt ["007"; "-5"; "+3"; "9223372036854775807"; "-9223372036854775808"]
  = [inl 7; inl (-5); inl 3; inl max_int64; inl min_int64].
Proof. reflexivity. Qed.
Example ParseInt_ex2 : map (fun s => match strconv.ParseInt s with inl _ => true | _ => false end) [""; "-"; "1a"; "9223372036854775808"; "1_0"; " 1"]
  = [false; false; false; false; false; false].
Proof. reflexivity. Qed.
Example Sprintf_ex : map fmt.Sprintf_03d [0; 7; 42; 999; 1000; -1; -100] =
  ["000"; "007"; "042"; "999"; "1000"; "-01"; "-100"].
Proof. reflexivity. Qed.
Example Fields_ex : strings.Fields "  123   10:00:01 " = ["123"; "10:00:01"].
Proof. reflexivity. Qed.

(** Two messages of the master reach the worker in the order sent; both
    files are consumed and nothing stays in the staging directory. *)
Example master_to_worker :
  let sent := fst (Send_all ["A"; "B"] (Sample.chan "master" 0 0,
                                        Sample.world Sample.fs_empty)) in
  let received := consumeAll (Sample.chan "worker" 0 0, snd sent) in
  onMessageChan (fst received) = ["A"; "B"] /\
  recvCounter (fst received) = 2 /\
  fst (ioutil.ReadDir Sample.root (files (snd received))) = ["tmp"] /\
  fst (ioutil.ReadDir "/var/chan/tmp" (files (snd received))) = [].
Proof. vm_compute. repeat split. Qed.

(** An instance does not consume what it has sent itself. *)
Example no_self_consumption :
  let sent := fst (Send_all ["A"; "B"] (Sample.chan "master" 0 0,
                                        Sample.world Sample.fs_empty)) in
  onMessageChan (fst (consumeAll sent)) = [] /\
  fst (ioutil.ReadDir Sample.root (files (snd (consumeAll sent))))
    = ["master-20200101120000-000"; "master-20200101120000-001"; "tmp"].
Proof. vm_compute. repeat split. Qed.

(** A send on a closed channel is refused and a second [Close] does
    nothing. *)
Example closed_channel :
  let st := Close (Sample.chan "master" 0 0, Sample.world Sample.fs_empty) in
  snd (Send "late" st) = Some (errorString "channel already closed") /\
  closed (fst (Close st)) = true.
Proof. vm_compute. repeat split. Qed.


(** * Further properties of the code *)

(** ** What the operations leave alone *)

Lemma watch_step_fields msg st :
  let st' := fst (watch_step msg st) in
  path (fst st') = path (fst st) /\ tmpPath (fst st') = tmpPath (fst st) /\
  mode (fst st') = mode (fst st) /\ counter (fst st') = counter (fst st) /\
  startTime (fst st') = startTime (fst st) /\ closed (fst st') = closed (fst st) /\
  goroutines (snd st') = goroutines (snd st).
Proof.
  destruct st as [ch w]. unfold watch_step.
  destruct msg as [event| |[err|]]; cbn zeta; try (cbn; auto 10; fail).
  destruct (_ && _); [|cbn; auto 10].
  destruct (_ =? _); cbn [fst].
  - exact (consume_fields _ (ch, add_log _ w)).
  - exact (consumeAll_fields (ch, add_log _ (add_log _ w))).
Qed.

Lemma Destroy_channel ModeMaster st :
  fst (Destroy ModeMaster st) = fst (Close st).
Proof.
  destruct (String.eqb_spec (mode (fst st)) ModeMaster) as [Hm|Hm].
  - rewrite (Destroy_master _ _ Hm). reflexivity.
  - rewrite (Destroy_other _ _ Hm). reflexivity.
Qed.

Lemma Close_all_fields st :
  path (fst (Close st)) = path (fst st) /\ tmpPath (fst (Close st)) = tmpPath (fst st) /\
  mode (fst (Close st)) = mode (fst st) /\ counter (fst (Close st)) = counter (fst st) /\
  startTime (fst (Close st)) = startTime (fst st).
Proof.
  destruct st as [ch w]. unfold Close. destruct (closed ch); [cbn; auto|].
  pose proof (consumeAll_fields
                (set_closed true ch,
                 add_log (Logf LInfo "channel %v requested close" [AStr (path ch)]) w)) as H.
  cbn zeta in H. destruct (consumeAll _) as [ch1 w1]. cbn in H |- *.
  destruct H as (H1 & H2 & H3 & H4 & H5 & _). auto.
Qed.

(** X1: no operation of a channel instance changes its directory, its
    staging directory, its mode or its start time, and no operation other
    than [Send] changes the outgoing counter. *)
Theorem identity_fields_constant op st :
  path (fst (run_op op st)) = path (fst st) /\
  tmpPath (fst (run_op op st)) = tmpPath (fst st) /\
  mode (fst (run_op op st)) = mode (fst st) /\
  startTime (fst (run_op op st)) = startTime (fst st) /\
  (sends op = false -> counter (fst (run_op op st)) = counter (fst st)).
Proof.
  destruct op as [rawJson| |ModeMaster| |msg]; cbn [run_op sends].
  - destruct st as [ch w].
    destruct (Send_outcome rawJson ch w) as [(e & _ & ->)|(_ & ->)]; cbn;
      repeat split; discriminate.
  - pose proof (Close_all_fields st) as (H1 & H2 & H3 & H4 & H5). auto.
  - rewrite Destroy_channel.
    pose proof (Close_all_fields st) as (H1 & H2 & H3 & H4 & H5). auto.
  - destruct st as [ch w]. unfold watch, watch_loop.
    pose proof (consumeAll_fields
                  (ch, add_log (Logf LDebug "%v listener started on path: %v"
                                  [AStr (mode ch); AStr (path ch)]) w)) as H.
    cbn zeta in H. destruct H as (H1 & H2 & H3 & H4 & H5 & _). auto.
  - pose proof (watch_step_fields msg st) as H. cbn zeta in H.
    destruct H as (H1 & H2 & H3 & H4 & H5 & _). auto.
Qed.

Lemma identity_fields_constant_witness :
  let st := (Sample.chan "worker" 4 2, Sample.world Pending.fs) in
  sends OpClose = false /\
  counter (fst (run_op OpClose st)) = 4 /\
  path (fst (run_op OpClose st)) = "/var/chan".
Proof.
  cbv zeta. split; [reflexivity|].
  destruct (identity_fields_constant OpClose
              (Sample.chan "worker" 4 2, Sample.world Pending.fs))
    as (H1 & _ & _ & _ & H5).
  split; [rewrite (H5 eq_refl); reflexivity|rewrite H1; reflexivity].
Defined.

(** X2: once [closed] is set no operation clears it. *)
Theorem closed_is_irreversible op st :
  closed (fst st) = true -> closed (fst (run_op op st)) = true.
Proof.
  intros Hc. destruct op as [rawJson| |ModeMaster| |msg]; cbn [run_op].
  - destruct st as [ch w]. unfold Send. cbn [fst] in Hc. rewrite Hc. exact Hc.
  - apply Close_fields.
  - rewrite Destroy_channel. apply Close_fields.
  - destruct st as [ch w]. unfold watch, watch_loop.
    pose proof (consumeAll_fields
                  (ch, add_log (Logf LDebug "%v listener started on path: %v"
                                  [AStr (mode ch); AStr (path ch)]) w)) as H.
    cbn zeta in H. destruct H as (_ & _ & _ & _ & _ & -> & _). exact Hc.
  - pose proof (watch_step_fields msg st) as H. cbn zeta in H.
    destruct H as (_ & _ & _ & _ & _ & -> & _). exact Hc.
Qed.

Lemma closed_is_irreversible_witness :
  let st := Close (Sample.chan "worker" 0 2, Sample.world Pending.fs) in
  closed (fst st) = true /\
  closed (fst (run_op (OpWatchMsg (EventMsg (Pending.created "005"))) st)) = true.
Proof.
  cbv zeta.
  assert (Hc : closed (fst (Close (Sample.chan "worker" 0 2,
                                   Sample.world Pending.fs))) = true)
    by apply Close_fields.
  split; [exact Hc|].
  exact (closed_is_irreversible (OpWatchMsg (EventMsg (Pending.created "005"))) _ Hc).
Defined.

(** ** The receive path only removes files and only appends to the stream *)

Lemma consume_files_subseteq p st :
  files (snd (consume p st)) ⊆ files (snd st).
Proof.
  destruct st as [ch w].
  destruct (ioutil.ReadFile p (files w)) as [buf|err] eqn:Hread.
  - rewrite (consume_read_ok _ _ _ _ Hread). cbn [snd files set_files add_log].
    apply Remove_subseteq.
  - rewrite (consume_read_error _ _ _ _ Hread). reflexivity.
Qed.

Lemma consume_stream_prefix p st :
  onMessageChan (fst st) `prefix_of` onMessageChan (fst (consume p st)).
Proof.
  destruct st as [ch w].
  destruct (ioutil.ReadFile p (files w)) as [buf|err] eqn:Hread.
  - rewrite (consume_read_ok _ _ _ _ Hread). cbn. apply prefix_app_r. reflexivity.
  - rewrite (consume_read_error _ _ _ _ Hread). reflexivity.
Qed.

Lemma consume_list_files_subseteq ps : forall st,
  files (snd (fold_left (fun st p => consume p st) ps st)) ⊆ files (snd st).
Proof.
  induction ps as [|p ps IH]; intros st; cbn [fold_left]; [reflexivity|].
  etransitivity; [apply IH|apply consume_files_subseteq].
Qed.

Lemma consume_list_stream_prefix ps : forall st,
  onMessageChan (fst st)
    `prefix_of` onMessageChan (fst (fold_left (fun st p => consume p st) ps st)).
Proof.
  induction ps as [|p ps IH]; intros st; cbn [fold_left]; [reflexivity|].
  etransitivity; [apply consume_stream_prefix|apply IH].
Qed.

Lemma consumeAll_files_subseteq st :
  files (snd (consumeAll st)) ⊆ files (snd st).
Proof.
  destruct st as [ch w]. rewrite consumeAll_unfold.
  exact (consume_list_files_subseteq _ (ch, add_log _ w)).
Qed.

Lemma consumeAll_stream_prefix st :
  onMessageChan (fst st) `prefix_of` onMessageChan (fst (consumeAll st)).
Proof.
  destruct st as [ch w]. rewrite consumeAll_unfold.
  exact (consume_list_stream_prefix _ (ch, add_log _ w)).
Qed.

Lemma Close_files_subseteq st : files (snd (Close st)) ⊆ files (snd st).
Proof.
  destruct st as [ch w]. unfold Close. destruct (closed ch); [reflexivity|].
  pose proof (consumeAll_files_subseteq
                (set_closed true ch,
                 add_log (Logf LInfo "channel %v requested close" [AStr (path ch)]) w)) as H.
  destruct (consumeAll _) as [ch1 w1]. exact H.
Qed.

Lemma Close_stream_prefix st :
  onMessageChan (fst st) `prefix_of` onMessageChan (fst (Close st)).
Proof.
  destruct st as [ch w]. unfold Close. destruct (closed ch); [reflexivity|].
  pose proof (consumeAll_stream_prefix
                (set_closed true ch,
                 add_log (Logf LInfo "channel %v requested close" [AStr (path ch)]) w)) as H.
  destruct (consumeAll _) as [ch1 w1]. exact H.
Qed.

(** X3: no operation other than [Send] creates a file or changes the
    content of one: every file present after the operation was present
    before it, with the same content. *)
Theorem receive_path_only_removes op st :
  sends op = false -> files (snd (run_op op st)) ⊆ files (snd st).
Proof.
  intros Hop. destruct op as [rawJson| |ModeMaster| |msg]; cbn [run_op];
    [discriminate| | | |].
  - apply Close_files_subseteq.
  - destruct (String.eqb_spec (mode (fst st)) ModeMaster) as [Hm|Hm].
    + rewrite (Destroy_master _ _ Hm). cbn [snd files].
      etransitivity; [apply RemoveAll_subseteq|apply Close_files_subseteq].
    + rewrite (Destroy_other _ _ Hm). apply Close_files_subseteq.
  - destruct st as [ch w]. unfold watch, watch_loop.
    exact (consumeAll_files_subseteq (ch, add_log _ w)).
  - destruct st as [ch w]. unfold watch_step.
    destruct msg as [event| |[err|]]; cbn zeta; try reflexivity.
    destruct (_ && _); [|reflexivity].
    destruct (_ =? _); cbn [fst].
    + exact (consume_files_subseteq _ (ch, add_log _ w)).
    + exact (consumeAll_files_subseteq (ch, add_log _ (add_log _ w))).
Qed.

Lemma receive_path_only_removes_witness :
  let st := (Sample.chan "worker" 0 2, Sample.world Pending.fs) in
  sends (OpWatchMsg (EventMsg (Pending.created "005"))) = false /\
  files (snd (run_op (OpWatchMsg (EventMsg (Pending.created "005"))) st))
    ⊆ Pending.fs.
Proof.
  cbv zeta. split; [reflexivity|].
  exact (receive_path_only_removes (OpWatchMsg (EventMsg (Pending.created "005")))
           (Sample.chan "worker" 0 2, Sample.world Pending.fs) eq_refl).
Defined.

(** X4: the output stream only grows at its end: whatever an operation
    does, the payloads delivered before it are still there, in the same
    order, at the front of the stream. *)
Theorem stream_only_grows op st :
  onMessageChan (fst st) `prefix_of` onMessageChan (fst (run_op op st)).
Proof.
  destruct op as [rawJson| |ModeMaster| |msg]; cbn [run_op].
  - destruct st as [ch w].
    destruct (Send_outcome rawJson ch w) as [(e & _ & ->)|(_ & ->)]; reflexivity.
  - apply Close_stream_prefix.
  - rewrite Destroy_channel. apply Close_stream_prefix.
  - destruct st as [ch w]. unfold watch, watch_loop.
    exact (consumeAll_stream_prefix (ch, add_log _ w)).
  - destruct st as [ch w]. unfold watch_step.
    destruct msg as [event| |[err|]]; cbn zeta; try reflexivity.
    destruct (_ && _); [|reflexivity].
    destruct (_ =? _); cbn [fst].
    + exact (consume_stream_prefix _ (ch, add_log _ w)).
    + exact (consumeAll_stream_prefix (ch, add_log _ (add_log _ w))).
Qed.

(** ** Closing twice, sending after closing *)

(** X5: [Close] is idempotent: a second call changes nothing, in
    particular it starts no second teardown. *)
Theorem Close_idempotent st : Close (Close st) = Close st.
Proof.
  pose proof (Close_fields st) as (_ & _ & _ & Hc).
  destruct (Close st) as [ch1 w1]. cbn [fst] in Hc.
  unfold Close. rewrite Hc. reflexivity.
Qed.

(** X6: after [Close], and so after [Destroy], every [Send] is refused
    with the error of a closed channel and changes neither the channel
    nor the files nor the log. *)
Theorem Send_after_Close rawJson ModeMaster st :
  Send rawJson (Close st) = (Close st, Some (errorString "channel already closed")) /\
  Send rawJson (Destroy ModeMaster st)
    = (Destroy ModeMaster st, Some (errorString "channel already closed")).
Proof.
  split.
  - pose proof (Close_fields st) as (_ & _ & _ & Hc).
    destruct (Close st) as [ch1 w1]. cbn [fst] in Hc.
    unfold Send. rewrite Hc. reflexivity.
  - pose proof (Close_fields st) as (_ & _ & _ & Hc).
    rewrite <- (Destroy_channel ModeMaster) in Hc.
    destruct (Destroy ModeMaster st) as [ch1 w1]. cbn [fst] in Hc.
    unfold Send. rewrite Hc. reflexivity.
Qed.

(** ** A second reconciliation pass *)

Lemma unreadable_subseteq p (fs fs' : gmap string node) :
  fs' ⊆ fs -> unreadable p fs -> unreadable p fs'.
Proof.
  unfold unreadable, ioutil.ReadFile. intros Hsub (err & Hread).
  destruct (fs' !! path.Clean p) as [x|] eqn:Hx; [|eauto].
  rewrite (lookup_weaken _ _ _ _ Hx Hsub) in Hread.
  destruct x as [c [|]|]; try discriminate; eauto.
Qed.

Lemma consume_protected p st : protected (snd (consume p st)) = protected (snd st).
Proof.
  destruct st as [ch w].
  destruct (ioutil.ReadFile p (files w)) as [buf|err] eqn:Hread.
  - rewrite (consume_read_ok _ _ _ _ Hread). reflexivity.
  - rewrite (consume_read_error _ _ _ _ Hread). reflexivity.
Qed.

Lemma consume_list_protected ps : forall st,
  protected (snd (fold_left (fun st p => consume p st) ps st)) = protected (snd st).
Proof.
  induction ps as [|p ps IH]; intros st; cbn [fold_left]; [reflexivity|].
  rewrite IH. apply consume_protected.
Qed.

Lemma consumeAll_protected st : protected (snd (consumeAll st)) = protected (snd st).
Proof.
  destruct st as [ch w]. rewrite consumeAll_unfold.
  exact (consume_list_protected _ (ch, add_log _ w)).
Qed.

Lemma consume_leaves_unreadable p st :
  path.Clean p ∉ protected (snd st) ->
  unreadable p (files (snd (consume p st))).
Proof.
  destruct st as [ch w]. cbn [snd]. intros Hfree.
  destruct (ioutil.ReadFile p (files w)) as [buf|err] eqn:Hread.
  - rewrite (consume_read_files _ _ _ _ Hread).
    rewrite bool_decide_eq_false_2 by assumption.
    unfold unreadable, ioutil.ReadFile. rewrite lookup_delete_eq. eauto.
  - rewrite (consume_read_error _ _ _ _ Hread). cbn. exists err. exact Hread.
Qed.

Lemma consume_list_leaves_unreadable ps : forall st p,
  (forall q, In q ps -> path.Clean q ∉ protected (snd st)) ->
  In p ps -> unreadable p (files (snd (fold_left (fun st p => consume p st) ps st))).
Proof.
  induction ps as [|q ps IH]; intros st p Hfree Hin; [destruct Hin|].
  cbn [fold_left]. destruct Hin as [->|Hin].
  - eapply unreadable_subseteq; [apply consume_list_files_subseteq|].
    apply consume_leaves_unreadable, Hfree. left. reflexivity.
  - apply IH; [|assumption]. intros r Hr. rewrite consume_protected.
    apply Hfree. right. assumption.
Qed.

Lemma consume_list_nothing_readable ps : forall ch w,
  (forall p, In p ps -> unreadable p (files w)) ->
  fst (fold_left (fun st p => consume p st) ps (ch, w)) = ch /\
  files (snd (fold_left (fun st p => consume p st) ps (ch, w))) = files w.
Proof.
  induction ps as [|q ps IH]; intros ch w Hall; cbn [fold_left]; [auto|].
  destruct (Hall q (or_introl eq_refl)) as (err & Hread).
  rewrite (consume_read_error _ _ _ _ Hread).
  apply (IH ch (add_log _ (add_log _ w))).
  intros p Hp. apply Hall. right. assumption.
Qed.

Lemma ReadDir_subseteq dirname (fs fs' : gmap string node) name :
  fs' ⊆ fs ->
  In name (fst (ioutil.ReadDir dirname fs')) -> In name (fst (ioutil.ReadDir dirname fs)).
Proof.
  intros Hsub Hin.
  destruct (fs' !! path.Clean dirname) as [x|] eqn:Hd.
  - destruct x as [c l|].
    + unfold ioutil.ReadDir in Hin. rewrite Hd in Hin. destruct Hin.
    + pose proof (lookup_weaken _ _ _ _ Hd Hsub) as Hd'.
      apply list_elem_of_In. apply (ReadDir_entries _ _ _ Hd').
      apply list_elem_of_In in Hin.
      apply (ReadDir_entries _ _ _ Hd) in Hin as (k & y & Hk & Hc).
      exists k, y. split; [exact (lookup_weaken _ _ _ _ Hk Hsub)|assumption].
  - unfold ioutil.ReadDir in Hin. rewrite Hd in Hin. destruct Hin.
Qed.

(** X7: when the system refuses none of the removals of a reconciliation
    pass, a pass run right after it consumes nothing: the channel, its
    cursor and its stream included, and the files are as the first pass
    left them, so no message is delivered twice. *)
Theorem consumeAll_twice st :
  (forall name,
     In name (fst (ioutil.ReadDir (path (fst st)) (files (snd st)))) ->
     isReadable (fst st) name = true ->
     path.Clean (path.Join (path (fst st)) name) ∉ protected (snd st)) ->
  fst (consumeAll (consumeAll st)) = fst (consumeAll st) /\
  files (snd (consumeAll (consumeAll st))) = files (snd (consumeAll st)).
Proof.
  destruct st as [ch w]. cbn [fst snd]. intros Hfree.
  pose proof (consumeAll_fields (ch, w)) as Hf. cbn zeta in Hf.
  destruct Hf as (Hpath & _ & Hmode & _).
  pose proof (consumeAll_files_subseteq (ch, w)) as Hsub.
  assert (Hdone : forall name,
            In name (fst (ioutil.ReadDir (path ch) (files w))) ->
            isReadable ch name = true ->
            unreadable (path.Join (path ch) name) (files (snd (consumeAll (ch, w))))).
  { intros name Hin Hr. rewrite consumeAll_unfold.
    apply consume_list_leaves_unreadable.
    - intros q Hq. cbn [snd protected add_log].
      apply in_map_iff in Hq as (n & <- & Hn). apply filter_In in Hn as [Hn Hrn].
      apply Hfree; assumption.
    - apply in_map. apply filter_In. split; assumption. }
  destruct (consumeAll (ch, w)) as [ch1 w1] eqn:Hpass. cbn [fst snd] in *.
  rewrite consumeAll_unfold.
  apply (consume_list_nothing_readable _ ch1 (add_log _ w1)).
  intros p Hp. cbn [files add_log].
  apply in_map_iff in Hp as (name & <- & Hin).
  apply filter_In in Hin as [Hin Hr].
  rewrite Hpath. apply Hdone.
  - rewrite Hpath in Hin. exact (ReadDir_subseteq _ _ _ _ Hsub Hin).
  - rewrite <- Hr. apply isReadable_mode. congruence.
Qed.

Lemma consumeAll_twice_witness :
  let st := (Sample.chan "worker" 0 2, Sample.world Pending.fs) in
  (forall name,
     In name (fst (ioutil.ReadDir (path (fst st)) (files (snd st)))) ->
     isReadable (fst st) name = true ->
     path.Clean (path.Join (path (fst st)) name) ∉ protected (snd st)) /\
  onMessageChan (fst (consumeAll st)) = ["m2"; "m3"; "m4"; "m5"] /\
  onMessageChan (fst (consumeAll (consumeAll st))) = ["m2"; "m3"; "m4"; "m5"].
Proof.
  cbv zeta.
  assert (Hfree : forall name,
            In name (fst (ioutil.ReadDir
                            (path (fst (Sample.chan "worker" 0 2, Sample.world Pending.fs)))
                            (files (snd (Sample.chan "worker" 0 2,
                                         Sample.world Pending.fs))))) ->
            isReadable (fst (Sample.chan "worker" 0 2, Sample.world Pending.fs)) name
              = true ->
            path.Clean (path.Join
                          (path (fst (Sample.chan "worker" 0 2, Sample.world Pending.fs)))
                          name)
              ∉ protected (snd (Sample.chan "worker" 0 2, Sample.world Pending.fs)))
    by (intros name _ _; cbn [snd protected Sample.world]; apply not_elem_of_empty).
  split; [exact Hfree|].
  assert (Hfirst : onMessageChan (fst (consumeAll (Sample.chan "worker" 0 2,
                                                   Sample.world Pending.fs)))
                   = ["m2"; "m3"; "m4"; "m5"]) by (vm_compute; reflexivity).
  split; [exact Hfirst|].
  rewrite (proj1 (consumeAll_twice _ Hfree)). exact Hfirst.
Defined.

(** A message whose file cannot be removed is delivered again by the
    next pass. *)
Example delivered_twice :
  let st := (Sample.chan "worker" 0 0, Held.world) in
  onMessageChan (fst (consumeAll st)) = ["ping"] /\
  onMessageChan (fst (consumeAll (consumeAll st))) = ["ping"; "ping"].
Proof. vm_compute. repeat split. Qed.

(** ** Printing and parsing the counter *)

Lemma parse_digits_acc d : forall acc : positive,
  strconv.parse_digits (Zpos acc) (NilEmpty.string_of_uint d)
  = Some (Zpos (Pos.of_uint_acc d acc)).
Proof.
  induction d; intros acc; cbn [NilEmpty.string_of_uint Pos.of_uint_acc];
    [reflexivity|..];
    cbn [strconv.parse_digits];
    match goal with
    | |- context [strconv.is_digit ?c] =>
        change (strconv.is_digit c) with true; cbv iota
    end;
    match goal with
    | |- strconv.parse_digits ?z _ = Some (Zpos (Pos.of_uint_acc _ ?p)) =>
        replace z with (Zpos p) by (unfold strconv.digit_val; cbn; lia)
    end;
    apply IHd.
Qed.

Lemma parse_digits_uint d :
  strconv.parse_digits 0 (NilEmpty.string_of_uint d) = Some (Z.of_N (Pos.of_uint d)).
Proof.
  induction d; cbn [NilEmpty.string_of_uint Pos.of_uint]; [reflexivity|..];
    cbn [strconv.parse_digits];
    match goal with
    | |- context [strconv.is_digit ?c] =>
        change (strconv.is_digit c) with true; cbv iota
    end;
    [exact IHd|..];
    match goal with
    | |- strconv.parse_digits _ _ = Some (Z.of_N (Npos (Pos.of_uint_acc _ ?p))) =>
        change (strconv.parse_digits (Zpos p) (NilEmpty.string_of_uint d)
                = Some (Zpos (Pos.of_uint_acc d p)))
    end;
    apply parse_digits_acc.
Qed.

Lemma decimal_NilEmpty n :
  fmt.decimal n = NilEmpty.string_of_uint (N.to_uint n).
Proof.
  unfold fmt.decimal, NilZero.string_of_uint.
  destruct (N.to_uint n) eqn:Hd; try reflexivity.
  destruct n as [|p]; [discriminate|].
  destruct (DecimalPos.Unsigned.to_uint_nonnil p Hd).
Qed.

Lemma parse_digits_decimal n :
  strconv.parse_digits 0 (fmt.decimal n) = Some (Z.of_N n).
Proof.
  rewrite decimal_NilEmpty, parse_digits_uint.
  change (Pos.of_uint (N.to_uint n)) with (N.of_uint (N.to_uint n)).
  rewrite DecimalN.Unsigned.of_to. reflexivity.
Qed.

Lemma all_digits_uint d : all_of strconv.is_digit (NilEmpty.string_of_uint d) = true.
Proof. induction d; cbn [NilEmpty.string_of_uint all_of]; [reflexivity|..]; exact IHd. Qed.

Lemma decimal_not_empty n : fmt.decimal n <> "".
Proof.
  rewrite decimal_NilEmpty. destruct n as [|p]; [discriminate|].
  cbn [N.to_uint]. pose proof (DecimalPos.Unsigned.to_uint_nonnil p) as Hnil.
  destruct (Pos.to_uint p); [contradiction|discriminate..].
Qed.

Lemma all_of_app p (a b : string) :
  all_of p (a +:+ b) = all_of p a && all_of p b.
Proof.
  induction a as [|c a IH]; [reflexivity|].
  rewrite append_cons. cbn [all_of]. rewrite IH. apply andb_assoc.
Qed.

Lemma all_digits_zeros k : all_of strconv.is_digit (fmt.zeros k) = true.
Proof. induction k as [|k IH]; [reflexivity|exact IH]. Qed.

Lemma parse_digits_zeros k s :
  strconv.parse_digits 0 (fmt.zeros k +:+ s) = strconv.parse_digits 0 s.
Proof. induction k as [|k IH]; [reflexivity|exact IH]. Qed.

(** A padded natural number is a non-empty run of digits and parses back
    to the number. *)
Lemma pad_zero_decimal width n :
  run strconv.is_digit (fmt.pad_zero width (fmt.decimal n)) /\
  strconv.parse_digits 0 (fmt.pad_zero width (fmt.decimal n)) = Some (Z.of_N n).
Proof.
  unfold fmt.pad_zero. split; [split|].
  - intros H. apply append_eq_empty in H as [_ H]. exact (decimal_not_empty _ H).
  - rewrite all_of_app, all_digits_zeros, decimal_NilEmpty. apply all_digits_uint.
  - rewrite parse_digits_zeros. apply parse_digits_decimal.
Qed.

Lemma ParseInt_digits s n :
  run strconv.is_digit s -> strconv.parse_digits 0 s = Some n -> n <= max_int64 ->
  strconv.ParseInt s = inl n.
Proof.
  intros [Hne Hall] Hp Hmax. destruct s as [|c rest]; [contradiction|].
  cbn [all_of] in Hall. apply andb_true_iff in Hall as [Hc _].
  unfold strconv.ParseInt.
  assert (Hminus : Ascii.eqb c "-" = false).
  { destruct (Ascii.eqb_spec c "-") as [->|]; [discriminate Hc|reflexivity]. }
  assert (Hplus : Ascii.eqb c "+" = false).
  { destruct (Ascii.eqb_spec c "+") as [->|]; [discriminate Hc|reflexivity]. }
  rewrite Hminus, Hplus. cbn [orb]. rewrite Hp.
  destruct (max_int64 <? n) eqn:Hlt; [apply Z.ltb_lt in Hlt; lia|reflexivity].
Qed.

Lemma ParseInt_Sprintf_03d n :
  0 <= n <= max_int64 -> strconv.ParseInt (fmt.Sprintf_03d n) = inl n.
Proof.
  intros [Hlo Hhi]. unfold fmt.Sprintf_03d.
  destruct (n <? 0) eqn:Hneg; [apply Z.ltb_lt in Hneg; lia|].
  destruct (pad_zero_decimal 3 (Z.to_N n)) as [Hrun Hp].
  apply ParseInt_digits; [assumption| |assumption].
  rewrite Hp. f_equal. lia.
Qed.

(** ** Splitting and cleaning names *)

Lemma append_assoc (a b c : string) : (a +:+ b) +:+ c = a +:+ (b +:+ c).
Proof.
  induction a as [|x a IH]; [reflexivity|].
  rewrite !append_cons, IH. reflexivity.
Qed.

Lemma all_of_impl (p q : ascii -> bool) s :
  (forall c, p c = true -> q c = true) -> all_of p s = true -> all_of q s = true.
Proof.
  intros Hpq. induction s as [|c s IH]; [reflexivity|].
  cbn [all_of]. rewrite !andb_true_iff. intros [Hc Hs]. auto.
Qed.

Lemma digit_is_not sep c :
  strconv.is_digit sep = false -> strconv.is_digit c = true ->
  negb (Ascii.eqb c sep) = true.
Proof.
  intros Hsep Hc. destruct (Ascii.eqb_spec c sep) as [->|]; [congruence|reflexivity].
Qed.

Lemma Split_not_nil s sep : strings.Split s sep <> [].
Proof.
  destruct s as [|c s]; cbn [strings.Split]; [discriminate|].
  destruct (Ascii.eqb c sep); [discriminate|].
  destruct (strings.Split s sep); discriminate.
Qed.

Lemma Split_without sep s :
  all_of (fun c => negb (Ascii.eqb c sep)) s = true -> strings.Split s sep = [s].
Proof.
  induction s as [|c s IH]; [reflexivity|].
  cbn [all_of strings.Split]. rewrite andb_true_iff, negb_true_iff. intros [-> Hs].
  rewrite (IH Hs). reflexivity.
Qed.

(** Splitting what was joined with the separator. *)
Lemma Split_join sep y d :
  strings.Split (y +:+ String sep d) sep = strings.Split y sep ++ strings.Split d sep.
Proof.
  induction y as [|c y IH].
  - rewrite append_empty_l. cbn [strings.Split]. rewrite Ascii.eqb_refl. reflexivity.
  - rewrite append_cons. cbn [strings.Split]. rewrite IH.
    destruct (Ascii.eqb c sep); [reflexivity|].
    pose proof (Split_not_nil y sep).
    destruct (strings.Split y sep); [contradiction|reflexivity].
Qed.

(** Appending text without separator extends the last part. *)
Lemma Split_extend sep y s :
  all_of (fun c => negb (Ascii.eqb c sep)) s = true ->
  exists init l, strings.Split y sep = init ++ [l] /\
                 strings.Split (y +:+ s) sep = init ++ [l +:+ s].
Proof.
  intros Hs. induction y as [|c y (init & l & Hy & Hys)].
  - exists [], "". rewrite append_empty_l, (Split_without _ _ Hs). auto.
  - rewrite append_cons. cbn [strings.Split]. rewrite Hy, Hys.
    destruct (Ascii.eqb c sep).
    + exists ("" :: init), l. auto.
    + destruct init as [|i init]; cbn [app].
      * exists [], (String c l). auto.
      * exists (String c i :: init), l. auto.
Qed.

Lemma last_snoc {A} (l : list A) x d : List.last (l ++ [x]) d = x.
Proof. apply last_last. Qed.

Lemma concat_snoc sep l c :
  exists pre, String.concat sep (l ++ [c]) = pre +:+ c.
Proof.
  induction l as [|x l (pre & IH)].
  - exists "". reflexivity.
  - destruct l as [|y l].
    + exists (x +:+ sep). cbn. rewrite append_assoc. reflexivity.
    + exists (x +:+ sep +:+ pre).
      change (String.concat sep ((x :: y :: l) ++ [c]))
        with (x +:+ sep +:+ String.concat sep ((y :: l) ++ [c])).
      rewrite IH, !append_assoc. reflexivity.
Qed.

Lemma dashed_component l s :
  strings.Contains s "-" = true ->
  String.eqb (l +:+ s) "" || String.eqb (l +:+ s) "." = false /\
  String.eqb (l +:+ s) ".." = false.
Proof.
  intros Hs.
  assert (Hc : strings.Contains (l +:+ s) "-" = true).
  { apply Contains_spec. apply Contains_spec in Hs as (pre & post & ->).
    exists (l +:+ pre), post. rewrite append_assoc. reflexivity. }
  split.
  - destruct (String.eqb_spec (l +:+ s) "") as [E|_]; [rewrite E in Hc; discriminate|].
    destruct (String.eqb_spec (l +:+ s) ".") as [E|_]; [rewrite E in Hc; discriminate|].
    reflexivity.
  - destruct (String.eqb_spec (l +:+ s) "..") as [E|_]; [rewrite E in Hc; discriminate|].
    reflexivity.
Qed.

(** [path.Clean] keeps a tail of the path that has no slash and holds a
    dash: such a tail ends a component that is neither empty nor a dot
    name. *)
Lemma Clean_keeps_tail y s :
  all_of (fun c => negb (Ascii.eqb c "/")) s = true ->
  strings.Contains s "-" = true ->
  exists pre, path.Clean (y +:+ s) = pre +:+ s.
Proof.
  intros Hslash Hdash. unfold path.Clean.
  destruct (Split_extend "/" y s Hslash) as (init & l & _ & ->).
  rewrite fold_left_app. cbn [fold_left].
  destruct (dashed_component l s Hdash) as [H1 H2].
  set (rooted := String.prefix "/" (y +:+ s)).
  set (stack := fold_left (path.clean_step rooted) init []).
  assert (Hstep : path.clean_step rooted stack (l +:+ s) = (l +:+ s) :: stack).
  { unfold path.clean_step. rewrite H1, H2. reflexivity. }
  rewrite Hstep. cbn [List.rev].
  destruct (concat_snoc "/" (List.rev stack) (l +:+ s)) as (pre & ->).
  destruct rooted.
  - exists ("/" +:+ pre +:+ l). rewrite !append_assoc. reflexivity.
  - destruct (String.eqb_spec (pre +:+ l +:+ s) "") as [E|_].
    + apply append_eq_empty in E as [_ E]. apply append_eq_empty in E as [_ ->].
      discriminate Hdash.
    + exists (pre +:+ l). rewrite append_assoc. reflexivity.
Qed.

(** ** What was sent parses back *)

Lemma Sprintf_03d_digits n :
  0 <= n -> run strconv.is_digit (fmt.Sprintf_03d n).
Proof.
  intros Hn. unfold fmt.Sprintf_03d.
  destruct (n <? 0) eqn:Hneg; [apply Z.ltb_lt in Hneg; lia|].
  apply pad_zero_decimal.
Qed.

Lemma parseSequenceCounter_tail pre d n :
  run strconv.is_digit d -> strconv.ParseInt d = inl n ->
  parseSequenceCounter (pre +:+ String "-" d) = n.
Proof.
  intros [Hne Hall] Hparse. unfold parseSequenceCounter, path.Split. cbn [snd].
  assert (Hslash : all_of (fun c => negb (Ascii.eqb c "/")) (String "-" d) = true).
  { cbn [all_of]. apply andb_true_iff. split; [reflexivity|].
    apply (all_of_impl strconv.is_digit); [|assumption].
    intros c Hc. apply (digit_is_not "/" c); [reflexivity|assumption]. }
  destruct (Split_extend "/" pre (String "-" d) Hslash) as (init & l & _ & ->).
  rewrite last_snoc, Split_join.
  rewrite (Split_without "-" d).
  - rewrite last_snoc, Hparse. reflexivity.
  - apply (all_of_impl strconv.is_digit); [|assumption].
    intros c Hc. apply (digit_is_not "-" c); [reflexivity|assumption].
Qed.

Lemma sequenceID_tail y m start n :
  y +:+ sequenceID m start n
  = (y +:+ m +:+ "-" +:+ start) +:+ String "-" (fmt.Sprintf_03d n).
Proof. unfold sequenceID. rewrite !append_assoc. reflexivity. Qed.

Lemma parseSequenceCounter_name m start n :
  0 <= n <= max_int64 -> parseSequenceCounter (sequenceID m start n) = n.
Proof.
  intros Hn.
  rewrite <- (append_empty_l (sequenceID m start n)), sequenceID_tail.
  apply parseSequenceCounter_tail;
    [apply Sprintf_03d_digits; lia|apply ParseInt_Sprintf_03d; assumption].
Qed.

Lemma parseSequenceCounter_Join dir m start n :
  0 <= n <= max_int64 ->
  parseSequenceCounter (path.Join dir (sequenceID m start n)) = n.
Proof.
  intros Hn.
  pose proof (Sprintf_03d_digits n (proj1 Hn)) as Hrun.
  pose proof (ParseInt_Sprintf_03d n Hn) as Hparse.
  assert (Hslash : all_of (fun c => negb (Ascii.eqb c "/"))
                     (String "-" (fmt.Sprintf_03d n)) = true).
  { cbn [all_of]. apply andb_true_iff. split; [reflexivity|].
    apply (all_of_impl strconv.is_digit); [|apply Hrun].
    intros c Hc. apply (digit_is_not "/" c); [reflexivity|assumption]. }
  assert (Hdash : strings.Contains (String "-" (fmt.Sprintf_03d n)) "-" = true).
  { apply Contains_spec. exists "", (fmt.Sprintf_03d n). reflexivity. }
  assert (Hjoin : exists y, path.Join dir (sequenceID m start n)
                    = path.Clean (y +:+ String "-" (fmt.Sprintf_03d n))).
  { unfold path.Join.
    destruct (String.eqb_spec (sequenceID m start n) "") as [E|_].
    { unfold sequenceID in E. apply append_eq_empty in E as [_ E]. discriminate. }
    destruct (String.eqb dir "").
    - exists ("" +:+ m +:+ "-" +:+ start). rewrite <- sequenceID_tail. reflexivity.
    - exists ((dir +:+ "/") +:+ m +:+ "-" +:+ start).
      rewrite <- sequenceID_tail, append_assoc. reflexivity. }
  destruct Hjoin as (y & ->).
  destruct (Clean_keeps_tail y _ Hslash Hdash) as (pre & ->).
  apply parseSequenceCounter_tail; assumption.
Qed.

(** X8: the counter that [Send] writes into a name is the counter that
    [parseSequenceCounter] reads from it, whatever the directory, the
    mode and the start time: the receiver parses out of the path of a
    message the counter its sender had. *)
Theorem parseSequenceCounter_sequenceID dir m start n :
  0 <= n <= max_int64 ->
  parseSequenceCounter (path.Join dir (sequenceID m start n)) = n /\
  parseSequenceCounter (sequenceID m start n) = n.
Proof.
  intros Hn. split;
    [apply parseSequenceCounter_Join|apply parseSequenceCounter_name]; assumption.
Qed.

Lemma parseSequenceCounter_sequenceID_witness :
  0 <= 1000 <= max_int64 /\
  parseSequenceCounter (path.Join "/var/chan" (sequenceID "master" "20200101120000" 1000))
    = 1000.
Proof.
  assert (H : 0 <= 1000 <= max_int64) by (vm_compute; split; discriminate).
  split; [exact H|].
  exact (proj1 (parseSequenceCounter_sequenceID "/var/chan" "master" "20200101120000"
                  1000 H)).
Defined.

(** X9: one instance never gives two messages the same name: names with
    different counters differ. *)
Theorem sequenceID_injective m start a b :
  0 <= a <= max_int64 -> 0 <= b <= max_int64 ->
  sequenceID m start a = sequenceID m start b -> a = b.
Proof.
  intros Ha Hb Heq.
  pose proof (parseSequenceCounter_name m start a Ha) as Pa.
  pose proof (parseSequenceCounter_name m start b Hb) as Pb.
  congruence.
Qed.

Lemma sequenceID_injective_witness :
  0 <= 999 <= max_int64 /\ 0 <= 1000 <= max_int64 /\
  sequenceID "master" "20200101120000" 999 <> sequenceID "master" "20200101120000" 1000.
Proof.
  assert (Ha : 0 <= 999 <= max_int64) by (vm_compute; split; discriminate).
  assert (Hb : 0 <= 1000 <= max_int64) by (vm_compute; split; discriminate).
  split; [exact Ha|]. split; [exact Hb|].
  intros Heq.
  pose proof (sequenceID_injective "master" "20200101120000" 999 1000 Ha Hb Heq) as H.
  discriminate H.
Defined.

(** ** A send that succeeds, and its delivery *)

Lemma Send_success_files rawJson ch w :
  snd (Send rawJson (ch, w)) = None ->
  let seq := sequenceID (mode ch) (startTime ch) (counter ch) in
  let ko := path.Clean (path.Join (tmpPath ch) seq) in
  let kn := path.Clean (path.Join (path ch) seq) in
  Send rawJson (ch, w) =
    ((set_counter (wrap_int (counter ch + 1)) ch,
      set_files (<[kn := File rawJson false]>
                   (delete ko (<[ko := File rawJson false]> (files w)))) w),
     None).
Proof.
  intros Hnil seq ko kn. revert Hnil. unfold Send.
  destruct (closed ch); [intros H; discriminate H|].
  fold seq.
  destruct (ioutil.WriteFile (path.Join (tmpPath ch) seq) rawJson (files w))
    as [fs1 [e|]] eqn:Hw; [intros H; discriminate H|].
  destruct (os.Rename (path.Join (tmpPath ch) seq) (path.Join (path ch) seq) fs1)
    as [fs2 [e|]] eqn:Hr; [intros H; discriminate H|].
  intros _.
  apply WriteFile_ok in Hw. subst fs1.
  apply Rename_ok in Hr as (c & l & Hlook & ->).
  fold ko in Hlook. rewrite lookup_insert_eq in Hlook. injection Hlook as <- <-.
  reflexivity.
Qed.

(** X10: when [Send] returns nil the message file holds exactly the
    payload, the staging file is gone, no other path of the file system
    has changed, and nothing was logged. *)
Theorem Send_success rawJson ch w :
  snd (Send rawJson (ch, w)) = None ->
  let seq := sequenceID (mode ch) (startTime ch) (counter ch) in
  let tmp_filepath := path.Join (tmpPath ch) seq in
  let filepath := path.Join (path ch) seq in
  let w' := snd (fst (Send rawJson (ch, w))) in
  ioutil.ReadFile filepath (files w') = inl rawJson /\
  (path.Clean tmp_filepath <> path.Clean filepath ->
   files w' !! path.Clean tmp_filepath = None) /\
  (forall k, k <> path.Clean tmp_filepath -> k <> path.Clean filepath ->
     files w' !! k = files w !! k) /\
  log w' = log w /\ goroutines w' = goroutines w.
Proof.
  intros Hnil seq tmp_filepath filepath w'. subst w'.
  rewrite (Send_success_files _ _ _ Hnil). cbn [fst snd files set_files log goroutines].
  fold seq. fold tmp_filepath. fold filepath.
  split; [unfold ioutil.ReadFile; rewrite lookup_insert_eq; reflexivity|].
  split; [intros Hne; rewrite lookup_insert_ne by congruence; apply lookup_delete_eq|].
  split; [|auto].
  intros k Hko Hkn.
  rewrite lookup_insert_ne by congruence.
  rewrite lookup_delete_ne by congruence.
  rewrite lookup_insert_ne by congruence. reflexivity.
Qed.

Lemma Send_success_witness :
  let ch := Sample.chan "master" 0 0 in
  let w := Sample.world Sample.fs_empty in
  snd (Send "ping" (ch, w)) = None /\
  ioutil.ReadFile "/var/chan/master-20200101120000-000"
    (files (snd (fst (Send "ping" (ch, w))))) = inl "ping" /\
  files (snd (fst (Send "ping" (ch, w)))) !! "/var/chan/tmp/master-20200101120000-000"
    = None.
Proof.
  cbv zeta.
  assert (Hnil : snd (Send "ping" (Sample.chan "master" 0 0,
                                   Sample.world Sample.fs_empty)) = None)
    by (vm_compute; reflexivity).
  split; [exact Hnil|].
  destruct (Send_success "ping" (Sample.chan "master" 0 0)
              (Sample.world Sample.fs_empty) Hnil) as (H1 & H2 & _).
  split; [exact H1|]. apply H2. vm_compute. discriminate.
Defined.

(** X11: a message that one instance has sent and another consumes from
    the path it was sent to reaches the stream of the receiver with its
    payload, and the cursor of the receiver becomes the counter the
    sender has after the send; the file is removed, unless the system
    refuses the removal, in which case it stays with its payload. *)
Theorem Send_then_consume rawJson chS w chR :
  0 <= counter chS < max_int64 ->
  snd (Send rawJson (chS, w)) = None ->
  let filepath := path.Join (path chS)
                    (sequenceID (mode chS) (startTime chS) (counter chS)) in
  let sent := fst (Send rawJson (chS, w)) in
  let received := consume filepath (chR, snd sent) in
  onMessageChan (fst received) = onMessageChan chR ++ [rawJson] /\
  recvCounter (fst received) = counter (fst sent) /\
  recvCounter (fst received) = counter chS + 1 /\
  (path.Clean filepath ∉ protected w ->
   files (snd received) !! path.Clean filepath = None) /\
  (path.Clean filepath ∈ protected w ->
   ioutil.ReadFile filepath (files (snd received)) = inl rawJson).
Proof.
  intros Hrange Hnil filepath sent received.
  assert (Hparse : parseSequenceCounter filepath = counter chS)
    by (apply parseSequenceCounter_Join; lia).
  subst received sent. rewrite (Send_success_files _ _ _ Hnil).
  cbn [fst snd].
  assert (Hread : ioutil.ReadFile filepath
            (files (set_files
               (<[path.Clean filepath := File rawJson false]>
                  (delete (path.Clean (path.Join (tmpPath chS)
                     (sequenceID (mode chS) (startTime chS) (counter chS))))
                     (<[path.Clean (path.Join (tmpPath chS)
                          (sequenceID (mode chS) (startTime chS) (counter chS)))
                        := File rawJson false]> (files w)))) w)) = inl rawJson).
  { unfold ioutil.ReadFile. cbn [files set_files].
    rewrite lookup_insert_eq. reflexivity. }
  rewrite (consume_read_files _ _ _ _ Hread).
  rewrite (consume_read_ok _ _ _ _ Hread).
  cbn [fst snd onMessageChan recvCounter push set_recvCounter files set_files add_log
       counter set_counter protected].
  rewrite Hparse.
  rewrite wrap_int_id by (unfold min_int64, max_int64 in *; lia).
  split; [reflexivity|]. split; [reflexivity|]. split; [reflexivity|]. split.
  - intros Hfree. rewrite bool_decide_eq_false_2 by assumption.
    apply lookup_delete_eq.
  - intros Hheld. rewrite bool_decide_eq_true_2 by assumption.
    cbn [files set_files] in Hread. exact Hread.
Qed.

Lemma Send_then_consume_witness :
  let chS := Sample.chan "master" 41 0 in
  let w := Sample.world Sample.fs_empty in
  let received :=
    consume "/var/chan/master-20200101120000-041"
      (Sample.chan "worker" 0 41, snd (fst (Send "ping" (chS, w)))) in
  0 <= counter chS < max_int64 /\
  snd (Send "ping" (chS, w)) = None /\
  (path.Clean "/var/chan/master-20200101120000-041" ∉ protected w) /\
  onMessageChan (fst received) = ["ping"] /\
  recvCounter (fst received) = 42 /\
  files (snd received) !! "/var/chan/master-20200101120000-041" = None.
Proof.
  cbv zeta.
  assert (Hrange : 0 <= counter (Sample.chan "master" 41 0) < max_int64)
    by (vm_compute; split; [discriminate|reflexivity]).
  assert (Hnil : snd (Send "ping" (Sample.chan "master" 41 0,
                                   Sample.world Sample.fs_empty)) = None)
    by (vm_compute; reflexivity).
  assert (Hfree : path.Clean "/var/chan/master-20200101120000-041"
                  ∉ protected (Sample.world Sample.fs_empty))
    by apply not_elem_of_empty.
  split; [exact Hrange|]. split; [exact Hnil|]. split; [exact Hfree|].
  destruct (Send_then_consume "ping" (Sample.chan "master" 41 0)
              (Sample.world Sample.fs_empty) (Sample.chan "worker" 0 41)
              Hrange Hnil) as (H1 & _ & H3 & H4 & _).
  split; [exact H1|]. split; [exact H3|]. exact (H4 Hfree).
Defined.

(** ** The watch loop *)

(** X12: the watch loop ends when the event stream of the watcher is
    closed: what the watcher delivers after that is never looked at. *)
Theorem watch_loop_stops_when_closed pre post st :
  watch_loop (pre ++ EventsClosed :: post) st = watch_loop (pre ++ [EventsClosed]) st.
Proof.
  revert st. induction pre as [|msg pre IH]; intros st.
  - cbn [app watch_loop]. destruct st as [ch w]. reflexivity.
  - cbn [app watch_loop]. destruct (watch_step msg st) as [st' [|]]; [apply IH|reflexivity].
Qed.

Lemma passes_by_not_closed ch msg : passes_by ch msg = true -> msg <> EventsClosed.
Proof. intros H ->. discriminate H. Qed.

(** X13: errors of the watcher and events that are not creations of a
    qualifying name (writes, removals, renames, changes of mode, names
    of the instance itself or of the staging directory) never stop the
    loop and consume nothing: after any run of them the channel and the
    files are unchanged, and the loop goes on with the messages that
    follow. *)
Theorem watch_loop_passes_by msgs : forall ch w,
  forallb (passes_by ch) msgs = true ->
  fst (watch_loop msgs (ch, w)) = ch /\
  files (snd (watch_loop msgs (ch, w))) = files w /\
  goroutines (snd (watch_loop msgs (ch, w))) = goroutines w /\
  (forall rest,
     watch_loop (msgs ++ rest) (ch, w) = watch_loop rest (watch_loop msgs (ch, w))).
Proof.
  intros ch w Hall.
  assert (Hstate : fst (watch_loop msgs (ch, w)) = ch /\
                   files (snd (watch_loop msgs (ch, w))) = files w /\
                   goroutines (snd (watch_loop msgs (ch, w))) = goroutines w).
  { revert ch w Hall.
    induction msgs as [|msg msgs IH]; intros ch w Hall; [cbn; auto|].
    cbn [forallb] in Hall. apply andb_true_iff in Hall as [Hmsg Hall].
    cbn [watch_loop].
    destruct msg as [event| |[err|]]; cbn [passes_by] in Hmsg; try discriminate.
    - apply negb_true_iff in Hmsg. unfold watch_step. rewrite Hmsg.
      apply (IH ch (add_log _ w) Hall).
    - unfold watch_step. apply (IH ch (add_log _ w) Hall).
    - unfold watch_step. apply (IH ch w Hall). }
  destruct Hstate as (H1 & H2 & H3). repeat split; try assumption.
  intros rest. apply watch_loop_app. apply List.Forall_forall.
  intros msg Hin. apply (passes_by_not_closed ch).
  rewrite forallb_forall in Hall. apply Hall, Hin.
Qed.

Lemma watch_loop_passes_by_witness :
  let ch := Sample.chan "worker" 0 2 in
  let w := Sample.world Pending.fs in
  let msgs :=
    [EventMsg {| fsnotify.Name := "/var/chan/master-20200101120000-002";
                 fsnotify.EvOp := fsnotify.Write |};
     ErrorMsg (Some (errorString "overflow"));
     EventMsg {| fsnotify.Name := "/var/chan/worker-20200101120000-000";
                 fsnotify.EvOp := fsnotify.Create |};
     EventMsg {| fsnotify.Name := "/var/chan/tmp";
                 fsnotify.EvOp := fsnotify.Create |}] in
  forallb (passes_by ch) msgs = true /\
  fst (watch_loop msgs (ch, w)) = ch /\
  files (snd (watch_loop msgs (ch, w))) = Pending.fs /\
  onMessageChan (fst (watch_loop (msgs ++ [EventMsg (Pending.created "002")]) (ch, w)))
    = ["m2"].
Proof.
  cbv zeta.
  assert (Hall : forallb (passes_by (Sample.chan "worker" 0 2))
    [EventMsg {| fsnotify.Name := "/var/chan/master-20200101120000-002";
                 fsnotify.EvOp := fsnotify.Write |};
     ErrorMsg (Some (errorString "overflow"));
     EventMsg {| fsnotify.Name := "/var/chan/worker-20200101120000-000";
                 fsnotify.EvOp := fsnotify.Create |};
     EventMsg {| fsnotify.Name := "/var/chan/tmp";
                 fsnotify.EvOp := fsnotify.Create |}] = true)
    by (vm_compute; reflexivity).
  split; [exact Hall|].
  destruct (watch_loop_passes_by _ (Sample.chan "worker" 0 2)
              (Sample.world Pending.fs) Hall) as (H1 & H2 & _ & H4).
  split; [exact H1|]. split; [exact H2|].
  rewrite H4. vm_compute. reflexivity.
Defined.

(** ** Rows and fields *)

Lemma append_empty_r (a : string) : a +:+ "" = a.
Proof.
  induction a as [|x a IH]; [reflexivity|]. rewrite append_cons, IH. reflexivity.
Qed.

Lemma words_go_token a : forall cur,
  all_of nonspace a = true ->
  String.words_go (Some cur) a = [String.rev_app cur a].
Proof.
  induction a as [|c a IH]; intros cur Ha; [reflexivity|].
  cbn [all_of] in Ha. apply andb_true_iff in Ha as [Hc Ha].
  unfold nonspace in Hc. apply negb_true_iff in Hc.
  cbn [String.words_go]. rewrite Hc. cbn [from_option]. rewrite (IH _ Ha). reflexivity.
Qed.

Lemma words_go_token_space a : forall cur c s,
  all_of nonspace a = true -> Ascii.is_space c = true ->
  String.words_go (Some cur) (a +:+ String c s)
  = String.rev_app cur a :: String.words_go None s.
Proof.
  induction a as [|x a IH]; intros cur c s Ha Hc.
  - rewrite append_empty_l. cbn [String.words_go]. rewrite Hc. reflexivity.
  - cbn [all_of] in Ha. apply andb_true_iff in Ha as [Hx Ha].
    unfold nonspace in Hx. apply negb_true_iff in Hx.
    rewrite append_cons. cbn [String.words_go]. rewrite Hx. cbn [from_option].
    rewrite (IH _ _ _ Ha Hc). reflexivity.
Qed.

Lemma words_go_spaces sp s :
  all_of Ascii.is_space sp = true ->
  String.words_go None (sp +:+ s) = String.words_go None s.
Proof.
  induction sp as [|c sp IH]; intros Hsp; [reflexivity|].
  cbn [all_of] in Hsp. apply andb_true_iff in Hsp as [Hc Hsp].
  rewrite append_cons. cbn [String.words_go]. rewrite Hc. exact (IH Hsp).
Qed.

Lemma words_go_start a0 a rest :
  nonspace a0 = true ->
  String.words_go None (String a0 a +:+ rest)
  = String.words_go (Some (String a0 "")) (a +:+ rest).
Proof.
  intros Ha. unfold nonspace in Ha. apply negb_true_iff in Ha.
  rewrite append_cons. cbn [String.words_go]. rewrite Ha. reflexivity.
Qed.

(** A token followed by spaces is one field. *)
Lemma Fields_token a sp :
  run nonspace a -> all_of Ascii.is_space sp = true ->
  String.words_go None (a +:+ sp) = [a].
Proof.
  intros [Hne Ha] Hsp. destruct a as [|a0 a]; [contradiction|].
  cbn [all_of] in Ha. apply andb_true_iff in Ha as [Ha0 Ha].
  rewrite (words_go_start _ _ _ Ha0).
  destruct sp as [|c sp].
  - rewrite (words_go_token (a +:+ "")).
    + cbn [String.rev_app]. rewrite append_empty_r. reflexivity.
    + rewrite all_of_app, Ha. reflexivity.
  - cbn [all_of] in Hsp. apply andb_true_iff in Hsp as [Hc Hsp].
    rewrite (words_go_token_space _ _ _ _ Ha Hc). cbn [String.rev_app].
    rewrite <- (append_empty_r sp), (words_go_spaces _ _ Hsp). reflexivity.
Qed.

(** Two tokens with spaces around them are two fields. *)
Lemma Fields_two sp1 a sp2 b sp3 :
  all_of Ascii.is_space sp1 = true -> run nonspace a ->
  run Ascii.is_space sp2 -> run nonspace b ->
  all_of Ascii.is_space sp3 = true ->
  strings.Fields (sp1 +:+ a +:+ sp2 +:+ b +:+ sp3) = [a; b].
Proof.
  intros Hsp1 [Hane Ha] [Hsne Hsp2] Hb Hsp3.
  unfold strings.Fields, String.words.
  rewrite (words_go_spaces _ _ Hsp1).
  destruct a as [|a0 a]; [contradiction|].
  cbn [all_of] in Ha. apply andb_true_iff in Ha as [Ha0 Ha].
  rewrite (words_go_start _ _ _ Ha0).
  destruct sp2 as [|c sp2]; [contradiction|].
  cbn [all_of] in Hsp2. apply andb_true_iff in Hsp2 as [Hc Hsp2].
  rewrite append_cons, (words_go_token_space _ _ _ _ Ha Hc).
  cbn [String.rev_app]. rewrite (words_go_spaces _ _ Hsp2).
  rewrite (Fields_token _ _ Hb Hsp3). reflexivity.
Qed.

Lemma Fields_one a : run nonspace a -> strings.Fields a = [a].
Proof.
  intros Ha. unfold strings.Fields, String.words.
  rewrite <- (append_empty_r a) at 1. apply Fields_token; [assumption|reflexivity].
Qed.

(** ** The process lookup on well-formed tables *)

Lemma digit_nonspace c : strconv.is_digit c = true -> nonspace c = true.
Proof.
  destruct c as [[] [] [] [] [] [] [] []]; vm_compute; intros H;
    first [discriminate H | reflexivity].
Qed.

Lemma ParseInt_decimal n :
  0 <= n <= max_int64 -> strconv.ParseInt (fmt.decimal (Z.to_N n)) = inl n.
Proof.
  intros [Hlo Hhi].
  destruct (pad_zero_decimal 0 (Z.to_N n)) as [Hrun Hp].
  unfold fmt.pad_zero in Hrun, Hp. cbn [Nat.sub fmt.zeros] in Hrun, Hp.
  rewrite append_empty_l in Hrun, Hp.
  apply ParseInt_digits; [assumption| |assumption].
  rewrite Hp. f_equal. lia.
Qed.

Lemma decimal_token n : run nonspace (fmt.decimal n).
Proof.
  destruct (pad_zero_decimal 0 n) as [[Hne Hall] _].
  unfold fmt.pad_zero in Hne, Hall. cbn [Nat.sub fmt.zeros] in Hne, Hall.
  rewrite append_empty_l in Hne, Hall.
  split; [assumption|].
  apply (all_of_impl strconv.is_digit); [apply digit_nonspace|assumption].
Qed.

(** A row that shows the pid in decimal and the token, with any padding,
    matches. *)
Lemma row_matches_printed pid token sp1 sp2 sp3 :
  0 <= pid <= max_int64 -> run nonspace token ->
  all_of Ascii.is_space sp1 = true -> run Ascii.is_space sp2 ->
  all_of Ascii.is_space sp3 = true ->
  Table.row_matches pid token
    (sp1 +:+ fmt.decimal (Z.to_N pid) +:+ sp2 +:+ token +:+ sp3) = true.
Proof.
  intros Hpid Htok H1 H2 H3. unfold Table.row_matches.
  rewrite (Fields_two _ _ _ _ _ H1 (decimal_token _) H2 Htok H3).
  rewrite (ParseInt_decimal _ Hpid), Z.eqb_refl, String.eqb_refl. reflexivity.
Qed.

(** X14: a process whose row shows its pid in decimal and the expected
    start-time token, with whatever blanks around the two columns, is
    reported alive, provided no row before it has two fields and a pid
    field that fails to parse. *)
Theorem find_process_finds pid token sp1 sp2 sp3 output pre post :
  0 <= pid <= max_int64 -> run nonspace token ->
  all_of Ascii.is_space sp1 = true -> run Ascii.is_space sp2 ->
  all_of Ascii.is_space sp3 = true ->
  Table.rows output
    = pre ++ (sp1 +:+ fmt.decimal (Z.to_N pid) +:+ sp2 +:+ token +:+ sp3) :: post ->
  Forall (fun r => Table.row_unparsable r = None) pre ->
  proc.find_process (output, None) pid token = (true, None).
Proof.
  intros Hpid Htok H1 H2 H3 Hrows Hpre.
  cbn [proc.find_process]. fold (Table.rows output).
  apply scan_found. eexists pre, _, post. split; [exact Hrows|]. split; [|exact Hpre].
  apply row_matches_printed; assumption.
Qed.

Lemma no_LF_header h body :
  all_of (fun c => negb (Ascii.eqb c "010")) h = true ->
  Table.rows (h +:+ LF +:+ body) = strings.Split body "010".
Proof.
  intros Hh. unfold Table.rows, LF. rewrite append_cons, append_empty_l.
  rewrite Split_join, (Split_without _ _ Hh). reflexivity.
Qed.

(** X15: the first line of the table is taken for the header and never
    examined: the answer does not depend on it, and a table of a single
    line, be it the row of the process, gives false. *)
Theorem find_process_skips_header h1 h2 body pid startTime :
  all_of (fun c => negb (Ascii.eqb c "010")) h1 = true ->
  all_of (fun c => negb (Ascii.eqb c "010")) h2 = true ->
  proc.find_process (h1 +:+ LF +:+ body, None) pid startTime
    = proc.find_process (h2 +:+ LF +:+ body, None) pid startTime /\
  proc.find_process (h1, None) pid startTime = (false, None).
Proof.
  intros H1 H2. split.
  - cbn [proc.find_process].
    fold (Table.rows (h1 +:+ LF +:+ body)). fold (Table.rows (h2 +:+ LF +:+ body)).
    rewrite !no_LF_header by assumption. reflexivity.
  - cbn [proc.find_process]. rewrite (Split_without _ _ H1). reflexivity.
Qed.

Lemma find_process_skips_header_witness :
  all_of (fun c => negb (Ascii.eqb c "010")) "   42 10:00:01" = true /\
  proc.find_process ("   42 10:00:01", None) 42 "10:00:01" = (false, None).
Proof.
  split; [reflexivity|].
  exact (proj2 (find_process_skips_header "   42 10:00:01" "   42 10:00:01" ""
                  42 "10:00:01" eq_refl eq_refl)).
Defined.

Lemma find_process_finds_witness :
  let output := "  PID  STARTED" +:+ LF +:+ "    1 09:00:00" +:+ LF +:+
                "malformed row here" +:+ LF +:+ "   42  10:00:01 " +:+ LF in
  0 <= 42 <= max_int64 /\
  proc.find_process (output, None) 42 "10:00:01" = (true, None).
Proof.
  cbv zeta.
  assert (Hpid : 0 <= 42 <= max_int64) by (vm_compute; split; discriminate).
  split; [exact Hpid|].
  apply (find_process_finds 42 "10:00:01" "   " "  " " " _
           ["    1 09:00:00"; "malformed row here"] [""] Hpid).
  - split; [discriminate|reflexivity].
  - reflexivity.
  - split; [discriminate|reflexivity].
  - reflexivity.
  - vm_compute. reflexivity.
  - repeat constructor.
Defined.

(** ** The start-time token *)

Lemma Sprintf_02d_two_digits x :
  0 <= x < 100 ->
  String.length (fmt.Sprintf_0d 2 x) = 2%nat /\
  all_of strconv.is_digit (fmt.Sprintf_0d 2 x) = true.
Proof.
  intros Hx.
  assert (Hall : forallb
            (fun k => Nat.eqb (String.length (fmt.Sprintf_0d 2 (Z.of_nat k))) 2
                      && all_of strconv.is_digit (fmt.Sprintf_0d 2 (Z.of_nat k)))
            (seq 0 100) = true) by (vm_compute; reflexivity).
  rewrite forallb_forall in Hall.
  specialize (Hall (Z.to_nat x)). rewrite Z2Nat.id in Hall by lia.
  assert (Hin : In (Z.to_nat x) (seq 0 100)) by (apply in_seq; lia).
  apply Hall in Hin. apply andb_true_iff in Hin as [Hlen Hdig].
  apply Nat.eqb_eq in Hlen. auto.
Qed.

Lemma length_append (a b : string) :
  String.length (a +:+ b) = (String.length a + String.length b)%nat.
Proof.
  induction a as [|c a IH]; [reflexivity|].
  rewrite append_cons. cbn [String.length]. rewrite IH. reflexivity.
Qed.

(** X16: for a time of the day [get_current_time] returns a token of
    eight bytes, digits and colons only, which [strings.Fields] takes for
    one field: it can be compared with the second field of a row. *)
Theorem get_current_time_token curtime :
  0 <= time.Hour curtime < 24 -> 0 <= time.Minute curtime < 60 ->
  0 <= time.Second curtime < 60 ->
  String.length (proc.get_current_time curtime) = 8%nat /\
  all_of (fun c => strconv.is_digit c || Ascii.eqb c ":")
    (proc.get_current_time curtime) = true /\
  strings.Fields (proc.get_current_time curtime) = [proc.get_current_time curtime].
Proof.
  intros Hh Hm Hs. unfold proc.get_current_time.
  destruct (Sprintf_02d_two_digits (time.Hour curtime) ltac:(lia)) as [Lh Dh].
  destruct (Sprintf_02d_two_digits (time.Minute curtime) ltac:(lia)) as [Lm Dm].
  destruct (Sprintf_02d_two_digits (time.Second curtime) ltac:(lia)) as [Ls Ds].
  set (h := fmt.Sprintf_0d 2 (time.Hour curtime)) in *.
  set (m := fmt.Sprintf_0d 2 (time.Minute curtime)) in *.
  set (s := fmt.Sprintf_0d 2 (time.Second curtime)) in *.
  assert (Hclass : forall p : ascii -> bool,
            (forall c, strconv.is_digit c = true -> p c = true) -> p ":"%char = true ->
            all_of p (h +:+ ":" +:+ m +:+ ":" +:+ s) = true).
  { intros p Hp Hcolon. rewrite !all_of_app. cbn [all_of]. rewrite Hcolon.
    rewrite (all_of_impl _ p h Hp Dh), (all_of_impl _ p m Hp Dm),
            (all_of_impl _ p s Hp Ds). reflexivity. }
  split; [rewrite !length_append, Lh, Lm, Ls; reflexivity|]. split.
  - apply Hclass; [intros c ->; reflexivity|reflexivity].
  - apply Fields_one. split.
    + intros E. apply (f_equal String.length) in E.
      rewrite !length_append, Lh in E. discriminate E.
    + apply Hclass; [apply digit_nonspace|reflexivity].
Qed.

Lemma get_current_time_token_witness :
  let t := {| time.Year := 2020; time.Month := 1; time.Day := 1;
              time.Hour := 9; time.Minute := 5; time.Second := 0 |} in
  (0 <= time.Hour t < 24 /\ 0 <= time.Minute t < 60 /\ 0 <= time.Second t < 60) /\
  proc.get_current_time t = "09:05:00" /\
  strings.Fields (proc.get_current_time t) = ["09:05:00"].
Proof.
  cbv zeta.
  assert (Hh : 0 <= 9 < 24) by lia. assert (Hm : 0 <= 5 < 60) by lia.
  assert (Hs : 0 <= 0 < 60) by lia.
  split; [exact (conj Hh (conj Hm Hs))|]. split; [reflexivity|].
  exact (proj2 (proj2 (get_current_time_token
           {| time.Year := 2020; time.Month := 1; time.Day := 1;
              time.Hour := 9; time.Minute := 5; time.Second := 0 |} Hh Hm Hs))).
Defined.

(** ** Creating the directories *)

Lemma ancestors_from_head fuel k :
  exists rest, os.ancestors_from fuel k = k :: rest.
Proof.
  destruct fuel as [|fuel]; cbn [os.ancestors_from]; [eauto|].
  destruct (String.eqb (os.parent k) k); eauto.
Qed.

Lemma ancestors_self k : k ∈ os.ancestors k.
Proof.
  unfold os.ancestors. destruct (ancestors_from_head (String.length k) k) as (rest & ->).
  apply elem_of_cons. left. reflexivity.
Qed.

Lemma mkdirs_lookup l (fs : gmap string node) p :
  fold_right (fun p m => match m !! p with
                         | None => <[p := Dir]> m
                         | Some _ => m
                         end) fs l !! p
  = match fs !! p with
    | Some x => Some x
    | None => if bool_decide (p ∈ l) then Some Dir else None
    end.
Proof.
  induction l as [|a l IH]; cbn [fold_right].
  - destruct (fs !! p); [reflexivity|].
    rewrite bool_decide_eq_false_2 by apply not_elem_of_nil. reflexivity.
  - set (m := fold_right _ fs l) in *.
    destruct (decide (a = p)) as [->|Hne].
    + rewrite (bool_decide_eq_true_2 (p ∈ p :: l))
        by (apply elem_of_cons; left; reflexivity).
      destruct (m !! p) as [x|] eqn:Hm.
      * rewrite Hm. rewrite IH in Hm.
        destruct (fs !! p); [assumption|].
        destruct (bool_decide (p ∈ l)); [assumption|discriminate].
      * rewrite lookup_insert_eq. rewrite IH in Hm.
        destruct (fs !! p); [discriminate|reflexivity].
    + assert (Hrest : (match m !! a with
                       | Some _ => m
                       | None => <[a:=Dir]> m
                       end) !! p = m !! p).
      { destruct (m !! a); [reflexivity|]. apply lookup_insert_ne. assumption. }
      rewrite Hrest, IH. destruct (fs !! p); [reflexivity|].
      destruct (bool_decide_reflect (p ∈ l)) as [Hin|Hnin].
      * rewrite bool_decide_eq_true_2 by (apply elem_of_cons; right; assumption).
        reflexivity.
      * rewrite bool_decide_eq_false_2
          by (intros [E|E]%elem_of_cons; [congruence|contradiction]).
        reflexivity.
Qed.

Lemma existsb_false {A} (f : A -> bool) l :
  existsb f l = false <-> forall x, In x l -> f x = false.
Proof.
  induction l as [|a l IH]; cbn [existsb]; [split; [intros _ x []|reflexivity]|].
  rewrite orb_false_iff, IH. split.
  - intros [Ha Hl] x [<-|Hx]; auto.
  - intros H. split; [apply H; left; reflexivity|intros x Hx; apply H; right; assumption].
Qed.

Lemma MkdirAll_error name fs fs' err :
  os.MkdirAll name fs = (fs', Some err) -> fs' = fs.
Proof.
  unfold os.MkdirAll. destruct (existsb _ _); [|discriminate]. congruence.
Qed.

Lemma MkdirAll_ok name fs fs' :
  os.MkdirAll name fs = (fs', None) ->
  existsb (os.is_file fs) (os.ancestors (path.Clean name)) = false /\
  forall p, fs' !! p = match fs !! p with
                       | Some x => Some x
                       | None => if bool_decide (p ∈ os.ancestors (path.Clean name))
                                 then Some Dir else None
                       end.
Proof.
  unfold os.MkdirAll. destruct (existsb _ _) eqn:Hex; [discriminate|].
  intros [= <-]. split; [reflexivity|]. intros p. apply mkdirs_lookup.
Qed.

Lemma createIfNotExist_error dir fs fs' err :
  createIfNotExist dir fs = (fs', Some err) -> fs' = fs.
Proof.
  unfold createIfNotExist. destruct (os.IsNotExist _).
  - apply MkdirAll_error.
  - congruence.
Qed.

(** What a successful [createIfNotExist] leaves: the old entries, and
    directories for the path and for what was missing above it. *)
Lemma createIfNotExist_ok dir fs fs' :
  createIfNotExist dir fs = (fs', None) ->
  fs ⊆ fs' /\ is_Some (fs' !! path.Clean dir) /\
  (forall p x, fs' !! p = Some x -> fs !! p = None -> x = Dir) /\
  os.Stat dir fs' = None.
Proof.
  unfold createIfNotExist.
  destruct (os.IsNotExist (os.Stat dir fs)) eqn:Hne.
  - intros Hmk. apply MkdirAll_ok in Hmk as [Hfiles Hlook].
    assert (Hsub : fs ⊆ fs').
    { apply map_subseteq_spec. intros p x Hp. rewrite Hlook, Hp. reflexivity. }
    assert (Hself : is_Some (fs' !! path.Clean dir)).
    { rewrite Hlook. destruct (fs !! path.Clean dir); [eauto|].
      rewrite bool_decide_eq_true_2 by apply ancestors_self. eauto. }
    assert (Hnofile : forall p, In p (os.ancestors (path.Clean dir)) ->
                                os.is_file fs' p = false).
    { intros p Hp. unfold os.is_file. rewrite Hlook.
      rewrite existsb_false in Hfiles. specialize (Hfiles p Hp).
      apply list_elem_of_In in Hp.
      unfold os.is_file in Hfiles. destruct (fs !! p) as [[c l|]|]; try discriminate;
        [reflexivity|].
      rewrite bool_decide_eq_true_2 by assumption. reflexivity. }
    split; [assumption|]. split; [assumption|]. split.
    + intros p x Hp Hnone. rewrite Hlook, Hnone in Hp.
      destruct (bool_decide _); congruence.
    + unfold os.Stat.
      assert (Htl : existsb (os.is_file fs') (List.tl (os.ancestors (path.Clean dir))) = false).
      { apply existsb_false. intros p Hp. apply Hnofile.
        destruct (os.ancestors (path.Clean dir)); [destruct Hp|right; exact Hp]. }
      rewrite Htl. destruct Hself as [x ->]. reflexivity.
  - intros [= <- Hstat]. split; [reflexivity|].
    split; [|split; [intros p x Hp Hn; congruence|assumption]].
    unfold os.Stat in Hstat. destruct (existsb _ _); [discriminate|].
    destruct (fs !! path.Clean dir); [eauto|discriminate].
Qed.

(** X17: [createIfNotExist] removes and alters nothing; when it fails the
    files are untouched; when it succeeds the path exists afterwards,
    everything it has added is a directory, and calling it again changes
    nothing more. *)
Theorem createIfNotExist_creates dir fs :
  fs ⊆ fst (createIfNotExist dir fs) /\
  (forall err, snd (createIfNotExist dir fs) = Some err ->
     fst (createIfNotExist dir fs) = fs) /\
  (snd (createIfNotExist dir fs) = None ->
     is_Some (fst (createIfNotExist dir fs) !! path.Clean dir) /\
     (forall p x, fst (createIfNotExist dir fs) !! p = Some x -> fs !! p = None ->
                  x = Dir) /\
     createIfNotExist dir (fst (createIfNotExist dir fs))
       = (fst (createIfNotExist dir fs), None)).
Proof.
  destruct (createIfNotExist dir fs) as [fs' [err|]] eqn:Hc; cbn [fst snd].
  - rewrite (createIfNotExist_error _ _ _ _ Hc).
    split; [reflexivity|]. split; [reflexivity|discriminate].
  - destruct (createIfNotExist_ok _ _ _ Hc) as (Hsub & Hself & Hnew & Hstat).
    split; [assumption|]. split; [discriminate|]. intros _.
    split; [assumption|]. split; [assumption|].
    unfold createIfNotExist. rewrite Hstat. reflexivity.
Qed.

Lemma createIfNotExist_creates_witness :
  snd (createIfNotExist "/var/chan/tmp" Sample.fs_gone) = None /\
  fst (createIfNotExist "/var/chan/tmp" Sample.fs_gone) !! "/var/chan" = Some Dir /\
  is_Some (fst (createIfNotExist "/var/chan/tmp" Sample.fs_gone) !! "/var/chan/tmp").
Proof.
  assert (Hnil : snd (createIfNotExist "/var/chan/tmp" Sample.fs_gone) = None)
    by (vm_compute; reflexivity).
  split; [exact Hnil|]. split; [vm_compute; reflexivity|].
  exact (proj1 (proj2 (proj2 (createIfNotExist_creates "/var/chan/tmp" Sample.fs_gone))
                  Hnil)).
Defined.

(** ** The constructor *)

Lemma abandon_result format name err w :
  abandon format name err w =
    (None,
     set_files (fst (os.RemoveAll (protected w) name (files w)))
       (add_log (Logf LError format [AErr err]) w),
     Some err).
Proof. reflexivity. Qed.

(** An entry in use after directories have been added was in use before. *)
Lemma in_use_added (fs0 fs : gmap string node) p :
  fs0 ⊆ fs -> (forall q x, fs !! q = Some x -> fs0 !! q = None -> x = Dir) ->
  os.in_use fs p = true -> os.in_use fs0 p = true.
Proof.
  unfold os.in_use. intros Hsub Hdirs Hp.
  destruct (fs !! p) as [x|] eqn:Hx; [|discriminate].
  destruct (fs0 !! p) as [y|] eqn:Hy.
  - rewrite (lookup_weaken _ _ _ _ Hy Hsub) in Hx. injection Hx as ->. exact Hp.
  - rewrite (Hdirs p x Hx Hy) in Hp. discriminate.
Qed.

Lemma abandon_files format name err w fs0 k :
  fs0 ⊆ files w ->
  (forall q x, files w !! q = Some x -> fs0 !! q = None -> x = Dir) ->
  (forall x, os.under (path.Clean name) k = true ->
   files (snd (fst (abandon format name err w))) !! k = Some x ->
   exists p, os.under (path.Clean name) p = true /\ os.under k p = true /\
     (p ∈ protected w \/ os.in_use fs0 p = true)) /\
  (forall x, os.under (path.Clean name) k = false -> fs0 !! k = Some x ->
   files (snd (fst (abandon format name err w))) !! k = Some x).
Proof.
  intros Hsub Hdirs. rewrite abandon_result.
  cbn [fst snd files set_files add_log protected]. split.
  - intros x Hu Hk.
    destruct (RemoveAll_left _ _ _ _ _ Hu Hk) as (q & Hroot & Hkq & _ & Hr).
    exists q. split; [assumption|]. split; [assumption|].
    unfold os.unremovable in Hr. apply orb_true_iff in Hr as [Hr|Hr].
    + left. apply bool_decide_eq_true in Hr. exact Hr.
    + right. exact (in_use_added _ _ _ Hsub Hdirs Hr).
  - intros x Hu Hk. rewrite RemoveAll_outside by assumption.
    exact (lookup_weaken _ _ _ _ Hk Hsub).
Qed.

Lemma NewFileWatcherChannel_no_channel curTime setup m name w err :
  snd (NewFileWatcherChannel curTime setup m name w) = Some err ->
  fst (fst (NewFileWatcherChannel curTime setup m name w)) = None.
Proof.
  unfold NewFileWatcherChannel.
  destruct (createIfNotExist name (files w)) as [fs1 [e1|]]; [reflexivity|].
  destruct (createIfNotExist (path.Join name "tmp") fs1) as [fs2 [e2|]]; [reflexivity|].
  destruct (fsnotify.NewWatcher setup) as [e3|]; [reflexivity|].
  destruct (fsnotify.Add setup) as [e4|]; [reflexivity|].
  intros H. discriminate H.
Qed.

(** X18: when [NewFileWatcherChannel] fails, for whichever reason (a
    directory that cannot be created, a watcher that cannot be started
    or registered), no channel is returned, the error is logged, and the
    channel directory is removed as far as the system lets it, whether
    the constructor had created it or found it there: what is left at or
    below it is, or holds, an entry that the system refuses to remove or
    that is in use, so nothing is left when there is no such entry.
    What existed outside of the directory is untouched. *)
Theorem NewFileWatcherChannel_failure curTime setup m name w err :
  snd (NewFileWatcherChannel curTime setup m name w) = Some err ->
  let result := NewFileWatcherChannel curTime setup m name w in
  fst (fst result) = None /\
  (forall k x, os.under (path.Clean name) k = true ->
     files (snd (fst result)) !! k = Some x ->
     exists p, os.under (path.Clean name) p = true /\ os.under k p = true /\
       (p ∈ protected w \/ os.in_use (files w) p = true)) /\
  ((forall p, os.under (path.Clean name) p = true ->
      (p ∉ protected w) /\ os.in_use (files w) p = false) ->
   forall k, os.under (path.Clean name) k = true ->
     files (snd (fst result)) !! k = None) /\
  (forall k x, os.under (path.Clean name) k = false -> files w !! k = Some x ->
     files (snd (fst result)) !! k = Some x) /\
  (exists format, log (snd (fst result)) = log w ++ [Logf LError format [AErr err]]).
Proof.
  intros Herr result.
  assert (Hmain : fst (fst result) = None /\
    (forall k, (forall x, os.under (path.Clean name) k = true ->
        files (snd (fst result)) !! k = Some x ->
        exists p, os.under (path.Clean name) p = true /\ os.under k p = true /\
          (p ∈ protected w \/ os.in_use (files w) p = true)) /\
     (forall x, os.under (path.Clean name) k = false -> files w !! k = Some x ->
        files (snd (fst result)) !! k = Some x)) /\
    (exists format, log (snd (fst result)) = log w ++ [Logf LError format [AErr err]])).
  { subst result. revert Herr. unfold NewFileWatcherChannel.
    destruct (createIfNotExist name (files w)) as [fs1 [e1|]] eqn:H1.
    { intros [= ->]. apply createIfNotExist_error in H1. subst fs1.
      split; [reflexivity|]. split; [|eexists; reflexivity].
      intros k. apply (abandon_files _ _ _ (set_files (files w) w) (files w) k);
        [reflexivity|]. cbn [files set_files]. congruence. }
    destruct (createIfNotExist_ok _ _ _ H1) as (Hsub1 & _ & Hdir1 & _).
    destruct (createIfNotExist (path.Join name "tmp") fs1) as [fs2 [e2|]] eqn:H2.
    { intros [= ->]. apply createIfNotExist_error in H2. subst fs2.
      split; [reflexivity|]. split; [|eexists; reflexivity].
      intros k. apply (abandon_files _ _ _ (set_files fs1 w) (files w) k);
        [exact Hsub1|exact Hdir1]. }
    destruct (createIfNotExist_ok _ _ _ H2) as (Hsub2 & _ & Hdir2 & _).
    assert (Hsub : files w ⊆ files (set_files fs2 w))
      by (cbn [files set_files]; etransitivity; eassumption).
    assert (Hdir : forall q x, files (set_files fs2 w) !! q = Some x ->
                     files w !! q = None -> x = Dir).
    { cbn [files set_files]. intros q x Hq Hnone.
      destruct (fs1 !! q) as [y|] eqn:Hy.
      - rewrite (lookup_weaken _ _ _ _ Hy Hsub2) in Hq. injection Hq as <-.
        exact (Hdir1 q y Hy Hnone).
      - exact (Hdir2 q x Hq Hy). }
    destruct (fsnotify.NewWatcher setup) as [e3|].
    { intros [= ->]. split; [reflexivity|]. split; [|eexists; reflexivity].
      intros k. apply (abandon_files _ _ _ (set_files fs2 w) (files w) k);
        [exact Hsub|exact Hdir]. }
    destruct (fsnotify.Add setup) as [e4|].
    { intros [= ->]. split; [reflexivity|]. split; [|eexists; reflexivity].
      intros k. apply (abandon_files _ _ _ (set_files fs2 w) (files w) k);
        [exact Hsub|exact Hdir]. }
    intros H. discriminate H. }
  destruct Hmain as (Hnone & Hfiles & Hlog).
  split; [exact Hnone|]. split; [|split; [|split; [|exact Hlog]]].
  - intros k x. apply (proj1 (Hfiles k)).
  - intros Hfree k Hk.
    destruct (files (snd (fst result)) !! k) as [x|] eqn:Hx; [|reflexivity].
    destruct (proj1 (Hfiles k) x Hk Hx) as (q & Hroot & _ & [Hq|Hq]).
    + destruct (Hfree q Hroot) as [Hn _]. contradiction.
    + destruct (Hfree q Hroot) as [_ Hn]. congruence.
  - intros k x. apply (proj2 (Hfiles k)).
Qed.

Lemma NewFileWatcherChannel_success_form curTime setup m name w :
  snd (NewFileWatcherChannel curTime setup m name w) = None ->
  exists fs1 fs2,
    createIfNotExist name (files w) = (fs1, None) /\
    createIfNotExist (path.Join name "tmp") fs1 = (fs2, None) /\
    fsnotify.NewWatcher setup = None /\ fsnotify.Add setup = None /\
    NewFileWatcherChannel curTime setup m name w =
      (Some {| path := name;
               tmpPath := path.Join name "tmp";
               onMessageChan := [];
               mode := m;
               counter := 0;
               recvCounter := 0;
               startTime :=
                 fmt.Sprintf_0d 4 (time.Year curTime) +:+
                 fmt.Sprintf_0d 2 (time.Month curTime) +:+
                 fmt.Sprintf_0d 2 (time.Day curTime) +:+
                 fmt.Sprintf_0d 2 (time.Hour curTime) +:+
                 fmt.Sprintf_0d 2 (time.Minute curTime) +:+
                 fmt.Sprintf_0d 2 (time.Second curTime);
               closed := false |},
       set_files fs2 w, None).
Proof.
  unfold NewFileWatcherChannel.
  destruct (createIfNotExist name (files w)) as [fs1 [e1|]] eqn:H1;
    [intros H; discriminate H|].
  destruct (createIfNotExist (path.Join name "tmp") fs1) as [fs2 [e2|]] eqn:H2;
    [intros H; discriminate H|].
  destruct (fsnotify.NewWatcher setup) as [e3|]; [intros H; discriminate H|].
  destruct (fsnotify.Add setup) as [e4|]; [intros H; discriminate H|].
  intros _. exists fs1, fs2. repeat split; assumption.
Qed.

(** X19: when [NewFileWatcherChannel] succeeds the channel it returns is
    open, with both counters at zero, an empty stream, the given mode and
    directory and the staging directory [tmp] below it; the channel
    directory and the staging path exist, nothing that existed has been
    removed or altered, and nothing was logged. *)
Theorem NewFileWatcherChannel_success curTime setup m name w :
  snd (NewFileWatcherChannel curTime setup m name w) = None ->
  let result := NewFileWatcherChannel curTime setup m name w in
  exists ch,
    fst (fst result) = Some ch /\
    path ch = name /\ tmpPath ch = path.Join name "tmp" /\ mode ch = m /\
    counter ch = 0 /\ recvCounter ch = 0 /\ closed ch = false /\
    onMessageChan ch = [] /\
    files w ⊆ files (snd (fst result)) /\
    is_Some (files (snd (fst result)) !! path.Clean name) /\
    is_Some (files (snd (fst result)) !! path.Clean (path.Join name "tmp")) /\
    log (snd (fst result)) = log w.
Proof.
  intros Hnil result. subst result.
  destruct (NewFileWatcherChannel_success_form _ _ _ _ _ Hnil)
    as (fs1 & fs2 & H1 & H2 & _ & _ & ->).
  destruct (createIfNotExist_ok _ _ _ H1) as (Hsub1 & [x1 Hx1] & _).
  destruct (createIfNotExist_ok _ _ _ H2) as (Hsub2 & Hself2 & _).
  eexists. cbn [fst snd files set_files log].
  split; [reflexivity|]. cbn [path tmpPath mode counter recvCounter closed onMessageChan].
  repeat (split; [reflexivity|]).
  split; [etransitivity; eassumption|].
  split; [exists x1; exact (lookup_weaken _ _ _ _ Hx1 Hsub2)|].
  split; [assumption|reflexivity].
Qed.

Lemma Sprintf_04d_four_digits x :
  0 <= x < 10000 ->
  String.length (fmt.Sprintf_0d 4 x) = 4%nat /\
  all_of strconv.is_digit (fmt.Sprintf_0d 4 x) = true.
Proof.
  intros Hx.
  assert (Hall : forallb
            (fun a => forallb
               (fun b =>
                  Nat.eqb (String.length
                             (fmt.Sprintf_0d 4 (100 * Z.of_nat a + Z.of_nat b))) 4
                  && all_of strconv.is_digit
                       (fmt.Sprintf_0d 4 (100 * Z.of_nat a + Z.of_nat b)))
               (seq 0 100))
            (seq 0 100) = true) by (vm_compute; reflexivity).
  rewrite forallb_forall in Hall.
  specialize (Hall (Z.to_nat (x / 100))).
  assert (Ha : In (Z.to_nat (x / 100)) (seq 0 100)).
  { apply in_seq. pose proof (Z.div_pos x 100).
    assert (x / 100 < 100) by (apply Z.div_lt_upper_bound; lia). lia. }
  apply Hall in Ha. rewrite forallb_forall in Ha.
  specialize (Ha (Z.to_nat (x mod 100))).
  assert (Hb : In (Z.to_nat (x mod 100)) (seq 0 100)).
  { apply in_seq. pose proof (Z.mod_pos_bound x 100). lia. }
  apply Ha in Hb.
  rewrite !Z2Nat.id in Hb
    by (first [apply Z.div_pos; lia | apply Z.mod_pos_bound; lia]).
  rewrite <- Z.div_mod in Hb by lia.
  apply andb_true_iff in Hb as [Hlen Hdig].
  apply Nat.eqb_eq in Hlen. auto.
Qed.

(** X20: the start time of a channel constructed at a date of the years 0
    to 9999 is a string of exactly fourteen digits. *)
Theorem NewFileWatcherChannel_startTime curTime setup m name w ch :
  0 <= time.Year curTime < 10000 -> 1 <= time.Month curTime <= 12 ->
  1 <= time.Day curTime <= 31 -> 0 <= time.Hour curTime < 24 ->
  0 <= time.Minute curTime < 60 -> 0 <= time.Second curTime < 60 ->
  fst (fst (NewFileWatcherChannel curTime setup m name w)) = Some ch ->
  String.length (startTime ch) = 14%nat /\
  all_of strconv.is_digit (startTime ch) = true.
Proof.
  intros Hy Hmo Hd Hh Hmi Hs Hch.
  assert (Hnil : snd (NewFileWatcherChannel curTime setup m name w) = None).
  { destruct (snd (NewFileWatcherChannel curTime setup m name w)) as [err|] eqn:E;
      [|reflexivity].
    rewrite (NewFileWatcherChannel_no_channel _ _ _ _ _ _ E) in Hch. discriminate Hch. }
  destruct (NewFileWatcherChannel_success_form _ _ _ _ _ Hnil)
    as (fs1 & fs2 & _ & _ & _ & _ & Heq).
  rewrite Heq in Hch. cbn [fst] in Hch. injection Hch as <-. cbn [startTime].
  destruct (Sprintf_04d_four_digits (time.Year curTime) Hy) as [L1 D1].
  destruct (Sprintf_02d_two_digits (time.Month curTime) ltac:(lia)) as [L2 D2].
  destruct (Sprintf_02d_two_digits (time.Day curTime) ltac:(lia)) as [L3 D3].
  destruct (Sprintf_02d_two_digits (time.Hour curTime) ltac:(lia)) as [L4 D4].
  destruct (Sprintf_02d_two_digits (time.Minute curTime) ltac:(lia)) as [L5 D5].
  destruct (Sprintf_02d_two_digits (time.Second curTime) ltac:(lia)) as [L6 D6].
  split.
  - rewrite !length_append, L1, L2, L3, L4, L5, L6. reflexivity.
  - rewrite !all_of_app, D1, D2, D3, D4, D5, D6. reflexivity.
Qed.

Lemma NewFileWatcherChannel_failure_witness :
  let setup := {| fsnotify.NewWatcher := Some (errorString "too many open files");
                  fsnotify.Add := None |} in
  let t := {| time.Year := 2020; time.Month := 1; time.Day := 1;
              time.Hour := 12; time.Minute := 0; time.Second := 0 |} in
  let result := NewFileWatcherChannel t setup "worker" "/var/chan"
                  (Sample.world Pending.fs) in
  snd result = Some (errorString "too many open files") /\
  (forall p, os.under (path.Clean "/var/chan") p = true ->
     (p ∉ protected (Sample.world Pending.fs)) /\ os.in_use Pending.fs p = false) /\
  fst (fst result) = None /\
  files (snd (fst result)) !! "/var/chan" = None /\
  files (snd (fst result)) !! "/var/chan/master-20200101120000-002" = None /\
  files (snd (fst result)) !! "/var" = Some Dir.
Proof.
  cbv zeta.
  set (setup := {| fsnotify.NewWatcher := Some (errorString "too many open files");
                   fsnotify.Add := None |}).
  set (t := {| time.Year := 2020; time.Month := 1; time.Day := 1;
               time.Hour := 12; time.Minute := 0; time.Second := 0 |}).
  assert (Herr : snd (NewFileWatcherChannel t setup "worker" "/var/chan"
                        (Sample.world Pending.fs))
                 = Some (errorString "too many open files"))
    by (vm_compute; reflexivity).
  assert (Hfree : forall p, os.under (path.Clean "/var/chan") p = true ->
            (p ∉ protected (Sample.world Pending.fs)) /\ os.in_use Pending.fs p = false).
  { intros p _. split; [apply not_elem_of_empty|].
    unfold os.in_use. destruct (Pending.fs !! p) as [[c [|]|]|] eqn:Hp; try reflexivity.
    exfalso. apply elem_of_map_to_list in Hp. revert Hp. vm_compute.
    intros H; repeat (apply elem_of_cons in H as [H|H]; [discriminate H|]).
    apply not_elem_of_nil in H. exact H. }
  split; [exact Herr|]. split; [exact Hfree|].
  destruct (NewFileWatcherChannel_failure t setup "worker" "/var/chan"
              (Sample.world Pending.fs) _ Herr) as (H1 & _ & H2 & H3 & _).
  split; [exact H1|].
  split; [apply (H2 Hfree); vm_compute; reflexivity|].
  split; [apply (H2 Hfree); vm_compute; reflexivity|].
  apply H3; vm_compute; reflexivity.
Defined.

Lemma NewFileWatcherChannel_success_witness :
  let setup := {| fsnotify.NewWatcher := None; fsnotify.Add := None |} in
  let t := {| time.Year := 2020; time.Month := 1; time.Day := 1;
              time.Hour := 12; time.Minute := 0; time.Second := 0 |} in
  let result := NewFileWatcherChannel t setup "worker" "/var/chan"
                  (Sample.world Sample.fs_gone) in
  snd result = None /\
  fst (fst result) = Some (Sample.chan "worker" 0 0) /\
  is_Some (files (snd (fst result)) !! "/var/chan/tmp").
Proof.
  cbv zeta.
  set (setup := {| fsnotify.NewWatcher := None; fsnotify.Add := None |}).
  set (t := {| time.Year := 2020; time.Month := 1; time.Day := 1;
               time.Hour := 12; time.Minute := 0; time.Second := 0 |}).
  assert (Hnil : snd (NewFileWatcherChannel t setup "worker" "/var/chan"
                        (Sample.world Sample.fs_gone)) = None)
    by (vm_compute; reflexivity).
  split; [exact Hnil|]. split; [vm_compute; reflexivity|].
  destruct (NewFileWatcherChannel_success t setup "worker" "/var/chan"
              (Sample.world Sample.fs_gone) Hnil)
    as (ch & _ & _ & _ & _ & _ & _ & _ & _ & _ & _ & H & _).
  exact H.
Defined.

Lemma NewFileWatcherChannel_startTime_witness :
  let setup := {| fsnotify.NewWatcher := None; fsnotify.Add := None |} in
  let t := {| time.Year := 2020; time.Month := 1; time.Day := 1;
              time.Hour := 12; time.Minute := 0; time.Second := 0 |} in
  (0 <= time.Year t < 10000 /\ 1 <= time.Month t <= 12 /\ 1 <= time.Day t <= 31 /\
   0 <= time.Hour t < 24 /\ 0 <= time.Minute t < 60 /\ 0 <= time.Second t < 60) /\
  fst (fst (NewFileWatcherChannel t setup "worker" "/var/chan"
              (Sample.world Sample.fs_gone))) = Some (Sample.chan "worker" 0 0) /\
  String.length (startTime (Sample.chan "worker" 0 0)) = 14%nat.
Proof.
  cbv zeta.
  set (setup := {| fsnotify.NewWatcher := None; fsnotify.Add := None |}).
  set (t := {| time.Year := 2020; time.Month := 1; time.Day := 1;
               time.Hour := 12; time.Minute := 0; time.Second := 0 |}).
  assert (Hch : fst (fst (NewFileWatcherChannel t setup "worker" "/var/chan"
                            (Sample.world Sample.fs_gone)))
                = Some (Sample.chan "worker" 0 0)) by (vm_compute; reflexivity).
  split; [cbn; lia|]. split; [exact Hch|].
  refine (proj1 (NewFileWatcherChannel_startTime t setup "worker" "/var/chan"
                   (Sample.world Sample.fs_gone) _ _ _ _ _ _ _ Hch)); cbn; lia.
Defined.

(** ** The names that are sent and the filter *)

Lemma sequenceID_shape m start n :
  run letter m -> run strconv.is_digit start -> 0 <= n ->
  sequence_shape (sequenceID m start n).
Proof.
  intros Hm Hs Hn. exists m, start, (fmt.Sprintf_03d n).
  split; [reflexivity|]. split; [assumption|]. split; [assumption|].
  apply Sprintf_03d_digits. assumption.
Qed.

Lemma isReadable_filter_mode ch filename :
  occurs (mode ch) filename -> isReadable ch filename = false.
Proof.
  intros Hocc. apply Contains_spec in Hocc.
  unfold isReadable, regexp.MatchString.
  destruct (negb _ || _); [reflexivity|]. rewrite Hocc. reflexivity.
Qed.

(** X21: the names [Send] gives to its messages fit the filter of the
    receive path: with a mode made of letters and a start time made of
    digits the name has the shape the filter looks for, so a path that
    holds such a name qualifies exactly when neither the mode of the
    receiving instance nor the text [tmp] occurs in it; and a path that
    holds a name sent by the instance itself never qualifies. *)
Theorem sent_names_and_filter ch m start n filename :
  occurs (sequenceID m start n) filename ->
  (run letter m -> run strconv.is_digit start -> 0 <= n ->
   isReadable ch filename
   = negb (strings.Contains filename (mode ch))
     && negb (strings.Contains filename "tmp")) /\
  (m = mode ch -> isReadable ch filename = false).
Proof.
  intros Hocc. split.
  - intros Hm Hs Hn. unfold isReadable, regexp.MatchString.
    assert (Hsearch : regexp.search sequence_pattern filename = true).
    { apply search_spec. exists (sequenceID m start n). split; [|assumption].
      apply sequence_pattern_spec. apply sequenceID_shape; assumption. }
    rewrite Hsearch. rewrite bool_decide_eq_false_2 by (intros H; apply H; reflexivity).
    reflexivity.
  - intros ->. apply isReadable_filter_mode.
    destruct Hocc as (pre & post & ->). exists pre, ("-" +:+ start +:+ "-" +:+
      fmt.Sprintf_03d n +:+ post).
    unfold sequenceID. rewrite !append_assoc. reflexivity.
Qed.

Lemma sent_names_and_filter_witness :
  let name := sequenceID "master" "20200101120000" 7 in
  occurs name ("/var/chan/" +:+ name) /\
  (run letter "master" /\ run strconv.is_digit "20200101120000" /\ 0 <= 7) /\
  isReadable (Sample.chan "worker" 0 0) ("/var/chan/" +:+ name) = true /\
  isReadable (Sample.chan "master" 0 0) ("/var/chan/" +:+ name) = false.
Proof.
  cbv zeta.
  assert (Hocc : occurs (sequenceID "master" "20200101120000" 7)
                   ("/var/chan/" +:+ sequenceID "master" "20200101120000" 7)).
  { exists "/var/chan/", "". rewrite append_empty_r. reflexivity. }
  assert (Hm : run letter "master") by (split; [discriminate|reflexivity]).
  assert (Hs : run strconv.is_digit "20200101120000")
    by (split; [discriminate|reflexivity]).
  assert (Hn : 0 <= 7) by lia.
  split; [exact Hocc|]. split; [exact (conj Hm (conj Hs Hn))|]. split.
  - rewrite (proj1 (sent_names_and_filter (Sample.chan "worker" 0 0) _ _ _ _ Hocc)
               Hm Hs Hn).
    vm_compute. reflexivity.
  - exact (proj2 (sent_names_and_filter (Sample.chan "master" 0 0) _ _ _ _ Hocc)
             eq_refl).
Defined.

(** ** An instance does not consume what it has sent *)

Lemma Split_parts_without sep s :
  Forall (fun part => all_of (fun c => negb (Ascii.eqb c sep)) part = true)
         (strings.Split s sep).
Proof.
  induction s as [|c s IH]; cbn [strings.Split]; [repeat constructor|].
  destruct (Ascii.eqb c sep) eqn:Hc; [constructor; [reflexivity|assumption]|].
  destruct (strings.Split s sep) as [|x xs]; [repeat constructor; cbn; rewrite Hc; reflexivity|].
  inversion IH as [|? ? Hx Hxs]; subst. constructor; [|assumption].
  cbn [all_of]. rewrite Hc, Hx. reflexivity.
Qed.

Lemma base_without_slash p :
  all_of (fun c => negb (Ascii.eqb c "/")) (snd (path.Split p)) = true.
Proof.
  unfold path.Split. cbn [snd].
  pose proof (Split_parts_without "/" p) as Hall.
  pose proof (Split_not_nil p "/") as Hne.
  destruct (exists_last Hne) as (init & l & E). rewrite E in Hall |- *.
  rewrite last_snoc. apply Forall_app in Hall as [_ Hl]. inversion Hl; assumption.
Qed.

Lemma base_extend y s :
  all_of (fun c => negb (Ascii.eqb c "/")) s = true ->
  snd (path.Split (y +:+ s)) = snd (path.Split y) +:+ s.
Proof.
  intros Hs. unfold path.Split. cbn [snd].
  destruct (Split_extend "/" y s Hs) as (init & l & -> & ->).
  rewrite !last_snoc. reflexivity.
Qed.

Lemma base_after_slash q s :
  all_of (fun c => negb (Ascii.eqb c "/")) s = true ->
  snd (path.Split ((q +:+ "/") +:+ s)) = s.
Proof.
  intros Hs. rewrite (base_extend _ _ Hs).
  unfold path.Split. cbn [snd].
  change (q +:+ "/") with (q +:+ String "/" ""). rewrite Split_join.
  cbn [strings.Split]. rewrite last_snoc. reflexivity.
Qed.

Lemma concat_snoc_slash l c :
  String.concat "/" (l ++ [c]) = c \/
  exists q, String.concat "/" (l ++ [c]) = (q +:+ "/") +:+ c.
Proof.
  induction l as [|x l IH]; [left; reflexivity|]. right.
  destruct l as [|y l].
  - exists x. cbn. rewrite append_assoc. reflexivity.
  - change (String.concat "/" ((x :: y :: l) ++ [c]))
      with (x +:+ "/" +:+ String.concat "/" ((y :: l) ++ [c])).
    destruct IH as [->|(q & ->)].
    + exists x. rewrite append_assoc. reflexivity.
    + exists (x +:+ "/" +:+ q). rewrite !append_assoc. reflexivity.
Qed.

(** [path.Clean] keeps the last component of a path when that component
    holds a dash. *)
Lemma Clean_base y s :
  all_of (fun c => negb (Ascii.eqb c "/")) s = true ->
  strings.Contains s "-" = true ->
  snd (path.Split (path.Clean (y +:+ s))) = snd (path.Split (y +:+ s)).
Proof.
  intros Hslash Hdash.
  rewrite (base_extend y s Hslash).
  set (l := snd (path.Split y)).
  assert (Hl : all_of (fun c => negb (Ascii.eqb c "/")) (l +:+ s) = true).
  { rewrite all_of_app, Hslash. unfold l. rewrite base_without_slash. reflexivity. }
  unfold path.Clean.
  destruct (Split_extend "/" y s Hslash) as (init & l' & Hy & ->).
  assert (l' = l) as ->.
  { unfold l, path.Split. cbn [snd]. rewrite Hy, last_snoc. reflexivity. }
  rewrite fold_left_app. cbn [fold_left].
  destruct (dashed_component l s Hdash) as [H1 H2].
  set (rooted := String.prefix "/" (y +:+ s)).
  set (stack := fold_left (path.clean_step rooted) init []).
  assert (Hstep : path.clean_step rooted stack (l +:+ s) = (l +:+ s) :: stack).
  { unfold path.clean_step. rewrite H1, H2. reflexivity. }
  rewrite Hstep. cbn [List.rev].
  assert (Hnonempty : forall pre, pre +:+ l +:+ s <> "").
  { intros pre E. apply append_eq_empty in E as [_ E].
    apply append_eq_empty in E as [_ ->]. discriminate Hdash. }
  destruct (concat_snoc_slash (List.rev stack) (l +:+ s)) as [->|(q & ->)].
  - destruct rooted.
    + change ("/" +:+ l +:+ s) with (("" +:+ "/") +:+ (l +:+ s)).
      apply base_after_slash. assumption.
    + destruct (String.eqb_spec (l +:+ s) "") as [E|_];
        [destruct (Hnonempty "" E)|].
      rewrite <- (append_empty_l (l +:+ s)) at 1.
      rewrite (base_extend _ _ Hl). reflexivity.
  - destruct rooted.
    + replace ("/" +:+ (q +:+ "/") +:+ l +:+ s) with ((("/" +:+ q) +:+ "/") +:+ (l +:+ s))
        by (rewrite !append_assoc; reflexivity).
      apply base_after_slash. assumption.
    + destruct (String.eqb_spec ((q +:+ "/") +:+ l +:+ s) "") as [E|_];
        [destruct (Hnonempty _ E)|].
      apply base_after_slash. assumption.
Qed.

(** The key under which the file of a name is kept ends in the name. *)
Lemma Join_key_base dir name :
  all_of (fun c => negb (Ascii.eqb c "/")) name = true ->
  strings.Contains name "-" = true ->
  snd (path.Split (path.Clean (path.Join dir name))) = name.
Proof.
  intros Hslash Hdash.
  assert (Hne : String.eqb name "" = false).
  { destruct (String.eqb_spec name "") as [->|]; [discriminate Hdash|reflexivity]. }
  assert (Hjoin : exists y, path.Join dir name = path.Clean (y +:+ name) /\
                            snd (path.Split (y +:+ name)) = name).
  { unfold path.Join. rewrite Hne. destruct (String.eqb dir "").
    - exists "". split; [reflexivity|]. rewrite (base_extend _ _ Hslash). reflexivity.
    - exists (dir +:+ "/"). split; [rewrite append_assoc; reflexivity|].
      apply base_after_slash. assumption. }
  destruct Hjoin as (y & -> & Hbase).
  destruct (Clean_keeps_tail y name Hslash Hdash) as (pre & Hpre).
  rewrite Hpre at 1. rewrite (Clean_base pre name Hslash Hdash).
  rewrite <- Hpre, (Clean_base y name Hslash Hdash). exact Hbase.
Qed.

Lemma consume_lookup_other p st k :
  path.Clean p <> k ->
  files (snd (consume p st)) !! k = files (snd st) !! k.
Proof.
  intros Hne. destruct st as [ch w].
  destruct (ioutil.ReadFile p (files w)) as [buf|err] eqn:Hread.
  - rewrite (consume_read_ok _ _ _ _ Hread). cbn [snd files set_files add_log].
    apply Remove_lookup_other. assumption.
  - rewrite (consume_read_error _ _ _ _ Hread). reflexivity.
Qed.

Lemma consume_list_lookup_other ps k : forall st,
  (forall p, In p ps -> path.Clean p <> k) ->
  files (snd (fold_left (fun st p => consume p st) ps st)) !! k = files (snd st) !! k.
Proof.
  induction ps as [|p ps IH]; intros st Hall; [reflexivity|].
  cbn [fold_left]. rewrite IH by (intros q Hq; apply Hall; right; assumption).
  apply consume_lookup_other. apply Hall. left. reflexivity.
Qed.

Lemma readable_has_dash ch name :
  isReadable ch name = true -> strings.Contains name "-" = true.
Proof.
  intros Hr. apply isReadable_spec in Hr as ((x & Hshape & Hocc) & _).
  destruct Hshape as (role & n1 & n2 & -> & _).
  destruct Hocc as (pre & post & ->).
  apply Contains_spec. exists (pre +:+ role), (n1 +:+ "-" +:+ n2 +:+ post).
  rewrite !append_assoc. reflexivity.
Qed.

Lemma ReadDir_names_without_slash dirname fs name :
  In name (fst (ioutil.ReadDir dirname fs)) ->
  all_of (fun c => negb (Ascii.eqb c "/")) name = true.
Proof.
  intros Hin. destruct (fs !! path.Clean dirname) as [[c l|]|] eqn:Hd;
    try (unfold ioutil.ReadDir in Hin; rewrite Hd in Hin; destruct Hin).
  apply list_elem_of_In in Hin.
  apply (ReadDir_entries _ _ _ Hd) in Hin as (k & x & _ & Hc).
  unfold os.child_name in Hc. destruct (_ && _); [|discriminate].
  injection Hc as <-. apply base_without_slash.
Qed.

(** X22: an instance does not take back what it has sent: with a mode and
    a start time free of slashes, a message that [Send] has delivered is
    still in the channel directory, with its payload, after a
    reconciliation pass of the sending instance itself, and so after its
    [Close]. *)
Theorem own_message_survives rawJson ch w :
  all_of (fun c => negb (Ascii.eqb c "/")) (mode ch) = true ->
  all_of (fun c => negb (Ascii.eqb c "/")) (startTime ch) = true ->
  0 <= counter ch ->
  snd (Send rawJson (ch, w)) = None ->
  let filepath := path.Join (path ch)
                    (sequenceID (mode ch) (startTime ch) (counter ch)) in
  let sent := fst (Send rawJson (ch, w)) in
  ioutil.ReadFile filepath (files (snd (consumeAll sent))) = inl rawJson /\
  ioutil.ReadFile filepath (files (snd (Close sent))) = inl rawJson.
Proof.
  intros Hmode Hstart Hcount Hnil filepath sent.
  set (seq := sequenceID (mode ch) (startTime ch) (counter ch)) in *.
  assert (Hseq_slash : all_of (fun c => negb (Ascii.eqb c "/")) seq = true).
  { unfold seq, sequenceID. rewrite !all_of_app, Hmode, Hstart. cbn [all_of andb negb].
    apply (all_of_impl strconv.is_digit);
      [intros c Hc; apply (digit_is_not "/" c); [reflexivity|assumption]|].
    apply Sprintf_03d_digits. assumption. }
  assert (Hseq_dash : strings.Contains seq "-" = true).
  { apply Contains_spec. exists (mode ch), (startTime ch +:+ "-" +:+
      fmt.Sprintf_03d (counter ch)). reflexivity. }
  pose proof (Join_key_base (path ch) seq Hseq_slash Hseq_dash) as Hkey.
  fold filepath in Hkey.
  assert (Hsent : files (snd sent) !! path.Clean filepath = Some (File rawJson false)).
  { unfold sent. rewrite (Send_success_files _ _ _ Hnil). cbn [fst snd files set_files].
    apply lookup_insert_eq. }
  assert (Hfields : path (fst sent) = path ch /\ mode (fst sent) = mode ch).
  { unfold sent. rewrite (Send_success_files _ _ _ Hnil). auto. }
  destruct Hfields as [Hpath Hm].
  assert (Hpass : forall st0, path (fst st0) = path ch -> mode (fst st0) = mode ch ->
            files (snd (consumeAll st0)) !! path.Clean filepath
            = files (snd st0) !! path.Clean filepath).
  { intros [ch0 w0] Hp0 Hm0. cbn [fst snd] in Hp0, Hm0. rewrite consumeAll_unfold.
    rewrite consume_list_lookup_other; [reflexivity|].
    intros p Hp. apply in_map_iff in Hp as (name & <- & Hin).
    apply filter_In in Hin as [Hin Hr].
    intros Heq.
    pose proof (ReadDir_names_without_slash _ _ _ Hin) as Hname_slash.
    pose proof (readable_has_dash _ _ Hr) as Hname_dash.
    pose proof (Join_key_base (path ch0) name Hname_slash Hname_dash) as Hbase.
    rewrite Heq, Hkey in Hbase. subst name.
    assert (isReadable ch0 seq = false) as Hno.
    { apply isReadable_filter_mode. rewrite Hm0.
      exists "", ("-" +:+ startTime ch +:+ "-" +:+ fmt.Sprintf_03d (counter ch)).
      reflexivity. }
    congruence. }
  split.
  - unfold ioutil.ReadFile. rewrite (Hpass sent Hpath Hm), Hsent. reflexivity.
  - unfold ioutil.ReadFile.
    assert (Hclose : files (snd (Close sent)) !! path.Clean filepath
                     = files (snd sent) !! path.Clean filepath).
    { destruct sent as [ch1 w1] eqn:Es. cbn [fst snd] in *. unfold Close.
      destruct (closed ch1); [reflexivity|].
      pose proof (Hpass (set_closed true ch1,
                   add_log (Logf LInfo "channel %v requested close" [AStr (path ch1)]) w1)
                   Hpath Hm) as H.
      destruct (consumeAll _) as [ch2 w2]. exact H. }
    rewrite Hclose, Hsent. reflexivity.
Qed.

Lemma own_message_survives_witness :
  let ch := Sample.chan "master" 0 0 in
  let w := Sample.world Sample.fs_empty in
  (all_of (fun c => negb (Ascii.eqb c "/")) (mode ch) = true /\
   all_of (fun c => negb (Ascii.eqb c "/")) (startTime ch) = true /\
   0 <= counter ch /\ snd (Send "ping" (ch, w)) = None) /\
  ioutil.ReadFile "/var/chan/master-20200101120000-000"
    (files (snd (consumeAll (fst (Send "ping" (ch, w)))))) = inl "ping".
Proof.
  cbv zeta.
  assert (Hnil : snd (Send "ping" (Sample.chan "master" 0 0,
                                   Sample.world Sample.fs_empty)) = None)
    by (vm_compute; reflexivity).
  assert (Hc : 0 <= counter (Sample.chan "master" 0 0)) by (cbn; lia).
  split; [split; [reflexivity|]; split; [reflexivity|]; split; [exact Hc|exact Hnil]|].
  exact (proj1 (own_message_survives "ping" (Sample.chan "master" 0 0)
                  (Sample.world Sample.fs_empty) eq_refl eq_refl Hc Hnil)).
Defined.

(** ** What a reconciliation pass delivers *)

Lemma payload_of_lookup (fs fs' : gmap string node) p :
  fs' !! path.Clean p = fs !! path.Clean p -> payload_of fs' p = payload_of fs p.
Proof. unfold payload_of, ioutil.ReadFile. intros ->. reflexivity. Qed.

Lemma omap_ext_in {A B} (f g : A -> option B) l :
  (forall x, In x l -> f x = g x) -> omap f l = omap g l.
Proof.
  induction l as [|a l IH]; intros H; [reflexivity|].
  cbn [omap list_omap]. rewrite (H a (or_introl eq_refl)).
  rewrite IH by (intros x Hx; apply H; right; assumption). reflexivity.
Qed.

Lemma consume_list_delivers ps : forall st,
  List.NoDup (map path.Clean ps) ->
  onMessageChan (fst (fold_left (fun st p => consume p st) ps st))
    = onMessageChan (fst st) ++ omap (payload_of (files (snd st))) ps /\
  (forall p, In p ps -> is_Some (payload_of (files (snd st)) p) ->
     files (snd (fold_left (fun st p => consume p st) ps st)) !! path.Clean p
     = if bool_decide (path.Clean p ∈ protected (snd st))
       then files (snd st) !! path.Clean p else None) /\
  (forall k,
     (forall p, In p ps -> is_Some (payload_of (files (snd st)) p) -> k <> path.Clean p) ->
     files (snd (fold_left (fun st p => consume p st) ps st)) !! k = files (snd st) !! k).
Proof.
  induction ps as [|p ps IH]; intros st Hnodup.
  - cbn. rewrite app_nil_r. split; [reflexivity|]. split; [intros p []|reflexivity].
  - cbn [map] in Hnodup. apply NoDup_cons_iff in Hnodup as [Hnotin Hnodup].
    cbn [fold_left]. destruct (IH (consume p st) Hnodup) as (IHs & IHf & IHk).
    assert (Hother : forall q, In q ps -> path.Clean p <> path.Clean q).
    { intros q Hq E. apply Hnotin. rewrite E. apply in_map. assumption. }
    assert (Hsame : forall q, In q ps ->
              payload_of (files (snd (consume p st))) q = payload_of (files (snd st)) q).
    { intros q Hq. apply payload_of_lookup. apply consume_lookup_other, Hother, Hq. }
    split; [|split].
    + rewrite IHs, (omap_ext_in _ _ _ Hsame). destruct st as [ch w].
      cbn [omap list_omap snd fst].
      destruct (ioutil.ReadFile p (files w)) as [buf|err] eqn:Hread.
      * assert (Hp : payload_of (files w) p = Some buf)
          by (unfold payload_of; rewrite Hread; reflexivity).
        rewrite Hp, (consume_read_ok _ _ _ _ Hread).
        cbn [fst onMessageChan push set_recvCounter].
        rewrite <- app_assoc. reflexivity.
      * assert (Hp : payload_of (files w) p = None)
          by (unfold payload_of; rewrite Hread; reflexivity).
        rewrite Hp, (consume_read_error _ _ _ _ Hread). reflexivity.
    + intros q [<-|Hq] Hsome.
      * rewrite consume_list_lookup_other
          by (intros r Hr E; exact (Hother r Hr (eq_sym E))).
        destruct st as [ch w]. unfold payload_of in Hsome. cbn [snd] in Hsome |- *.
        destruct (ioutil.ReadFile p (files w)) as [buf|err] eqn:Hread;
          [|destruct Hsome; discriminate].
        rewrite (consume_read_files _ _ _ _ Hread).
        destruct (bool_decide _); [reflexivity|apply lookup_delete_eq].
      * rewrite IHf by (try assumption; rewrite (Hsame q Hq); assumption).
        rewrite consume_protected, consume_lookup_other by exact (Hother q Hq).
        reflexivity.
    + intros k Hk. rewrite IHk.
      * destruct st as [ch w]. cbn [snd].
        destruct (ioutil.ReadFile p (files w)) as [buf|err] eqn:Hread.
        -- rewrite (consume_read_ok _ _ _ _ Hread). cbn [snd files set_files].
           apply Remove_lookup_other. intros E.
           apply (Hk p (or_introl eq_refl)); [|congruence].
           unfold payload_of. cbn [snd]. rewrite Hread. eauto.
        -- rewrite (consume_read_error _ _ _ _ Hread). reflexivity.
      * intros q Hq Hsome. apply Hk; [right; assumption|].
        rewrite <- (Hsame q Hq). assumption.
Qed.

Lemma NoDup_map_on {A B} (f : A -> B) l :
  (forall x y, In x l -> In y l -> f x = f y -> x = y) ->
  List.NoDup l -> List.NoDup (map f l).
Proof.
  induction l as [|a l IH]; intros Hinj Hnd; [constructor|].
  apply NoDup_cons_iff in Hnd as [Hnotin Hnd]. cbn [map]. constructor.
  - intros Hin. apply in_map_iff in Hin as (x & Hfx & Hx).
    assert (x = a) by (apply Hinj; [right; assumption|left; reflexivity|assumption]).
    subst x. contradiction.
  - apply IH; [|assumption]. intros x y Hx Hy. apply Hinj; right; assumption.
Qed.

(** X23: when the qualifying names of the listing are distinct, as the
    names of a directory are, a reconciliation pass delivers, in the order
    of the listing, which is the order of the names, the payloads of the
    qualifying files that can be read.  Each of these files is removed,
    unless the system refuses the removal, in which case it is left as it
    was; the files that cannot be read are passed over and every other
    path is left as it was. *)
Theorem consumeAll_delivers ch w :
  let names := List.filter (isReadable ch) (fst (ioutil.ReadDir (path ch) (files w))) in
  List.NoDup names ->
  StronglySorted String.le names /\
  onMessageChan (fst (consumeAll (ch, w)))
    = onMessageChan ch
      ++ omap (fun name => payload_of (files w) (path.Join (path ch) name)) names /\
  (forall name, In name names ->
     is_Some (payload_of (files w) (path.Join (path ch) name)) ->
     let k := path.Clean (path.Join (path ch) name) in
     (k ∉ protected w -> files (snd (consumeAll (ch, w))) !! k = None) /\
     (k ∈ protected w -> files (snd (consumeAll (ch, w))) !! k = files w !! k)) /\
  (forall k,
     (forall name, In name names ->
        is_Some (payload_of (files w) (path.Join (path ch) name)) ->
        k <> path.Clean (path.Join (path ch) name)) ->
     files (snd (consumeAll (ch, w))) !! k = files w !! k).
Proof.
  intros names Hnd.
  assert (Hkeys : List.NoDup (map path.Clean (map (path.Join (path ch)) names))).
  { rewrite map_map. apply NoDup_map_on; [|assumption].
    intros x y Hx Hy Heq.
    apply filter_In in Hx as [Hx Hrx]. apply filter_In in Hy as [Hy Hry].
    rewrite <- (Join_key_base (path ch) x
                  (ReadDir_names_without_slash _ _ _ Hx) (readable_has_dash _ _ Hrx)).
    rewrite <- (Join_key_base (path ch) y
                  (ReadDir_names_without_slash _ _ _ Hy) (readable_has_dash _ _ Hry)).
    rewrite Heq. reflexivity. }
  split.
  { unfold names. clear. pose proof (ReadDir_sorted (path ch) (files w)) as Hs.
    induction Hs as [|a l Hs IH Ha]; cbn [List.filter]; [constructor|].
    destruct (isReadable ch a); [|assumption].
    constructor; [assumption|].
    apply Forall_forall. intros x Hx. apply list_elem_of_In, filter_In in Hx as [Hx _].
    rewrite Forall_forall in Ha. apply Ha. apply list_elem_of_In. assumption. }
  rewrite consumeAll_unfold. fold names.
  destruct (consume_list_delivers _
              (ch, add_log (Logl LDebug [AStr "consuming all the messages under: ";
                                         AStr (path ch)]) w) Hkeys) as (Hs & Hf & Hk).
  cbn [fst snd files add_log protected] in Hs, Hf, Hk. split; [|split].
  - rewrite Hs. f_equal. clear. induction names as [|n names IH]; [reflexivity|].
    cbn [map omap list_omap]. rewrite IH. reflexivity.
  - intros name Hin Hsome k.
    pose proof (Hf (path.Join (path ch) name) (in_map _ _ _ Hin) Hsome) as Hkey.
    fold k in Hkey. split; intros Hp.
    + rewrite Hkey, bool_decide_eq_false_2 by assumption. reflexivity.
    + rewrite Hkey, bool_decide_eq_true_2 by assumption. reflexivity.
  - intros k Hother. apply Hk. intros p Hp Hsome.
    apply in_map_iff in Hp as (name & <- & Hname). apply Hother; assumption.
Qed.

Lemma consumeAll_delivers_witness :
  let ch := Sample.chan "worker" 0 2 in
  let w := Sample.world Pending.fs in
  let held := (Sample.chan "worker" 0 0, Held.world) in
  (List.NoDup (List.filter (isReadable ch) (fst (ioutil.ReadDir (path ch) (files w)))) /\
   onMessageChan (fst (consumeAll (ch, w))) = ["m2"; "m3"; "m4"; "m5"] /\
   files (snd (consumeAll (ch, w))) !! "/var/chan/master-20200101120000-003" = None) /\
  (List.NoDup (List.filter (isReadable (fst held))
                 (fst (ioutil.ReadDir (path (fst held)) (files (snd held))))) /\
   onMessageChan (fst (consumeAll held)) = ["ping"] /\
   files (snd (consumeAll held)) !! Held.message = Some (File "ping" false)).
Proof.
  cbv zeta. split.
  - assert (Hnd : List.NoDup (List.filter (isReadable (Sample.chan "worker" 0 2))
                    (fst (ioutil.ReadDir (path (Sample.chan "worker" 0 2))
                            (files (Sample.world Pending.fs)))))).
    { replace (List.filter _ _)
        with ["master-20200101120000-002"; "master-20200101120000-003";
              "master-20200101120000-004"; "master-20200101120000-005"]
        by (vm_compute; reflexivity).
      repeat (constructor;
              [cbn; intros H; repeat (destruct H as [H|H]; [discriminate H|]); exact H|]).
      constructor. }
    split; [exact Hnd|].
    destruct (consumeAll_delivers (Sample.chan "worker" 0 2)
                (Sample.world Pending.fs) Hnd) as (_ & Hs & Hf & _).
    split; [rewrite Hs; vm_compute; reflexivity|].
    apply (Hf "master-20200101120000-003").
    + vm_compute. auto.
    + vm_compute. eauto.
    + apply not_elem_of_empty.
  - assert (Hnd : List.NoDup (List.filter (isReadable (Sample.chan "worker" 0 0))
                    (fst (ioutil.ReadDir (path (Sample.chan "worker" 0 0))
                            (files Held.world))))).
    { replace (List.filter _ _) with ["master-20200101120000-000"]
        by (vm_compute; reflexivity).
      repeat (constructor;
              [cbn; intros H; repeat (destruct H as [H|H]; [discriminate H|]); exact H|]).
      constructor. }
    split; [exact Hnd|].
    destruct (consumeAll_delivers (Sample.chan "worker" 0 0) Held.world Hnd)
      as (_ & Hs & Hf & _).
    split; [rewrite Hs; vm_compute; reflexivity|].
    destruct (Hf "master-20200101120000-000") as [_ Hkept].
    + vm_compute. auto.
    + vm_compute. eauto.
    + cbv zeta in Hkept.
      assert (Hheld : path.Clean (path.Join (path (Sample.chan "worker" 0 0))
                                    "master-20200101120000-000")
                      ∈ protected Held.world).
      { unfold Held.world, Sample.world_protecting. cbn [protected].
        apply elem_of_list_to_set, elem_of_cons. left. vm_compute. reflexivity. }
      change Held.message
        with (path.Clean (path.Join (path (Sample.chan "worker" 0 0))
                            "master-20200101120000-000")).
      rewrite (Hkept Hheld). vm_compute. reflexivity.
Defined.

(** ** A message that arrives in order *)

(** X24: when the creation event of a message that a peer has just sent
    reaches the watch loop of an instance whose cursor is the counter of
    that message, the loop consumes this one file, without listing the
    directory, and goes on with the next message: the payload is appended
    to the stream and the cursor advances by one; the file is removed,
    unless the system refuses the removal, in which case it stays with
    its payload. *)
Theorem in_order_event rawJson chS w chR msgs :
  0 <= counter chS < max_int64 ->
  snd (Send rawJson (chS, w)) = None ->
  recvCounter chR = counter chS ->
  let filepath := path.Join (path chS)
                    (sequenceID (mode chS) (startTime chS) (counter chS)) in
  isReadable chR filepath = true ->
  let event := {| fsnotify.Name := filepath; fsnotify.EvOp := fsnotify.Create |} in
  let sent := fst (Send rawJson (chS, w)) in
  let after := consume filepath
                 (chR, add_log (Logl LDebug [AStr "received event: "; AEvent event])
                         (snd sent)) in
  watch_loop (EventMsg event :: msgs) (chR, snd sent) = watch_loop msgs after /\
  onMessageChan (fst after) = onMessageChan chR ++ [rawJson] /\
  recvCounter (fst after) = recvCounter chR + 1 /\
  (path.Clean filepath ∉ protected w ->
   files (snd after) !! path.Clean filepath = None) /\
  (path.Clean filepath ∈ protected w ->
   ioutil.ReadFile filepath (files (snd after)) = inl rawJson).
Proof.
  intros Hrange Hnil Hcur filepath Hread event sent after.
  assert (Hparse : parseSequenceCounter filepath = counter chS)
    by (apply parseSequenceCounter_Join; lia).
  split.
  { rewrite watch_loop_cons by discriminate. f_equal.
    unfold watch_step. cbn [fsnotify.Name fsnotify.EvOp event].
    rewrite Hread, Hparse, Hcur, Z.eqb_refl. reflexivity. }
  assert (Hfile : ioutil.ReadFile filepath
            (files (add_log (Logl LDebug [AStr "received event: "; AEvent event])
                      (snd sent))) = inl rawJson).
  { subst sent. rewrite (Send_success_files _ _ _ Hnil).
    unfold ioutil.ReadFile. cbn [fst snd files set_files add_log].
    fold filepath. rewrite lookup_insert_eq. reflexivity. }
  assert (Hprot : protected (add_log (Logl LDebug [AStr "received event: "; AEvent event])
                               (snd sent)) = protected w).
  { subst sent. rewrite (Send_success_files _ _ _ Hnil). reflexivity. }
  subst after. rewrite (consume_read_files _ _ _ _ Hfile), Hprot.
  rewrite (consume_read_ok _ _ _ _ Hfile).
  cbn [fst snd onMessageChan recvCounter push set_recvCounter].
  rewrite Hparse, Hcur.
  rewrite wrap_int_id by (unfold min_int64, max_int64 in *; lia).
  split; [reflexivity|]. split; [reflexivity|]. split.
  - intros Hfree. rewrite bool_decide_eq_false_2 by assumption.
    apply lookup_delete_eq.
  - intros Hheld. rewrite bool_decide_eq_true_2 by assumption. exact Hfile.
Qed.

Lemma in_order_event_witness :
  let chS := Sample.chan "master" 3 0 in
  let chR := Sample.chan "worker" 0 3 in
  let w := Sample.world Sample.fs_empty in
  let event := {| fsnotify.Name := "/var/chan/master-20200101120000-003";
                  fsnotify.EvOp := fsnotify.Create |} in
  (0 <= counter chS < max_int64 /\ snd (Send "ping" (chS, w)) = None /\
   recvCounter chR = counter chS /\
   isReadable chR "/var/chan/master-20200101120000-003" = true) /\
  onMessageChan (fst (watch_loop [EventMsg event]
                        (chR, snd (fst (Send "ping" (chS, w)))))) = ["ping"] /\
  recvCounter (fst (watch_loop [EventMsg event]
                      (chR, snd (fst (Send "ping" (chS, w)))))) = 4.
Proof.
  cbv zeta.
  assert (Hrange : 0 <= counter (Sample.chan "master" 3 0) < max_int64)
    by (vm_compute; split; [discriminate|reflexivity]).
  assert (Hnil : snd (Send "ping" (Sample.chan "master" 3 0,
                                   Sample.world Sample.fs_empty)) = None)
    by (vm_compute; reflexivity).
  split; [split; [exact Hrange|]; split; [exact Hnil|]; split; reflexivity|].
  destruct (in_order_event "ping" (Sample.chan "master" 3 0)
              (Sample.world Sample.fs_empty) (Sample.chan "worker" 0 3) []
              Hrange Hnil eq_refl eq_refl) as (Hloop & Hstream & Hcursor & _).
  split.
  - exact (eq_trans (f_equal (fun st => onMessageChan (fst st)) Hloop) Hstream).
  - exact (eq_trans (f_equal (fun st => recvCounter (fst st)) Hloop) Hcursor).
Defined.

(** ** The bounds of the parsed counter *)

Lemma ParseInt_nonneg s z :
  all_of (fun c => negb (Ascii.eqb c "-")) s = true ->
  strconv.ParseInt s = inl z -> 0 <= z.
Proof.
  destruct s as [|c rest]; [discriminate|].
  cbn [all_of]. rewrite andb_true_iff, negb_true_iff. intros [Hc _].
  unfold strconv.ParseInt. rewrite Hc. cbn [orb].
  match goal with
  | |- context [match ?b with EmptyString => _ | String _ _ => _ end] =>
      destruct b as [|c' body']; [discriminate|]
  end.
  destruct (strconv.parse_digits 0 (String c' body')) as [un|] eqn:Hd; [|discriminate].
  destruct (max_int64 <? un); [discriminate|]. intros [= <-].
  apply (parse_digits_nonneg (String c' body') 0 un); [lia|assumption].
Qed.

Lemma last_part_without sep s :
  all_of (fun c => negb (Ascii.eqb c sep)) (List.last (strings.Split s sep) "") = true.
Proof.
  pose proof (Split_parts_without sep s) as Hall.
  pose proof (Split_not_nil s sep) as Hne.
  destruct (exists_last Hne) as (init & l & E). rewrite E in Hall |- *.
  rewrite last_snoc. apply Forall_app in Hall as [_ Hl].
  inversion Hl; subst. assumption.
Qed.

Lemma parseSequenceCounter_lower filepath : -1 <= parseSequenceCounter filepath.
Proof.
  unfold parseSequenceCounter.
  destruct (strconv.ParseInt _) as [z|e] eqn:Hp; [|lia].
  enough (0 <= z) by lia.
  apply (ParseInt_nonneg _ _ (last_part_without "-" _) Hp).
Qed.

(** X25: the counter parsed out of a path is -1 or a number from 0 to the
    largest 64-bit integer, never another negative number: the dashes
    that separate the parts of a name cannot serve as a minus sign.  So
    the cursor that a successful [consume] sets is not negative, except
    that the largest counter makes it wrap around to the smallest
    integer. *)
Theorem recvCounter_after_consume filepath ch w buf :
  ioutil.ReadFile filepath (files w) = inl buf ->
  -1 <= parseSequenceCounter filepath <= max_int64 /\
  (parseSequenceCounter filepath < max_int64 ->
   0 <= recvCounter (fst (consume filepath (ch, w))) <= max_int64) /\
  (parseSequenceCounter filepath = max_int64 ->
   recvCounter (fst (consume filepath (ch, w))) = min_int64).
Proof.
  intros Hread.
  pose proof (parseSequenceCounter_lower filepath) as Hlo.
  pose proof (parseSequenceCounter_range filepath) as [_ Hhi].
  rewrite (consume_read_ok _ _ _ _ Hread).
  cbn [fst recvCounter push set_recvCounter].
  split; [lia|]. split.
  - intros Hlt. rewrite wrap_int_id; unfold min_int64, max_int64 in *; lia.
  - intros ->. vm_compute. reflexivity.
Qed.

Lemma recvCounter_after_consume_witness :
  let w := Sample.world (<["/var/chan/master-x-9223372036854775807" := File "m" false]>
                           Sample.fs_empty) in
  ioutil.ReadFile "/var/chan/master-x-9223372036854775807" (files w) = inl "m" /\
  recvCounter (fst (consume "/var/chan/master-x-9223372036854775807"
                      (Sample.chan "worker" 0 0, w))) = min_int64.
Proof.
  cbv zeta.
  assert (Hread : ioutil.ReadFile "/var/chan/master-x-9223372036854775807"
            (files (Sample.world
                      (<["/var/chan/master-x-9223372036854775807" := File "m" false]>
                         Sample.fs_empty))) = inl "m")
    by (vm_compute; reflexivity).
  split; [exact Hread|].
  apply (proj2 (proj2 (recvCounter_after_consume _ (Sample.chan "worker" 0 0) _ _ Hread))).
  vm_compute. reflexivity.
Defined.
